(** * Red Line tracker: the response-normalisation layer of api/parsers.py

    A shallow embedding of [src/Shiny App/api/parsers.py], and of the
    effects of [src/Shiny App/app.py] that call it.

    - A JSON:API payload is a value of [json]; the functions are
      duck-typed, so every attribute access, iteration, subscript, hash
      and conversion that can raise is a computation in the [result]
      monad, in the order the source evaluates them.
    - The calls into the standard library and third-party packages
      ([datetime.fromisoformat], [zoneinfo.ZoneInfo], [float] and [str]
      on floats, [polyline.decode], the sort behind
      [DataFrame.sort_values]) are the fields of one interface, [PyEnv];
      [Cpython] gives them bodies for the worked examples.
    - [datetime.now(timezone.utc)] is the argument [now].
    - A DataFrame is the list of its rows; an empty frame is the empty
      list, and the range of pandas' timestamps is not modelled.  Text
      is ASCII.  A float is the rational it denotes.
    - [parse_vehicles_for_map_enriched] calls three more library
      functions; they are the fields of a second interface, [PyHover]. *)

From Stdlib Require Import ZArith QArith Bool List String Ascii Lia.
From Stdlib Require Import DecimalString Permutation Sorted.
Import ListNotations.

#[local] Set Warnings "-register-all".

Open Scope Z_scope.

(** ** Exceptions and the error monad *)

Inductive exn : Set :=
| AttributeError
| TypeError
| ValueError
| KeyError
| OverflowError.

Inductive result (A : Type) : Type :=
| Ok (a : A)
| Raise (e : exn).

Arguments Ok {A} a.
Arguments Raise {A} e.

Definition bind {A B : Type} (m : result A) (k : A -> result B) : result B :=
  match m with
  | Ok a => k a
  | Raise e => Raise e
  end.

Notation "x <- m ;; k" := (bind m (fun x => k))
  (at level 61, m at next level, right associativity).

Definition raises {A : Type} (m : result A) : Prop :=
  exists e, m = Raise e.

Definition returns {A : Type} (m : result A) : Prop :=
  exists a, m = Ok a.

(** A [for] loop whose body appends at most one row and may raise:
    the first exception ends the loop. *)
Fixpoint for_rows {A B : Type} (body : A -> result (option B))
         (items : list A) : result (list B) :=
  match items with
  | [] => Ok []
  | x :: rest =>
      r <- body x ;;
      rs <- for_rows body rest ;;
      Ok (match r with Some row => row :: rs | None => rs end)
  end.

(** The rows a loop appended, given what its body made of each item. *)
Definition rows_of {B : Type} (rs : list (option B)) : list B :=
  flat_map (fun r => match r with Some row => [row] | None => [] end) rs.

(** A [for] loop that threads a state through its body. *)
Fixpoint for_state {A S : Type} (body : S -> A -> result S)
         (items : list A) (st : S) : result S :=
  match items with
  | [] => Ok st
  | x :: rest => st' <- body st x ;; for_state body rest st'
  end.

(** ** JSON values as Python sees them

    [json.loads] yields [None], [bool], [int], [float], [str], [list] and
    [dict] (string keys).  A float is carried as the rational it denotes;
    a dict is its list of bindings, looked up by first match. *)

Inductive json : Type :=
| JNull
| JBool (b : bool)
| JInt (z : Z)
| JFloat (q : Q)
| JStr (s : string)
| JList (l : list json)
| JDict (d : list (string * json)).

Definition dict : Type := list (string * json).

(** Python truthiness, as used by [if x], [not x] and [x or y]. *)
Definition truthy (v : json) : bool :=
  match v with
  | JNull => false
  | JBool b => b
  | JInt z => negb (z =? 0)
  | JFloat q => negb (Qeq_bool q 0)
  | JStr s => negb (String.eqb s EmptyString)
  | JList l => match l with [] => false | _ => true end
  | JDict d => match d with [] => false | _ => true end
  end.

(** [x or y] *)
Definition por (x y : json) : json := if truthy x then x else y.

Definition is_none (v : json) : bool :=
  match v with JNull => true | _ => false end.

Fixpoint lookup (k : string) (d : dict) : option json :=
  match d with
  | [] => None
  | (k', v) :: rest => if String.eqb k k' then Some v else lookup k rest
  end.

(** [d.get(k, default)] on a dict. *)
Definition dget (d : dict) (k : string) (default : json) : json :=
  match lookup k d with Some v => v | None => default end.

(** [v.get(k, default)] on an arbitrary value: only dicts have [.get]. *)
Definition vget (v : json) (k : string) (default : json) : result json :=
  match v with
  | JDict d => Ok (dget d k default)
  | _ => Raise AttributeError
  end.

Definition chars (s : string) : list json :=
  map (fun c => JStr (String c EmptyString)) (list_ascii_of_string s).

(** [for x in v]: lists yield their elements, strings their characters,
    dicts their keys; nothing else is iterable. *)
Definition iter (v : json) : result (list json) :=
  match v with
  | JList l => Ok l
  | JStr s => Ok (chars s)
  | JDict d => Ok (map (fun kv => JStr (fst kv)) d)
  | _ => Raise TypeError
  end.

(** [v[0]] for a truthy [v]. *)
Definition index0 (v : json) : result json :=
  match v with
  | JList (x :: _) => Ok x
  | JStr (String c _) => Ok (JStr (String c EmptyString))
  | JDict _ => Raise KeyError
  | _ => Raise TypeError
  end.

(** Lists and dicts are unhashable: using one as a dict key raises. *)
Definition hashable (v : json) : bool :=
  match v with
  | JList _ | JDict _ => false
  | _ => true
  end.

Definition num_of (v : json) : option Q :=
  match v with
  | JBool b => Some (if b then 1%Q else 0%Q)
  | JInt z => Some (inject_Z z)
  | JFloat q => Some q
  | _ => None
  end.

(** [a == b] on hashable values: numbers (booleans included) compare by
    value, strings by content, [None] only equals [None]. *)
Definition key_eqb (a b : json) : bool :=
  match num_of a, num_of b with
  | Some x, Some y => Qeq_bool x y
  | None, None =>
      match a, b with
      | JNull, JNull => true
      | JStr s, JStr t => String.eqb s t
      | _, _ => false
      end
  | _, _ => false
  end.

(** Equality of the [(type, id)] tuples that key the included lookup. *)
Definition tuple_eqb (a b : json * json) : bool :=
  key_eqb (fst a) (fst b) && key_eqb (snd a) (snd b).

(** A Python dict built by the module, in insertion order; [eqb] is the
    equality of its keys. *)
Definition pymap (K V : Type) : Type := list (K * V).

Fixpoint pm_get {K V : Type} (eqb : K -> K -> bool) (k : K) (m : pymap K V)
  : option V :=
  match m with
  | [] => None
  | (k', v) :: rest => if eqb k k' then Some v else pm_get eqb k rest
  end.

(** [m[k] = v]: an existing key keeps its position. *)
Fixpoint pm_set {K V : Type} (eqb : K -> K -> bool) (k : K) (v : V)
         (m : pymap K V) : pymap K V :=
  match m with
  | [] => [(k, v)]
  | (k', v') :: rest =>
      if eqb k k' then (k', v) :: rest else (k', v') :: pm_set eqb k v rest
  end.

(** [a or b] on values that are [None] or always-truthy objects. *)
Definition oor {A : Type} (a b : option A) : option A :=
  match a with Some _ => a | None => b end.

Definition is_some {A : Type} (a : option A) : bool :=
  match a with Some _ => true | None => false end.

(** ** Strings *)

(** [s.replace(c, by)] for a one-character pattern. *)
Fixpoint str_replace (c : ascii) (by_ : string) (s : string) : string :=
  match s with
  | EmptyString => EmptyString
  | String a rest =>
      if Ascii.eqb a c then by_ ++ str_replace c by_ rest
      else String a (str_replace c by_ rest)
  end.

Definition is_digit (a : ascii) : bool :=
  let n := nat_of_ascii a in (48 <=? n)%nat && (n <=? 57)%nat.

(** [s.isdigit()] on ASCII text. *)
Definition isdigit (s : string) : bool :=
  match s with
  | EmptyString => false
  | _ => forallb is_digit (list_ascii_of_string s)
  end.

(** [int(s)] for a string of decimal digits. *)
Definition int_of_digits (s : string) : Z :=
  fold_left (fun acc a => 10 * acc + (Z.of_nat (nat_of_ascii a) - 48))
            (list_ascii_of_string s) 0.

(** ** Time

    A [datetime] is its wall-clock reading, in microseconds since
    0001-01-01T00:00:00, and the UTC offset of its [tzinfo] in
    microseconds ([None] for a naive value).  A normalised instant, what
    [_parse_iso] returns, is an aware datetime in UTC: its wall-clock
    reading alone. *)

Record datetime : Type := mkdt { wall : Z; tzinfo : option Z }.

Definition instant : Type := Z.

(** One past [datetime.max], 9999-12-31T23:59:59.999999. *)
Definition MAXWALL : Z := 3652059 * 86400 * 1000000.

(** [dt.astimezone(timezone.utc)] for a reading [w] at offset [off]:
    [w - off], or OverflowError when that leaves years 1..9999. *)
Definition astimezone_utc (w off : Z) : result (option instant) :=
  let u := w - off in
  if (0 <=? u) && (u <? MAXWALL) then Ok (Some u) else Raise OverflowError.

(** [(a - b).total_seconds()]: the float nearest to this quotient.  A
    difference in whole microseconds is at most a whole number [n] of
    seconds exactly when the rounded quotient is, so comparisons with
    [n] are made on the quotient. *)
Definition total_seconds (a b : instant) : Q := (a - b) # 1000000.

(** ** The environment: library calls made by the module *)

Class PyEnv : Type := {
  (** [datetime.fromisoformat]; [None] stands for ValueError. *)
  fromisoformat : string -> option datetime;
  (** The name bound by [from zoneinfo import ZoneInfo], [None] after the
      ImportError fallback; a zone maps a wall-clock reading to its UTC
      offset (both in microseconds). *)
  ZoneInfo : option (string -> Z -> Z);
  (** [float(s)] on a string; [None] stands for ValueError. *)
  float_of_str : string -> option Q;
  (** [str(x)] on a float. *)
  str_of_float : Q -> string;
  (** The name bound by [import polyline as pl], [None] after the
      ImportError fallback; [pl.decode(s, precision=5)] yields
      (lat, lon) pairs, and [None] stands for any exception. *)
  pl : option (string -> option (list (Q * Q)));
  (** [numpy.argsort(kind="quicksort")], the sort [DataFrame.sort_values]
      uses by default. *)
  argsort : list Z -> list nat
}.

(** MBTA uses Eastern time; naive API times are America/New_York. *)
Definition MBTA_TZ : string := "America/New_York".

Section Parsers.

Context {env : PyEnv}.

(** ** 2. Predictions: included lookup *)

Definition _parse_iso (s : json) : result (option instant) :=
  if negb (truthy s) then Ok None
  else
    match s with
    | JStr str =>
        let s' := str_replace "Z"%char "+00:00" str in
        match fromisoformat s' with
        | None => Raise ValueError
        | Some dt =>
            match tzinfo dt, ZoneInfo with
            | None, Some zone => astimezone_utc (wall dt) (zone MBTA_TZ (wall dt))
            | None, None => Ok (Some (wall dt))
            | Some off, _ => astimezone_utc (wall dt) off
            end
        end
    | _ => Raise AttributeError
    end.

Definition On_Time : string := "On Time".
Definition Delayed : string := "Delayed".
Definition Cancelled : string := "Cancelled".

Definition _derive_status (scheduled_dt predicted_dt : option instant)
           (threshold_minutes : Z) : string :=
  match predicted_dt with
  | None => Cancelled
  | Some p =>
      match scheduled_dt with
      | None => On_Time
      | Some s =>
          let delay_sec := total_seconds p s in
          if Qle_bool delay_sec (inject_Z (threshold_minutes * 60))
          then On_Time else Delayed
      end
  end.

(** ** 1. Alerts *)

Definition SEVERITY_MAP : pymap json string :=
  [(JInt 1, "Information"%string); (JInt 2, "Warning"%string);
   (JInt 3, "Emergency"%string)].

(** [str(v)] on a scalar. *)
Definition str_of (v : json) : string :=
  match v with
  | JNull => "None"
  | JBool b => if b then "True" else "False"
  | JInt z => NilEmpty.string_of_int (Z.to_int z)
  | JFloat q => str_of_float q
  | JStr s => s
  | _ => EmptyString
  end.

(** [SEVERITY_MAP.get(v, str(v) if v is not None else "Unknown")] *)
Definition severity_label_of (severity_val : json) : result string :=
  if hashable severity_val then
    Ok (match pm_get key_eqb severity_val SEVERITY_MAP with
        | Some label => label
        | None => if is_none severity_val then "Unknown"%string
                  else str_of severity_val
        end)
  else Raise TypeError.

(** [v[:n]]: strings and lists can be sliced; anything else raises
    (TypeError; for a dict, KeyError from Python 3.12 on). *)
Definition slice_to (n : nat) (v : json) : result json :=
  match v with
  | JStr s => Ok (JStr (substring 0 n s))
  | JList l => Ok (JList (firstn n l))
  | _ => Raise TypeError
  end.

Record alert_row : Type := mk_alert {
  Severity : string;
  Description : json;
  Start_Time : option instant;
  End_Time : option instant;
  Status : string
}.

Definition Active : string := "Active".
Definition Inactive : string := "Inactive".

(** [start_time and (end_time is None or now < end_time) and now >= start_time] *)
Definition alert_active (now : instant) (start_time end_time : option instant)
  : bool :=
  match start_time with
  | None => false
  | Some st =>
      match end_time with
      | None => true
      | Some en => now <? en
      end && (st <=? now)
  end.

(** The body of the loop of [parse_alerts]. *)
Definition alert_body (now : instant) (item : json) : result (option alert_row) :=
  attrs <- vget item "attributes" (JDict []) ;;
  severity_val <- vget attrs "severity" JNull ;;
  severity_label <- severity_label_of severity_val ;;
  d1 <- vget attrs "description" JNull ;;
  d2 <- vget attrs "short_header" JNull ;;
  d3 <- vget attrs "header" JNull ;;
  let description := por (por (por d1 d2) d3) (JStr EmptyString) in
  ap <- vget attrs "active_period" JNull ;;
  let active_periods := por ap (JList []) in
  times <-
    (if truthy active_periods then
       first <- index0 active_periods ;;
       start_str <- vget first "start" JNull ;;
       end_str <- vget first "end" JNull ;;
       start_time <- (if truthy start_str then _parse_iso start_str else Ok None) ;;
       end_time <- (if truthy end_str then _parse_iso end_str else Ok None) ;;
       Ok (start_time, end_time)
     else Ok (None, None)) ;;
  let start_time := fst times in
  let end_time := snd times in
  let status := if alert_active now start_time end_time then Active else Inactive in
  descr <- (if truthy description then slice_to 200 description
            else Ok (JStr EmptyString)) ;;
  Ok (Some (mk_alert severity_label descr start_time end_time status)).

Definition _empty_alerts_df : list alert_row := [].

(** [now] is the reading of [datetime.now(timezone.utc)]. *)
Definition parse_alerts (now : instant) (alerts_response : dict)
  : result (list alert_row) :=
  if truthy (dget alerts_response "error" JNull) then Ok _empty_alerts_df
  else
    data <- iter (dget alerts_response "data" (JList [])) ;;
    rows <- for_rows (alert_body now) data ;;
    match rows with
    | [] => Ok _empty_alerts_df
    | _ => Ok rows
    end.

(** ** 2. Predictions: included lookup *)

Definition included_body (lookup : pymap (json * json) json) (inc : json)
  : result (pymap (json * json) json) :=
  ty <- vget inc "type" JNull ;;
  id <- vget inc "id" JNull ;;
  if hashable ty && hashable id
  then Ok (pm_set tuple_eqb (ty, id) inc lookup)
  else Raise TypeError.

Definition _build_included_lookup (included_list : json)
  : result (pymap (json * json) json) :=
  incs <- iter (por included_list (JList [])) ;;
  for_state included_body incs [].

(** [x = (rels.get(name) or {}).get("data")] followed by
    [x.get("id") if isinstance(x, dict) else None] *)
Definition rel_id (rels : json) (name : string) : result json :=
  r <- vget rels name JNull ;;
  ref <- vget (por r (JDict [])) "data" JNull ;;
  match ref with
  | JDict d => Ok (dget d "id" JNull)
  | _ => Ok JNull
  end.

(** [included.get((ty, id))]: [None] when the key is absent. *)
Definition included_get (included : pymap (json * json) json)
           (ty : string) (id : json) : result json :=
  if hashable id then
    Ok (match pm_get tuple_eqb (JStr ty, id) included with
        | Some res => res
        | None => JNull
        end)
  else Raise TypeError.

(** [included.get((ty, id)) if id else {}] *)
Definition resolve (included : pymap (json * json) json)
           (ty : string) (id : json) : result json :=
  if truthy id then included_get included ty id else Ok (JDict []).

(** The coercion both prediction loops apply to [direction_id]:
    [int(d) if str(d).isdigit() else d] unless [d] is [None] or an [int].
    The [str] of a float, a list or a dict is never all digits. *)
Definition coerce_direction (direction_id : json) : json :=
  match direction_id with
  | JStr s => if isdigit s then JInt (int_of_digits s) else direction_id
  | _ => direction_id
  end.

(** ** 3. Departures and arrivals *)

Record departure_row : Type := mk_departure {
  Destination : json;
  Scheduled_Departure_Time : option instant;
  Actual_Estimated_Departure_Time : option instant;
  departure_Status : string;
  _sort_time : option instant
}.

(** The body of the loop of [parse_departures]. *)
Definition departure_body (included : pymap (json * json) json) (item : json)
  : result (option departure_row) :=
  attrs <- vget item "attributes" (JDict []) ;;
  rels <- vget item "relationships" (JDict []) ;;
  direction_id <- vget attrs "direction_id" JNull ;;
  let direction_id := coerce_direction direction_id in
  pred_dep <- vget attrs "departure_time" JNull ;;
  pred_arr <- vget attrs "arrival_time" JNull ;;
  pred_dep_dt <- _parse_iso pred_dep ;;
  pred_arr_dt <- _parse_iso pred_arr ;;
  schedule_id <- rel_id rels "schedule" ;;
  trip_id <- rel_id rels "trip" ;;
  schedule <- resolve included "schedule" schedule_id ;;
  trip <- resolve included "trip" trip_id ;;
  sched_attrs <- vget schedule "attributes" (JDict []) ;;
  trip_attrs <- vget trip "attributes" (JDict []) ;;
  destination <- vget trip_attrs "headsign" (JStr EmptyString) ;;
  sd1 <- vget sched_attrs "departure_time" JNull ;;
  sd2 <- vget sched_attrs "departure" JNull ;;
  let sched_dep := por sd1 sd2 in
  sched_dep_dt <- _parse_iso sched_dep ;;
  if key_eqb direction_id (JInt 0)
     && (truthy pred_dep || truthy sched_dep || truthy pred_arr)
  then
    let status := _derive_status sched_dep_dt (oor pred_dep_dt pred_arr_dt) 2 in
    let dep_time := oor (oor pred_dep_dt pred_arr_dt) sched_dep_dt in
    Ok (Some (mk_departure destination sched_dep_dt
                           (oor pred_dep_dt pred_arr_dt) status dep_time))
  else Ok None.

(** Rows of [rows] at the positions [indexer], in that order. *)
Definition take_rows {A : Type} (rows : list A) (indexer : list nat) : list A :=
  flat_map (fun i => match nth_error rows i with
                     | Some r => [r]
                     | None => []
                     end) indexer.

Definition key_list {A : Type} (by_ : A -> option Z) (rows : list A) : list Z :=
  flat_map (fun r => match by_ r with Some k => [k] | None => [] end) rows.

(** [df.sort_values(by=..., ascending=True, na_position="last")] followed
    by [reset_index(drop=True)]: the rows with a key in the order given
    by [argsort] on their keys, then the rows without a key as they
    came. *)
Definition sort_values {A : Type} (by_ : A -> option Z) (df : list A) : list A :=
  let non_nans := filter (fun r => is_some (by_ r)) df in
  let nans := filter (fun r => negb (is_some (by_ r))) df in
  take_rows non_nans (argsort (key_list by_ non_nans)) ++ nans.

(** A row of the frame [parse_departures] returns. *)
Record departure_out : Type := mk_departure_out {
  out_Destination : json;
  out_Scheduled_Departure_Time : option instant;
  out_Actual_Estimated_Departure_Time : option instant;
  out_Status : string
}.

Definition _empty_departures_df : list departure_out := [].

(** [df.drop(columns=["_sort_time"])] *)
Definition drop_sort_time (df : list departure_row) : list departure_out :=
  map (fun r => mk_departure_out (Destination r) (Scheduled_Departure_Time r)
                                 (Actual_Estimated_Departure_Time r)
                                 (departure_Status r)) df.

Definition parse_departures (predictions_response : dict)
  : result (list departure_out) :=
  if truthy (dget predictions_response "error" JNull)
  then Ok _empty_departures_df
  else
    let payload := predictions_response in
    included <- _build_included_lookup (dget payload "included" (JList [])) ;;
    data <- iter (dget payload "data" (JList [])) ;;
    departures_rows <- for_rows (departure_body included) data ;;
    match departures_rows with
    | [] => Ok _empty_departures_df
    | _ =>
        let df := departures_rows in
        let df := sort_values _sort_time df in
        let df := drop_sort_time df in
        Ok df
    end.

Record arrival_raw : Type := mk_arrival_raw {
  vehicle_id : json;
  Scheduled_Arrival_Time : option instant;
  Actual_Estimated_Arrival_Time : option instant;
  arrival_Status : string;
  arrival_time_dt : option instant
}.

(** The body of the loop of [_parse_arrivals_raw]. *)
Definition arrival_body (included : pymap (json * json) json) (item : json)
  : result (option arrival_raw) :=
  attrs <- vget item "attributes" (JDict []) ;;
  rels <- vget item "relationships" (JDict []) ;;
  direction_id <- vget attrs "direction_id" JNull ;;
  let direction_id := coerce_direction direction_id in
  pred_arr <- vget attrs "arrival_time" JNull ;;
  pred_dep <- vget attrs "departure_time" JNull ;;
  pred_arr_dt <- _parse_iso pred_arr ;;
  pred_dep_dt <- _parse_iso pred_dep ;;
  schedule_id <- rel_id rels "schedule" ;;
  trip_id <- rel_id rels "trip" ;;
  vehicle_id <- rel_id rels "vehicle" ;;
  schedule <- resolve included "schedule" schedule_id ;;
  sched_attrs <- vget schedule "attributes" (JDict []) ;;
  sa1 <- vget sched_attrs "arrival_time" JNull ;;
  sa2 <- vget sched_attrs "arrival" JNull ;;
  let sched_arr := por sa1 sa2 in
  sched_arr_dt <- _parse_iso sched_arr ;;
  if key_eqb direction_id (JInt 1)
     && (truthy pred_arr || truthy sched_arr || truthy pred_dep)
  then
    let status := _derive_status sched_arr_dt (oor pred_arr_dt pred_dep_dt) 2 in
    Ok (Some (mk_arrival_raw vehicle_id sched_arr_dt
                             (oor pred_arr_dt pred_dep_dt) status
                             (oor (oor pred_arr_dt sched_arr_dt) pred_dep_dt)))
  else Ok None.

Definition _parse_arrivals_raw (predictions_response : dict)
  : result (list arrival_raw) :=
  if truthy (dget predictions_response "error" JNull) then Ok []
  else
    let payload := predictions_response in
    included <- _build_included_lookup (dget payload "included" (JList [])) ;;
    data <- iter (dget payload "data" (JList [])) ;;
    arrivals_rows <- for_rows (arrival_body included) data ;;
    match arrivals_rows with
    | [] => Ok []
    | _ => Ok arrivals_rows
    end.

(** The name of the stop [stop_id] points at, as both [_vehicle_to_stop_map]
    and [_next_stop_by_vehicle] compute it. *)
Definition stop_name_of (included : pymap (json * json) json) (stop_id : json)
  : result json :=
  if truthy stop_id then
    stop_res <- included_get included "stop" stop_id ;;
    if truthy stop_res then
      a <- vget stop_res "attributes" JNull ;;
      vget (por a (JDict [])) "name" stop_id
    else Ok (JStr "Unknown")
  else Ok (JStr "Unknown").

(** The body of the loop of [_vehicle_to_stop_map]. *)
Definition vehicle_stop_body (included : pymap (json * json) json)
           (out : pymap json json) (item : json) : result (pymap json json) :=
  vid <- vget item "id" JNull ;;
  r <- vget item "relationships" JNull ;;
  s <- vget (por r (JDict [])) "stop" (JDict []) ;;
  stop_ref <- vget s "data" JNull ;;
  let stop_id := match stop_ref with
                 | JDict d => dget d "id" JNull
                 | _ => JNull
                 end in
  current_stop_name <- stop_name_of included stop_id ;;
  if hashable vid then Ok (pm_set key_eqb vid current_stop_name out)
  else Raise TypeError.

Definition _vehicle_to_stop_map (vehicles_response : dict)
  : result (pymap json json) :=
  if truthy (dget vehicles_response "error" JNull) then Ok []
  else
    let payload := vehicles_response in
    included <- _build_included_lookup (dget payload "included" (JList [])) ;;
    data <- iter (dget payload "data" (JList [])) ;;
    for_state (vehicle_stop_body included) data [].

Record arrival_row : Type := mk_arrival {
  Current_Stop : json;
  row_Scheduled_Arrival_Time : option instant;
  row_Actual_Estimated_Arrival_Time : option instant;
  row_Status : string
}.

Definition _empty_arrivals_df : list arrival_row := [].

(** [vehicle_to_stop.get(v, "Unknown") if pd.notna(v) else "Unknown"];
    an unhashable [v] cannot be looked up. *)
Definition current_stop_of (vehicle_to_stop : pymap json json) (v : json)
  : result json :=
  if is_none v then Ok (JStr "Unknown")
  else if hashable v then
    Ok (match pm_get key_eqb v vehicle_to_stop with
        | Some name => name
        | None => JStr "Unknown"
        end)
  else Raise TypeError.

(** [(arrival_dt >= now) & (arrival_dt <= end)]; a missing time compares
    false. *)
Definition in_window (now window_end : instant) (arrival_dt : option instant)
  : bool :=
  match arrival_dt with
  | Some t => (now <=? t) && (t <=? window_end)
  | None => false
  end.

Definition timedelta_minutes (m : Z) : Z := m * 60 * 1000000.

(** [raw["Current Stop"] = raw["vehicle_id"].map(...)] followed by
    [raw.loc[mask, [...]]]: the column is computed for every raw row, in
    order, and the rows the mask keeps are projected. *)
Definition map_and_mask (vehicle_to_stop : pymap json json)
           (mask : arrival_raw -> bool) (raw : list arrival_raw)
  : result (list arrival_row) :=
  for_rows (fun r =>
              stop <- current_stop_of vehicle_to_stop (vehicle_id r) ;;
              Ok (if mask r
                  then Some (mk_arrival stop (Scheduled_Arrival_Time r)
                                        (Actual_Estimated_Arrival_Time r)
                                        (arrival_Status r))
                  else None)) raw.

(** Arrivals to Alewife in next 10 minutes with Current Stop. *)
Definition parse_near_term_arrivals (now : instant)
           (predictions_response vehicles_response : dict)
  : result (list arrival_row) :=
  raw <- _parse_arrivals_raw predictions_response ;;
  match raw with
  | [] => Ok _empty_arrivals_df
  | _ =>
      vehicle_to_stop <- _vehicle_to_stop_map vehicles_response ;;
      let ten_min := now + timedelta_minutes 10 in
      let mask r := in_window now ten_min (arrival_time_dt r) in
      out <- map_and_mask vehicle_to_stop mask raw ;;
      match out with
      | [] => Ok _empty_arrivals_df
      | _ => Ok out
      end
  end.

(** Arrivals to Alewife in next 60 minutes with Current Stop. *)
Definition parse_future_arrivals (now : instant)
           (predictions_response vehicles_response : dict)
  : result (list arrival_row) :=
  raw <- _parse_arrivals_raw predictions_response ;;
  match raw with
  | [] => Ok _empty_arrivals_df
  | _ =>
      vehicle_to_stop <- _vehicle_to_stop_map vehicles_response ;;
      let sixty_min := now + timedelta_minutes 60 in
      let mask r := in_window now sixty_min (arrival_time_dt r) in
      out <- map_and_mask vehicle_to_stop mask raw ;;
      match out with
      | [] => Ok _empty_arrivals_df
      | _ => Ok out
      end
  end.

(** ** 4. Map data: vehicles and shapes *)

Record next_stop : Type := mk_next_stop {
  stop_name : json;
  expected_time : instant;
  minutes_behind : option Q
}.

(** The body of the loop of [_next_stop_by_vehicle]. *)
Definition next_stop_body (included : pymap (json * json) json) (now : instant)
           (by_vehicle : pymap json next_stop) (item : json)
  : result (pymap json next_stop) :=
  attrs <- vget item "attributes" (JDict []) ;;
  rels <- vget item "relationships" (JDict []) ;;
  vehicle_id <- rel_id rels "vehicle" ;;
  if negb (truthy vehicle_id) then Ok by_vehicle
  else
    stop_id <- rel_id rels "stop" ;;
    stop_name <- stop_name_of included stop_id ;;
    pred_arr <- vget attrs "arrival_time" JNull ;;
    pred_dep <- vget attrs "departure_time" JNull ;;
    pred_dt <- _parse_iso (por pred_arr pred_dep) ;;
    match pred_dt with
    | None => Ok by_vehicle
    | Some pred =>
        if pred <? now then Ok by_vehicle
        else
          schedule_id <- rel_id rels "schedule" ;;
          schedule <- resolve included "schedule" schedule_id ;;
          sched_attrs <- vget schedule "attributes" (JDict []) ;;
          s1 <- vget sched_attrs "arrival_time" JNull ;;
          s2 <- vget sched_attrs "arrival" JNull ;;
          s3 <- vget sched_attrs "departure_time" JNull ;;
          s4 <- vget sched_attrs "departure" JNull ;;
          sched_dt <- _parse_iso (por (por (por s1 s2) s3) s4) ;;
          let minutes_behind :=
            match sched_dt with
            | Some sched => Some (total_seconds pred sched / 60)%Q
            | None => None
            end in
          let entry := mk_next_stop stop_name pred minutes_behind in
          if hashable vehicle_id then
            match pm_get key_eqb vehicle_id by_vehicle with
            | None => Ok (pm_set key_eqb vehicle_id entry by_vehicle)
            | Some old =>
                if pred <? expected_time old
                then Ok (pm_set key_eqb vehicle_id entry by_vehicle)
                else Ok by_vehicle
            end
          else Raise TypeError
    end.

Definition _next_stop_by_vehicle (now : instant) (predictions_response : dict)
  : result (pymap json next_stop) :=
  if truthy (dget predictions_response "error" JNull) then Ok []
  else
    let payload := predictions_response in
    included <- _build_included_lookup (dget payload "included" (JList [])) ;;
    data <- iter (dget payload "data" (JList [])) ;;
    for_state (next_stop_body included now) data [].

(** Integers from [2^1024 - 2^970] on round past the largest double. *)
Definition FLOAT_OVERFLOW : Z := 2 ^ 1024 - 2 ^ 970.

(** [float(v)].  The value is the exact rational; rounding to a double is
    not modelled. *)
Definition py_float (v : json) : result Q :=
  match v with
  | JBool b => Ok (if b then 1%Q else 0%Q)
  | JInt z => if Z.abs z <? FLOAT_OVERFLOW then Ok (inject_Z z)
              else Raise OverflowError
  | JFloat q => Ok q
  | JStr s => match float_of_str s with
              | Some q => Ok q
              | None => Raise ValueError
              end
  | _ => Raise TypeError
  end.

Record vehicle_position : Type := mk_vehicle {
  lat : Q;
  lon : Q;
  bearing : option Q;
  position_vehicle_id : json
}.

(** [attrs.get(k)], falling back on [attrs["position"].get(k)] when that
    is a dict. *)
Definition coordinate (attrs : json) (k : string) : result json :=
  c <- vget attrs k JNull ;;
  pos <- vget attrs "position" JNull ;;
  match attrs with
  | JDict d =>
      if is_none c && is_some (lookup "position" d) then
        match pos with
        | JDict p => Ok (dget p k JNull)
        | _ => Ok c
        end
      else Ok c
  | _ => Ok c
  end.

(** The body of the loop of [parse_vehicles_for_map]. *)
Definition vehicle_body (item : json) : result (option vehicle_position) :=
  a <- vget item "attributes" JNull ;;
  let attrs := por a (JDict []) in
  lat <- coordinate attrs "latitude" ;;
  lon <- coordinate attrs "longitude" ;;
  if is_none lat || is_none lon then Ok None
  else
    match (lat_f <- py_float lat ;; lon_f <- py_float lon ;; Ok (lat_f, lon_f)) with
    | Raise TypeError | Raise ValueError => Ok None
    | Raise e => Raise e
    | Ok (lat_f, lon_f) =>
        bearing <- vget attrs "bearing" JNull ;;
        bearing <- (if is_none bearing then Ok None
                    else match py_float bearing with
                         | Ok b => Ok (Some b)
                         | Raise TypeError | Raise ValueError => Ok None
                         | Raise e => Raise e
                         end) ;;
        id <- vget item "id" (JStr EmptyString) ;;
        Ok (Some (mk_vehicle lat_f lon_f bearing id))
    end.

Definition parse_vehicles_for_map (vehicles_response : dict)
  : result (list vehicle_position) :=
  if truthy (dget vehicles_response "error" JNull) then Ok []
  else
    data <- iter (dget vehicles_response "data" (JList [])) ;;
    for_rows vehicle_body data.

(** One decoded path segment, [(lons, lats)]. *)
Definition segment : Type := (list Q * list Q)%type.

(** The body of the loop over [points]: a point that is a dict with both
    coordinates appends to [lats] and [lons]. *)
Definition point_body (acc : list Q * list Q) (pt : json)
  : result (list Q * list Q) :=
  match pt with
  | JDict p =>
      let la := por (dget p "latitude" JNull) (dget p "lat" JNull) in
      let lo := por (por (dget p "longitude" JNull) (dget p "lon" JNull))
                    (dget p "lng" JNull) in
      if negb (is_none la) && negb (is_none lo) then
        la_f <- py_float la ;;
        lo_f <- py_float lo ;;
        Ok (fst acc ++ [la_f], snd acc ++ [lo_f])
      else Ok acc
  | _ => Ok acc
  end.

(** Decode one shape resource to (lons, lats). Returns None if decode
    fails. *)
Definition _decode_shape_to_lons_lats (item : json) : result (option segment) :=
  a <- vget item "attributes" JNull ;;
  let attrs := por a (JDict []) in
  encoded <- vget attrs "polyline" JNull ;;
  match encoded, pl with
  | JStr (String c rest), Some decode =>
      match decode (String c rest) with
      | Some (pt :: coords) =>
          let lats := map fst (pt :: coords) in
          let lons := map snd (pt :: coords) in
          Ok (Some (lons, lats))
      | _ => Ok None
      end
  | _, _ =>
      p <- vget attrs "points" JNull ;;
      let points := por p (JList []) in
      if negb (truthy points) then Ok None
      else
        pts <- iter points ;;
        acc <- for_state point_body pts ([], []) ;;
        let lats := fst acc in
        let lons := snd acc in
        match lats, lons with
        | _ :: _, _ :: _ => Ok (Some (lons, lats))
        | _, _ => Ok None
        end
  end.

Definition parse_red_line_shape (shapes_response : dict) : result (list segment) :=
  if truthy (dget shapes_response "error" JNull) then Ok []
  else
    data <- iter (dget shapes_response "data" (JList [])) ;;
    for_rows _decode_shape_to_lons_lats data.

(** [max(best :: l, key=key)]: the first element whose key is greatest. *)
Fixpoint max_by {A : Type} (key : A -> nat) (best : A) (l : list A) : A :=
  match l with
  | [] => best
  | x :: rest =>
      if (key best <? key x)%nat then max_by key x rest
      else max_by key best rest
  end.

Definition parse_route_shapes_merged (shapes_response : dict)
  : result (option segment) :=
  shapes <- parse_red_line_shape shapes_response ;;
  match shapes with
  | [] => Ok None
  | s :: rest =>
      let longest := max_by (fun s => List.length (fst s)) s rest in
      Ok (Some longest)
  end.

(** The body of the loop of [parse_merged_shapes_by_route]. *)
Definition merged_route_body (out : list (string * segment))
           (entry : string * dict) : result (list (string * segment)) :=
  let (route_id, resp) := entry in
  if truthy (dget resp "error" JNull) then Ok out
  else
    merged <- parse_route_shapes_merged resp ;;
    match merged with
    | Some m => Ok (out ++ [(route_id, m)])
    | None => Ok out
    end.

Definition parse_merged_shapes_by_route (responses_by_route : list (string * dict))
  : result (list (string * segment)) :=
  for_state merged_route_body responses_by_route [].

End Parsers.

(** ** A concrete environment

    The library calls as CPython and the packages the module imports
    implement them, for the inputs used in the examples below:
    [fromisoformat] follows the grammar [datetime.isoformat] emits,
    [YYYY-MM-DD[*HH[:MM[:SS[.fff[fff]]]][+HH:MM[:SS[.ffffff]]]]], which
    every CPython from 3.7 on accepts; the zone is America/New_York under
    the rule in force since 2007; the sort is numpy's quicksort, written
    out in full as [argsort_quicksort] and, for the frames of at most
    sixteen rows of most examples, as the insertion sort it then is. *)

Module Cpython.

Definition obind {A B : Type} (m : option A) (k : A -> option B) : option B :=
  match m with Some a => k a | None => None end.

Notation "x <-? m ;; k" := (obind m (fun x => k))
  (at level 61, m at next level, right associativity).

Notation "' pat <-? m ;; k" := (obind m (fun x => match x with pat => k end))
  (at level 61, pat pattern, m at next level, right associativity).

Definition digit_val (a : ascii) : Z := Z.of_nat (nat_of_ascii a) - 48.

(** Exactly [n] decimal digits. *)
Fixpoint parse_digits (n : nat) (acc : Z) (l : list ascii)
  : option (Z * list ascii) :=
  match n with
  | O => Some (acc, l)
  | S n' =>
      match l with
      | a :: rest =>
          if is_digit a then parse_digits n' (10 * acc + digit_val a) rest
          else None
      | [] => None
      end
  end.

Definition expect (c : ascii) (l : list ascii) : option (list ascii) :=
  match l with
  | a :: rest => if Ascii.eqb a c then Some rest else None
  | [] => None
  end.

(** [HH[:MM[:SS[.fff[fff]]]]], to the end of the text: hour, minute,
    second, microsecond. *)
Definition parse_hh_mm_ss_ff (l : list ascii) : option (Z * Z * Z * Z) :=
  '(h, l) <-? parse_digits 2 0 l ;;
  match l with
  | [] => Some (h, 0, 0, 0)
  | _ =>
      l <-? expect ":" l ;;
      '(m, l) <-? parse_digits 2 0 l ;;
      match l with
      | [] => Some (h, m, 0, 0)
      | _ =>
          l <-? expect ":" l ;;
          '(s, l) <-? parse_digits 2 0 l ;;
          match l with
          | [] => Some (h, m, s, 0)
          | _ =>
              l <-? expect "." l ;;
              match List.length l with
              | 3%nat => '(f, _) <-? parse_digits 3 0 l ;; Some (h, m, s, f * 1000)
              | 6%nat => '(f, _) <-? parse_digits 6 0 l ;; Some (h, m, s, f)
              | _ => None
              end
          end
      end
  end.

(** The text before the first sign, and the sign and text after it. *)
Fixpoint split_tz (l : list ascii) : list ascii * option (Z * list ascii) :=
  match l with
  | [] => ([], None)
  | a :: rest =>
      if Ascii.eqb a "+" then ([], Some (1, rest))
      else if Ascii.eqb a "-" then ([], Some (-1, rest))
      else let (t, z) := split_tz rest in (a :: t, z)
  end.

Definition is_leap (y : Z) : bool :=
  (y mod 4 =? 0) && (negb (y mod 100 =? 0) || (y mod 400 =? 0)).

Definition days_in_month (y m : Z) : Z :=
  if m =? 2 then (if is_leap y then 29 else 28)
  else if (m =? 4) || (m =? 6) || (m =? 9) || (m =? 11) then 30
  else 31.

Definition days_before_year (y : Z) : Z :=
  let y1 := y - 1 in y1 * 365 + y1 / 4 - y1 / 100 + y1 / 400.

Fixpoint days_before_month_aux (y : Z) (m : nat) : Z :=
  match m with
  | O => 0
  | S m' => days_before_month_aux y m' + days_in_month y (Z.of_nat m)
  end.

Definition days_before_month (y m : Z) : Z :=
  days_before_month_aux y (Z.to_nat (m - 1)).

(** The proleptic Gregorian ordinal: 0001-01-01 is day 1. *)
Definition ymd2ord (y m d : Z) : Z :=
  days_before_year y + days_before_month y m + d.

Definition wall_of (y m d hh mm ss us : Z) : Z :=
  ((ymd2ord y m d - 1) * 86400 + hh * 3600 + mm * 60 + ss) * 1000000 + us.

Definition valid_date (y m d : Z) : bool :=
  (1 <=? y) && (y <=? 9999) && (1 <=? m) && (m <=? 12)
  && (1 <=? d) && (d <=? days_in_month y m).

Definition valid_time (hh mm ss us : Z) : bool :=
  (hh <? 24) && (mm <? 60) && (ss <? 60) && (us <? 1000000).

Definition DAY_US : Z := 86400 * 1000000.

(** The UTC offset of [+HH:MM], [+HH:MM:SS] or [+HH:MM:SS.ffffff], in
    microseconds; it must lie strictly within a day. *)
Definition parse_offset (sign : Z) (l : list ascii) : option Z :=
  match List.length l with
  | 5%nat | 8%nat | 15%nat =>
      '(h, m, s, us) <-? parse_hh_mm_ss_ff l ;;
      let off := sign * ((h * 3600 + m * 60 + s) * 1000000 + us) in
      if (- DAY_US <? off) && (off <? DAY_US) then Some off else None
  | _ => None
  end.

Definition datetime_fromisoformat (s : string) : option datetime :=
  let l := list_ascii_of_string s in
  '(y, l) <-? parse_digits 4 0 l ;;
  l <-? expect "-" l ;;
  '(m, l) <-? parse_digits 2 0 l ;;
  l <-? expect "-" l ;;
  '(d, l) <-? parse_digits 2 0 l ;;
  if negb (valid_date y m d) then None
  else
    match l with
    | [] => Some (mkdt (wall_of y m d 0 0 0 0) None)
    | _sep :: l =>
        let (t, z) := split_tz l in
        '(hh, mm, ss, us) <-? parse_hh_mm_ss_ff t ;;
        if negb (valid_time hh mm ss us) then None
        else
          match z with
          | None => Some (mkdt (wall_of y m d hh mm ss us) None)
          | Some (sign, zl) =>
              off <-? parse_offset sign zl ;;
              Some (mkdt (wall_of y m d hh mm ss us) (Some off))
          end
    end.

(** The year of a proleptic Gregorian ordinal. *)
Definition year_of_ord (ord : Z) : Z :=
  let n := ord - 1 in
  let n400 := n / 146097 in
  let n := n mod 146097 in
  let n100 := n / 36524 in
  let n := n mod 36524 in
  let n4 := n / 1461 in
  let n := n mod 1461 in
  let n1 := n / 365 in
  let y := n400 * 400 + n100 * 100 + n4 * 4 + n1 + 1 in
  if (n1 =? 4) || (n100 =? 4) then y - 1 else y.

(** Monday is 0, Sunday is 6. *)
Definition weekday (ord : Z) : Z := (ord + 6) mod 7.

(** The first Sunday on or after day [d] of month [m]. *)
Definition sunday_from (y m d : Z) : Z :=
  let o := ymd2ord y m d in o + (6 - weekday o) mod 7.

Definition HOUR_US : Z := 3600 * 1000000.

(** America/New_York since 2007: daylight time from 03:00 on the second
    Sunday of March up to 02:00 on the first Sunday of November, read on
    the wall clock ([fold=0]). *)
Definition new_york (w : Z) : Z :=
  let y := year_of_ord (w / DAY_US + 1) in
  let dst_start := (sunday_from y 3 8 - 1) * DAY_US + 3 * HOUR_US in
  let dst_end := (sunday_from y 11 1 - 1) * DAY_US + 2 * HOUR_US in
  if (dst_start <=? w) && (w <? dst_end) then - 4 * HOUR_US else - 5 * HOUR_US.

Definition zoneinfo (key : string) (w : Z) : Z :=
  if String.eqb key "America/New_York" then new_york w else 0.

(** [float(s)] on a plain decimal literal: an optional sign, digits, an
    optional point and digits, with a digit somewhere.  The strings passed
    to it below are such literals or no number in any notation. *)
Fixpoint take_digits (l : list ascii) (acc : Z) (n : nat)
  : Z * nat * list ascii :=
  match l with
  | a :: rest =>
      if is_digit a then take_digits rest (10 * acc + digit_val a) (S n)
      else (acc, n, l)
  | [] => (acc, n, l)
  end.

Definition float_of_string (s : string) : option Q :=
  let l := list_ascii_of_string s in
  let '(sign, l) :=
    match l with
    | a :: rest =>
        if Ascii.eqb a "-" then (-1, rest)
        else if Ascii.eqb a "+" then (1, rest)
        else (1, l)
    | [] => (1, l)
    end in
  let '(ip, ni, l) := take_digits l 0 0 in
  let '(num, nf, l) :=
    match l with
    | a :: rest => if Ascii.eqb a "." then take_digits rest ip 0 else (ip, 0%nat, l)
    | [] => (ip, 0%nat, l)
    end in
  match l with
  | [] =>
      if (0 <? ni + nf)%nat
      then Some (Qred (sign * num # Z.to_pos (10 ^ Z.of_nat nf)))
      else None
  | _ => None
  end.

(** The digits of a fraction [0 <= n/d < 1], at most [fuel] of them. *)
Fixpoint frac_digits (fuel : nat) (n d : Z) : string :=
  match fuel with
  | O => EmptyString
  | S f =>
      if n =? 0 then EmptyString
      else String (ascii_of_nat (Z.to_nat (48 + 10 * n / d)))
                  (frac_digits f (10 * n mod d) d)
  end.

(** [str(x)] on a float with a short decimal expansion, in positional
    notation. *)
Definition float_repr (q : Q) : string :=
  let n := Z.abs (Qnum q) in
  let d := Z.pos (Qden q) in
  let frac := frac_digits 17 (n mod d) d in
  let sign := if Qnum q <? 0 then "-"%string else EmptyString in
  let frac := if String.eqb frac EmptyString then "0"%string else frac in
  (sign ++ NilEmpty.string_of_int (Z.to_int (n / d)) ++ "." ++ frac)%string.

(** [polyline._trans]: one zig-zag encoded number, in 5-bit chunks, low
    chunk first; running off the end of the text is an IndexError. *)
Fixpoint _trans (value : list ascii) (result shift : Z)
  : option (Z * list ascii) :=
  match value with
  | [] => None
  | a :: rest =>
      let byte := Z.of_nat (nat_of_ascii a) - 63 in
      let result := Z.lor result (Z.shiftl (Z.land byte 31) shift) in
      if 32 <=? byte then _trans rest result (shift + 5)
      else Some (if Z.odd result then Z.lnot (Z.shiftr result 1)
                 else Z.shiftr result 1, rest)
  end.

(** The loop of [polyline.decode]; [fuel] bounds the number of points by
    the length of the text. *)
Fixpoint decode_loop (fuel : nat) (factor : positive) (l : list ascii)
         (lat lng : Z) : option (list (Q * Q)) :=
  match l, fuel with
  | [], _ => Some []
  | _, O => None
  | _, S f =>
      '(lat_change, l) <-? _trans l 0 0 ;;
      '(lng_change, l) <-? _trans l 0 0 ;;
      let lat := lat + lat_change in
      let lng := lng + lng_change in
      rest <-? decode_loop f factor l lat lng ;;
      Some ((lat # factor, lng # factor) :: rest)
  end.

(** [polyline.decode(expression, precision=5)] *)
Definition decode (expression : string) : option (list (Q * Q)) :=
  let l := list_ascii_of_string expression in
  decode_loop (List.length l) 100000 l 0 0.

(** An insertion sort of (key, position) pairs; [before x y] says
    whether a key [x] met earlier is put in front of [y]. *)
Fixpoint insert_by (before : Z -> Z -> bool) (x : Z * nat) (l : list (Z * nat))
  : list (Z * nat) :=
  match l with
  | [] => [x]
  | y :: rest =>
      if before (fst x) (fst y) then x :: l
      else y :: insert_by before x rest
  end.

Definition argsort_by (before : Z -> Z -> bool) (keys : list Z) : list nat :=
  map snd (fold_right (insert_by before) []
                      (combine keys (seq 0 (List.length keys)))).

(** Equal keys keep their order. *)
Definition argsort_stable : list Z -> list nat := argsort_by Z.leb.

(** [numpy.argsort(kind="quicksort")] on keys without NaT, as numpy's
    [aquicksort] computes it on the index array [0 .. n-1]: an
    introsort.  A partition of more than [SMALL_QUICKSORT + 1] entries
    is split around the median of its first, middle and last entry; a
    smaller one is sorted by insertion; once [2 * floor(log2 n)] splits
    are nested, a partition is sorted by [aheapsort].  The index array
    is a list, a pointer into it a position. *)
Definition SMALL_QUICKSORT : nat := 15.

Fixpoint store (p : nat) (x : nat) (arr : list nat) : list nat :=
  match arr, p with
  | [], _ => []
  | _ :: rest, O => x :: rest
  | y :: rest, S p' => y :: store p' x rest
  end.

(** [INTP_SWAP] of the entries at [p] and [q]. *)
Definition intp_swap (p q : nat) (arr : list nat) : list nat :=
  store q (nth p arr O) (store p (nth q arr O) arr).

(** [v[*p]] *)
Definition key_at (v : list Z) (arr : list nat) (p : nat) : Z :=
  nth (nth p arr O) v 0.

(** [do ++pi; while (v[*pi] < vp)] and [do --pj; while (vp < v[*pj])];
    the median at either end stops them within the partition. *)
Fixpoint scan_up (fuel : nat) (v : list Z) (arr : list nat) (vp : Z) (pi : nat)
  : nat :=
  match fuel with
  | O => pi
  | S f =>
      let pi := S pi in
      if key_at v arr pi <? vp then scan_up f v arr vp pi else pi
  end.

Fixpoint scan_down (fuel : nat) (v : list Z) (arr : list nat) (vp : Z) (pj : nat)
  : nat :=
  match fuel with
  | O => pj
  | S f =>
      let pj := Nat.pred pj in
      if vp <? key_at v arr pj then scan_down f v arr vp pj else pj
  end.

(** The [for (;;)] loop of the partition; it returns the index array and
    [pi]. *)
Fixpoint exchange (fuel : nat) (v : list Z) (vp : Z) (arr : list nat)
         (pi pj : nat) : list nat * nat :=
  match fuel with
  | O => (arr, pi)
  | S f =>
      let pi := scan_up (List.length arr) v arr vp pi in
      let pj := scan_down (List.length arr) v arr vp pj in
      if (pj <=? pi)%nat then (arr, pi)
      else exchange f v vp (intp_swap pi pj arr) pi pj
  end.

(** [while (pj > pl && vp < v[*pk]) *pj-- = *pk--;] with [pk = pj - 1];
    it returns the index array and [pj]. *)
Fixpoint shift (fuel : nat) (v : list Z) (vp : Z) (pl : nat) (arr : list nat)
         (pj : nat) : list nat * nat :=
  match fuel with
  | O => (arr, pj)
  | S f =>
      if (pl <? pj)%nat && (vp <? key_at v arr (Nat.pred pj))
      then shift f v vp pl (store pj (nth (Nat.pred pj) arr O) arr) (Nat.pred pj)
      else (arr, pj)
  end.

(** The insertion sort of the entries at [pl .. pr]. *)
Definition insertion (v : list Z) (pl pr : nat) (arr : list nat) : list nat :=
  fold_left (fun arr pi =>
               let vi := nth pi arr O in
               let vp := nth vi v 0 in
               let (arr, pj) := shift (List.length arr) v vp pl arr pi in
               store pj vi arr)
            (seq (S pl) (pr - pl)) arr.

(** The sifting loop of [aheapsort] on the [n] entries from [pl] on,
    [a[k]] being the entry at [pl + k - 1]; it ends with [a[i] = tmp]. *)
Fixpoint sift (fuel : nat) (v : list Z) (pl n tmp : nat) (arr : list nat)
         (i j : nat) : list nat :=
  match fuel with
  | O => store (pl + i - 1) tmp arr
  | S f =>
      if (j <=? n)%nat then
        let j := if (j <? n)%nat
                    && (key_at v arr (pl + j - 1) <? key_at v arr (pl + j))
                 then S j else j in
        if nth tmp v 0 <? key_at v arr (pl + j - 1)
        then sift f v pl n tmp
                  (store (pl + i - 1) (nth (pl + j - 1) arr O) arr) j (j + j)
        else store (pl + i - 1) tmp arr
      else store (pl + i - 1) tmp arr
  end.

Definition aheapsort (v : list Z) (pl n : nat) (arr : list nat) : list nat :=
  let arr :=
    fold_left (fun arr l => sift n v pl n (nth (pl + l - 1) arr O) arr l (l + l))
              (rev (seq 1 (n / 2))) arr in
  fold_left (fun arr n =>
               let tmp := nth (pl + n - 1) arr O in
               let arr := store (pl + n - 1) (nth pl arr O) arr in
               sift n v pl (n - 1) tmp arr 1 2)
            (rev (seq 2 (n - 1))) arr.

(** The state of [aquicksort]: the index array, the bounds of the
    partition at hand, the stack of partitions put aside with the depth
    each was put aside at, and the depth left. *)
Record quicksort_state : Type := mk_qs {
  tosort : list nat;
  qs_pl : nat;
  qs_pr : nat;
  stack : list (nat * nat);
  depth : list Z;
  cdepth : Z
}.

(** One turn of [while ((pr - pl) > SMALL_QUICKSORT)]: the partition,
    and the larger side pushed on the stack. *)
Definition partition (v : list Z) (st : quicksort_state) : quicksort_state :=
  let pl := qs_pl st in
  let pr := qs_pr st in
  let arr := tosort st in
  let pm := (pl + (pr - pl) / 2)%nat in
  let arr := if key_at v arr pm <? key_at v arr pl
             then intp_swap pm pl arr else arr in
  let arr := if key_at v arr pr <? key_at v arr pm
             then intp_swap pr pm arr else arr in
  let arr := if key_at v arr pm <? key_at v arr pl
             then intp_swap pm pl arr else arr in
  let vp := key_at v arr pm in
  let pj := (pr - 1)%nat in
  let arr := intp_swap pm pj arr in
  let (arr, pi) := exchange (List.length arr) v vp arr pl pj in
  let pk := (pr - 1)%nat in
  let arr := intp_swap pi pk arr in
  let cdepth := cdepth st - 1 in
  if (pi - pl <? pr - pi)%nat
  then mk_qs arr pl (pi - 1) ((pi + 1, pr)%nat :: stack st)
             (cdepth :: depth st) cdepth
  else mk_qs arr (pi + 1) pr ((pl, pi - 1)%nat :: stack st)
             (cdepth :: depth st) cdepth.

Fixpoint partitions (fuel : nat) (v : list Z) (st : quicksort_state)
  : quicksort_state :=
  match fuel with
  | O => st
  | S f =>
      if (SMALL_QUICKSORT <? qs_pr st - qs_pl st)%nat
      then partitions f v (partition v st)
      else st
  end.

(** The [while (1)] loop: sort the partition at hand, then pop the next
    one, until the stack is empty. *)
Fixpoint aquicksort_loop (fuel : nat) (v : list Z) (st : quicksort_state)
  : list nat :=
  match fuel with
  | O => tosort st
  | S f =>
      let st :=
        if cdepth st <? 0
        then mk_qs (aheapsort v (qs_pl st) (qs_pr st - qs_pl st + 1) (tosort st))
                   (qs_pl st) (qs_pr st) (stack st) (depth st) (cdepth st)
        else
          let st := partitions (List.length v) v st in
          mk_qs (insertion v (qs_pl st) (qs_pr st) (tosort st))
                (qs_pl st) (qs_pr st) (stack st) (depth st) (cdepth st) in
      match stack st, depth st with
      | (pl, pr) :: stack, cdepth :: depth =>
          aquicksort_loop f v (mk_qs (tosort st) pl pr stack depth cdepth)
      | _, _ => tosort st
      end
  end.

(** Every turn of the loop ends a partition, and a partition holds an
    entry no other does, so there are at most [n] turns. *)
Definition argsort_quicksort (keys : list Z) : list nat :=
  let n := List.length keys in
  match n with
  | O => []
  | S m =>
      aquicksort_loop (S n) keys
        (mk_qs (seq 0 n) 0 m [] [] (2 * Z.log2 (Z.of_nat n)))
  end.

Definition env : PyEnv := {|
  fromisoformat := datetime_fromisoformat;
  ZoneInfo := Some zoneinfo;
  float_of_str := float_of_string;
  str_of_float := float_repr;
  pl := Some decode;
  argsort := argsort_stable
|}.

(** The same interpreter without the optional imports: [ZoneInfo] and
    [pl] are [None]. *)
Definition env_bare : PyEnv := {|
  fromisoformat := datetime_fromisoformat;
  ZoneInfo := None;
  float_of_str := float_of_string;
  str_of_float := float_repr;
  pl := None;
  argsort := argsort_stable
|}.

(** The same interpreter with numpy's quicksort for frames of any
    length; up to [SMALL_QUICKSORT + 1] rows it is the insertion sort
    of [env]. *)
Definition env_numpy : PyEnv := {|
  fromisoformat := datetime_fromisoformat;
  ZoneInfo := Some zoneinfo;
  float_of_str := float_of_string;
  str_of_float := float_repr;
  pl := Some decode;
  argsort := argsort_quicksort
|}.

End Cpython.

(** ** Vocabulary of the statements *)

Section Vocabulary.

Context {env : PyEnv}.

(** A malformed timestamp is a non-empty string [fromisoformat] rejects. *)
Definition malformed (s : string) : Prop :=
  s <> EmptyString /\ fromisoformat (str_replace "Z" "+00:00" s) = None.

(** The first active period of an alert covers [now]: it has a start, at
    or before [now], and no end or an end after [now]. *)
Definition period_covers (now : instant) (start_time end_time : option instant)
  : Prop :=
  exists st, start_time = Some st /\ st <= now /\
             (end_time = None \/ exists en, end_time = Some en /\ now < en).

(** How a row of [parse_alerts] relates to its alert when the alert has
    a non-empty list of active periods: the columns Start Time and End
    Time are the parsed start and end of the first period, and Status is
    Active when that period covers [now], Inactive when it does not. *)
Definition first_period_rule (now : instant) (item : json) (row : alert_row)
  : Prop :=
  forall attrs first rest,
    vget item "attributes" (JDict []) = Ok attrs ->
    vget attrs "active_period" JNull = Ok (JList (first :: rest)) ->
    exists start_str end_str,
      vget first "start" JNull = Ok start_str /\
      vget first "end" JNull = Ok end_str /\
      _parse_iso start_str = Ok (Start_Time row) /\
      _parse_iso end_str = Ok (End_Time row) /\
      (period_covers now (Start_Time row) (End_Time row) ->
       Status row = Active) /\
      (~ period_covers now (Start_Time row) (End_Time row) ->
       Status row = Inactive).

(** The Current Stop column for a vehicle id: the name in the map, or
    the sentinel. *)
Definition stop_label (vehicle_to_stop : pymap json json) (v : json) : json :=
  match current_stop_of vehicle_to_stop v with
  | Ok name => name
  | Raise _ => JStr "Unknown"
  end.

(** The row of the arrivals frames made from a raw arrival. *)
Definition arrival_view (vehicle_to_stop : pymap json json) (r : arrival_raw)
  : arrival_row :=
  mk_arrival (stop_label vehicle_to_stop (vehicle_id r))
             (Scheduled_Arrival_Time r) (Actual_Estimated_Arrival_Time r)
             (arrival_Status r).

(** The raw arrivals whose best-available arrival instant lies in
    [now, now + minutes], both ends included. *)
Definition within (minutes : Z) (now : instant) (raw : list arrival_raw)
  : list arrival_raw :=
  filter (fun r => in_window now (now + timedelta_minutes minutes)
                             (arrival_time_dt r)) raw.

(** The record [item] carries a malformed timestamp string in field [k]
    of its attributes. *)
Definition malformed_field (item : json) (k : string) : Prop :=
  exists attrs s,
    vget item "attributes" (JDict []) = Ok attrs /\
    vget attrs k JNull = Ok (JStr s) /\ malformed s.

(** The alert [item] carries a malformed start or end in its first
    active period. *)
Definition malformed_period (item : json) : Prop :=
  exists attrs first rest k s,
    vget item "attributes" (JDict []) = Ok attrs /\
    vget attrs "active_period" JNull = Ok (JList (first :: rest)) /\
    (k = "start"%string \/ k = "end"%string) /\
    vget first k JNull = Ok (JStr s) /\ malformed s.

(** The prediction [item] references a vehicle and the timestamp the
    merger reads from it, [arrival_time or departure_time], is
    malformed. *)
Definition malformed_expected (item : json) : Prop :=
  exists attrs rels vid pred_arr pred_dep s,
    vget item "attributes" (JDict []) = Ok attrs /\
    vget item "relationships" (JDict []) = Ok rels /\
    rel_id rels "vehicle" = Ok vid /\ truthy vid = true /\
    vget attrs "arrival_time" JNull = Ok pred_arr /\
    vget attrs "departure_time" JNull = Ok pred_dep /\
    por pred_arr pred_dep = JStr s /\ malformed s.

(** Ascending order of sort keys with the missing ones last. *)
Definition time_le (a b : option instant) : Prop :=
  match a, b with
  | _, None => True
  | None, Some _ => False
  | Some x, Some y => x <= y
  end.

(** The best-available departure instant of a row of the frame
    [parse_departures] returns: the estimate, else the schedule. *)
Definition best_time (r : departure_out) : option instant :=
  oor (out_Actual_Estimated_Departure_Time r) (out_Scheduled_Departure_Time r).

(** What the documentation of [numpy.argsort] promises for every kind
    of sort: the result lists each position once, keys ascending. *)
Definition argsort_ok : Prop :=
  forall keys,
    Permutation (argsort keys) (seq 0 (List.length keys)) /\
    StronglySorted (fun i j => nth i keys 0 <= nth j keys 0) (argsort keys).

(** The rows [parse_departures] appends, in input order, before it
    sorts them. *)
Definition emitted_departures (predictions_response : dict)
  : result (list departure_row) :=
  if truthy (dget predictions_response "error" JNull) then Ok []
  else
    included <- _build_included_lookup
                  (dget predictions_response "included" (JList [])) ;;
    data <- iter (dget predictions_response "data" (JList [])) ;;
    for_rows (departure_body included) data.

(** The prediction [item] references vehicle [vid] and resolves to the
    future instant [t]: its vehicle id is truthy, and its arrival time,
    else its departure time, parses to [t], not before [now]. *)
Definition future_prediction (now : instant) (item vid : json) (t : instant)
  : Prop :=
  exists attrs rels pred_arr pred_dep,
    vget item "attributes" (JDict []) = Ok attrs /\
    vget item "relationships" (JDict []) = Ok rels /\
    rel_id rels "vehicle" = Ok vid /\ truthy vid = true /\
    vget attrs "arrival_time" JNull = Ok pred_arr /\
    vget attrs "departure_time" JNull = Ok pred_dep /\
    _parse_iso (por pred_arr pred_dep) = Ok (Some t) /\
    now <= t.

End Vocabulary.

(** ** Sample payloads *)

Module Sample.

Definition obj (d : dict) : json := JDict d.

(** 2024-01-01T13:00:00Z *)
Definition now : instant := Cpython.wall_of 2024 1 1 13 0 0 0.

Definition period (start_ end_ : json) : json :=
  obj [("start"%string, start_); ("end"%string, end_)].

Definition alert (severity : Z) (header : string) (periods : list json) : json :=
  obj [("type"%string, JStr "alert");
       ("attributes"%string,
        obj [("severity"%string, JInt severity);
             ("header"%string, JStr header);
             ("active_period"%string, JList periods)])].

(** An alert whose first period is over and whose second period covers
    [now]; one whose only period has a malformed start. *)
Definition alert_second_period : json :=
  alert 2 "Shuttle buses"
        [period (JStr "2023-01-01T00:00:00-05:00") (JStr "2023-06-01T00:00:00-05:00");
         period (JStr "2023-12-31T00:00:00-05:00") JNull].

Definition alert_open_ended : json :=
  alert 1 "Elevator closed" [period (JStr "2023-12-31T00:00:00-05:00") JNull].

Definition alert_malformed : json :=
  alert 3 "Delays" [period (JStr "yesterday") JNull].

Definition alerts (items : list json) : dict := [("data"%string, JList items)].

(** A relationship pointing at resource [id] of type [ty]. *)
Definition ref (ty id : string) : json :=
  obj [("data"%string, obj [("type"%string, JStr ty); ("id"%string, JStr id)])].

Definition no_ref : json := obj [("data"%string, JNull)].

(** A prediction at a stop: direction, predicted arrival and departure,
    and the vehicle, schedule, trip and stop it points at. *)
Definition prediction (id : string) (direction_id : Z) (arrival departure : json)
           (vehicle schedule trip stop : json) : json :=
  obj [("type"%string, JStr "prediction"); ("id"%string, JStr id);
       ("attributes"%string,
        obj [("direction_id"%string, JInt direction_id);
             ("arrival_time"%string, arrival);
             ("departure_time"%string, departure)]);
       ("relationships"%string,
        obj [("vehicle"%string, vehicle); ("schedule"%string, schedule);
             ("trip"%string, trip); ("stop"%string, stop)])].

Definition schedule (id : string) (arrival departure : json) : json :=
  obj [("type"%string, JStr "schedule"); ("id"%string, JStr id);
       ("attributes"%string,
        obj [("arrival_time"%string, arrival);
             ("departure_time"%string, departure)])].

Definition trip (id headsign : string) : json :=
  obj [("type"%string, JStr "trip"); ("id"%string, JStr id);
       ("attributes"%string, obj [("headsign"%string, JStr headsign)])].

Definition stop (id name : string) : json :=
  obj [("type"%string, JStr "stop"); ("id"%string, JStr id);
       ("attributes"%string, obj [("name"%string, JStr name)])].

Definition vehicle (id : string) (latitude longitude : json) (at_stop : json)
  : json :=
  obj [("type"%string, JStr "vehicle"); ("id"%string, JStr id);
       ("attributes"%string,
        obj [("latitude"%string, latitude); ("longitude"%string, longitude)]);
       ("relationships"%string, obj [("stop"%string, at_stop)])].

Definition payload (data included : list json) : dict :=
  [("data"%string, JList data); ("included"%string, JList included)].

(** Departures from Alewife (direction 0): two trains leaving at 13:07
    and one at 13:03; the first is scheduled for 13:04. *)
Definition dep_ashmont_0707 : json :=
  prediction "dA" 0 JNull (JStr "2024-01-01T13:07:00Z")
             (ref "vehicle" "R-1") (ref "schedule" "sA") (ref "trip" "tA") no_ref.

Definition dep_braintree_0707 : json :=
  prediction "dB" 0 JNull (JStr "2024-01-01T08:07:00-05:00")
             (ref "vehicle" "R-2") no_ref (ref "trip" "tB") no_ref.

Definition dep_ashmont_0703 : json :=
  prediction "dC" 0 JNull (JStr "2024-01-01T13:03:00Z")
             (ref "vehicle" "R-3") no_ref (ref "trip" "tA") no_ref.

(** A departure whose predicted time is not a timestamp. *)
Definition dep_malformed : json :=
  prediction "dX" 0 JNull (JStr "not-a-time")
             (ref "vehicle" "R-4") no_ref (ref "trip" "tB") no_ref.

Definition dep_included : list json :=
  [schedule "sA" JNull (JStr "2024-01-01T08:04:00");
   trip "tA" "Ashmont"; trip "tB" "Braintree"].

Definition departures : dict :=
  payload [dep_ashmont_0707; dep_braintree_0707; dep_ashmont_0703] dep_included.

Definition departures_one_malformed : dict :=
  payload [dep_ashmont_0707; dep_malformed; dep_ashmont_0703] dep_included.

(** An inbound prediction with a malformed arrival time among two good
    ones. *)
Definition arrivals_one_malformed : dict :=
  payload
    [prediction "p05" 1 (JStr "2024-01-01T13:05:00Z") JNull
                (ref "vehicle" "R-1") no_ref no_ref no_ref;
     prediction "pX" 1 (JStr "13:07") JNull
                (ref "vehicle" "R-2") no_ref no_ref no_ref;
     prediction "p10" 1 (JStr "2024-01-01T13:10:00Z") JNull
                (ref "vehicle" "R-3") no_ref no_ref no_ref]
    [].

(** Predictions along the line for the map: vehicle R-1 is expected at
    Davis in 12 minutes and at Porter in 5, left Harvard 3 minutes ago,
    and has one prediction with no time at all; vehicle R-2 has only a
    prediction in the past. *)
Definition all_stops : dict :=
  payload
    [prediction "n12" 1 (JStr "2024-01-01T13:12:00Z") JNull
                (ref "vehicle" "R-1") no_ref no_ref (ref "stop" "70063");
     prediction "n05" 1 (JStr "2024-01-01T08:05:00-05:00") JNull
                (ref "vehicle" "R-1") (ref "schedule" "s05") no_ref
                (ref "stop" "70065");
     prediction "past" 1 JNull (JStr "2024-01-01T12:57:00Z")
                (ref "vehicle" "R-1") no_ref no_ref (ref "stop" "70067");
     prediction "none" 1 JNull JNull
                (ref "vehicle" "R-1") no_ref no_ref (ref "stop" "70069");
     prediction "gone" 0 (JStr "2024-01-01T12:30:00Z") JNull
                (ref "vehicle" "R-2") no_ref no_ref (ref "stop" "70063")]
    [stop "70063" "Davis"; stop "70065" "Porter"; stop "70067" "Harvard";
     schedule "s05" (JStr "2024-01-01T08:03:30") JNull].

Definition shape (attributes : dict) : json :=
  obj [("type"%string, JStr "shape"); ("attributes"%string, obj attributes)].

Definition point (latitude longitude : json) : json :=
  obj [("lat"%string, latitude); ("lon"%string, longitude)].

(** A three-point encoded polyline, a two-point list of points, a
    polyline cut short in the middle of a number, and a shape with
    neither encoding. *)
Definition shape_polyline : json :=
  shape [("polyline"%string, JStr "_p~iF~ps|U_ulLnnqC_mqNvxq`@")].

Definition shape_points : json :=
  shape [("points"%string,
          JList [point (JFloat (4239 # 100)) (JFloat (-7112 # 100));
                 point (JStr "42.36") (JStr "-71.1")])].

Definition shape_truncated : json :=
  shape [("polyline"%string, JStr "_p~iF~ps|U_ulLnnqC_mqNvxq`")].

Definition shape_empty : json := shape [].

(** A list of points one of whose latitudes is not a number. *)
Definition shape_bad_point : json :=
  shape [("points"%string,
          JList [point (JFloat (4239 # 100)) (JFloat (-7112 # 100));
                 point (JStr "abc") (JStr "-71.1")])].

Definition shapes (items : list json) : dict := [("data"%string, JList items)].

(** Arrivals at Alewife (direction 1) 5 minutes, exactly 10 minutes,
    10.01 minutes and exactly 60 minutes after [now]. *)
Definition arrivals : dict :=
  payload
    [prediction "p05" 1 (JStr "2024-01-01T13:05:00Z") JNull
                (ref "vehicle" "R-1") no_ref no_ref no_ref;
     prediction "p10" 1 (JStr "2024-01-01T13:10:00Z") JNull
                (ref "vehicle" "R-2") no_ref no_ref no_ref;
     prediction "p1001" 1 (JStr "2024-01-01T13:10:00.600Z") JNull
                (ref "vehicle" "R-3") no_ref no_ref no_ref;
     prediction "p60" 1 (JStr "2024-01-01T14:00:00Z") JNull
                no_ref no_ref no_ref no_ref]
    [].

Definition vehicles : dict :=
  payload
    [vehicle "R-1" (JFloat (4239 # 100)) (JFloat (-7112 # 100)) (ref "stop" "70063");
     vehicle "R-2" (JStr "42.36") (JStr "-71.1") (ref "stop" "70065");
     vehicle "R-3" (JInt 42) (JInt (-71)) no_ref]
    [stop "70063" "Davis"; stop "70065" "Porter"].

End Sample.

(** ** More vocabulary *)

Section MoreVocabulary.

Context {env : PyEnv}.

(** The [(type, id)] key under which [_build_included_lookup] files a
    resource. *)
Definition resource_key (inc : json) : json * json :=
  match inc with
  | JDict d => (dget d "type" JNull, dget d "id" JNull)
  | _ => (JNull, JNull)
  end.

(** The last resource of [incs] filed under a key equal to [k]. *)
Definition last_resource (k : json * json) (incs : list json) : option json :=
  find (fun inc => tuple_eqb k (resource_key inc)) (rev incs).

(** The stop id a vehicle resource points at, as [_vehicle_to_stop_map]
    reads it. *)
Definition vehicle_stop_id (item : json) : result json :=
  r <- vget item "relationships" JNull ;;
  s <- vget (por r (JDict [])) "stop" (JDict []) ;;
  stop_ref <- vget s "data" JNull ;;
  Ok (match stop_ref with
      | JDict d => dget d "id" JNull
      | _ => JNull
      end).

(** The entries [parse_merged_shapes_by_route] makes of one route. *)
Definition route_entry (entry : string * dict) : list (string * segment) :=
  if truthy (dget (snd entry) "error" JNull) then []
  else match parse_route_shapes_merged (snd entry) with
       | Ok (Some merged) => [(fst entry, merged)]
       | _ => []
       end.

End MoreVocabulary.

(** ** More sample payloads *)

Module MoreSamples.

(** Included resources in which stop 70063 appears twice. *)
Definition renamed_stops : list json :=
  [Sample.stop "70063" "Davis"; Sample.stop "70065" "Porter";
   Sample.stop "70063" "Davis Square"].

(** A departure whose schedule relationship names a schedule that the
    payload does not include, among departures that resolve. *)
Definition dep_dangling_schedule : json :=
  Sample.prediction "dD" 0 JNull (JStr "2024-01-01T13:09:00Z")
                    (Sample.ref "vehicle" "R-5") (Sample.ref "schedule" "sZ")
                    (Sample.ref "trip" "tA") Sample.no_ref.

Definition departures_dangling : dict :=
  Sample.payload [Sample.dep_ashmont_0707; dep_dangling_schedule]
                 Sample.dep_included.

(** An outbound train known only from its schedule, and an inbound one
    whose direction arrives as the string 1. *)
Definition dep_scheduled_only : json :=
  Sample.prediction "dS" 0 JNull JNull
                    (Sample.ref "vehicle" "R-6") (Sample.ref "schedule" "sA")
                    (Sample.ref "trip" "tA") Sample.no_ref.

Definition arr_string_direction : json :=
  Sample.obj
    [("type"%string, JStr "prediction"); ("id"%string, JStr "aS");
     ("attributes"%string,
      Sample.obj [("direction_id"%string, JStr "1");
                  ("arrival_time"%string, JStr "2024-01-01T13:06:00Z")]);
     ("relationships"%string, Sample.obj [])].

Definition mixed_directions : dict :=
  Sample.payload [dep_scheduled_only; arr_string_direction; Sample.dep_ashmont_0703]
                 Sample.dep_included.

(** A shape whose polyline is cut short but whose points are fine. *)
Definition shape_both : json :=
  Sample.shape
    [("polyline"%string, JStr "_p~iF~ps|U_ulLnnqC_mqNvxq`");
     ("points"%string,
      JList [Sample.point (JFloat (4239 # 100)) (JFloat (-7112 # 100))])].

Definition routes : list (string * dict) :=
  [("Red"%string, Sample.shapes [Sample.shape_points; Sample.shape_polyline]);
   ("Blue"%string, [("error"%string, JBool true)]);
   ("Orange"%string, Sample.shapes [Sample.shape_truncated; Sample.shape_empty]);
   ("Green-B"%string, Sample.shapes [Sample.shape_points])].

(** Two alerts: one with a long description and no active period, one
    with only a header. *)
Definition long_text : string :=
  "Shuttle buses replace Red Line service between Alewife and Harvard. Shuttle buses replace Red Line service between Alewife and Harvard. Shuttle buses replace Red Line service between Alewife and Harvard. Allow extra time.".

Definition alert_long : json :=
  Sample.obj [("attributes"%string,
               Sample.obj [("severity"%string, JInt 7);
                           ("description"%string, JStr long_text);
                           ("header"%string, JStr "Shuttle buses")])].

(** Seventeen departures from Alewife predicted for the same minute,
    each on a trip of its own named after a letter. *)
Definition tie_names : list string :=
  ["A"; "B"; "C"; "D"; "E"; "F"; "G"; "H"; "I"; "J"; "K"; "L"; "M"; "N"; "O";
   "P"; "Q"]%string.

Definition tie_departure (name : string) : json :=
  Sample.prediction name 0 JNull (JStr "2024-01-01T13:07:00Z")
                    Sample.no_ref Sample.no_ref (Sample.ref "trip" name)
                    Sample.no_ref.

Definition departures_17_ties : dict :=
  Sample.payload (map tie_departure tie_names)
                 (map (fun name => Sample.trip name name) tie_names).

(** The row of the departures frame for such a departure. *)
Definition tie_row (name : string) : departure_out :=
  mk_departure_out (JStr name) None
                   (Some (Cpython.wall_of 2024 1 1 13 7 0 0)) On_Time.

End MoreSamples.

(** ** The enriched vehicle list

    [parse_vehicles_for_map_enriched] makes three library calls the
    other functions do not: [==] on arbitrary values, [astimezone] from
    UTC to a zone, and [round(x, 1)]. *)

(** [a == b] on JSON values: lists compare element by element, dicts
    binding by binding, anything else as [key_eqb]. *)
Fixpoint py_eq (a b : json) {struct a} : bool :=
  match a, b with
  | JList l1, JList l2 =>
      (fix all2 (l1 l2 : list json) {struct l1} : bool :=
         match l1, l2 with
         | [], [] => true
         | x :: xs, y :: ys => py_eq x y && all2 xs ys
         | _, _ => false
         end) l1 l2
  | JDict d1, JDict d2 =>
      (fix sub (d : list (string * json)) (seen : list string) {struct d} : bool :=
         match d with
         | [] => true
         | (k, v) :: rest =>
             (if existsb (String.eqb k) seen then true
              else match lookup k d2 with
                   | Some v' => py_eq v v'
                   | None => false
                   end)
             && sub rest (k :: seen)
         end) d1 []
      && forallb (fun kv => is_some (lookup (fst kv) d1)) d2
  | JList _, _ | JDict _, _ | _, JList _ | _, JDict _ => false
  | _, _ => key_eqb a b
  end.

Class PyHover : Type := {
  (** [ZoneInfo(key).fromutc]: the UTC offset, in microseconds, in force
      in the zone at a UTC reading. *)
  fromutc : string -> instant -> Z;
  (** [round(x, 1)] on a float. *)
  round1 : Q -> Q
}.

Definition two_digits (n : Z) : string :=
  String (ascii_of_nat (Z.to_nat (48 + n / 10)))
         (String (ascii_of_nat (Z.to_nat (48 + n mod 10))) EmptyString).

(** [dt.strftime("%H:%M")] for the wall-clock reading [w]. *)
Definition strftime_HM (w : Z) : string :=
  (two_digits ((w / (3600 * 1000000)) mod 24) ++ ":"
   ++ two_digits ((w / (60 * 1000000)) mod 60))%string.

(** The placeholder of the hover text, an em dash (here its UTF-8
    bytes; it is only ever passed on and compared). *)
Definition DASH : string := "—".

Definition Southbound : string := "Southbound".
Definition Northbound : string := "Northbound".

Section Enriched.

Context {env : PyEnv} {hover : PyHover}.

Record enriched_vehicle : Type := mk_enriched {
  (** [**v] *)
  base : vehicle_position;
  destination : json;
  direction : string;
  next_stop_name : json;
  next_stop_time_expected : string;
  hover_minutes_behind : option Q
}.

(** [next((x for x in data if x.get("id") == vid), None)] *)
Fixpoint first_with_id (data : list json) (vid : json) : result (option json) :=
  match data with
  | [] => Ok None
  | x :: rest =>
      id <- vget x "id" JNull ;;
      if py_eq id vid then Ok (Some x) else first_with_id rest vid
  end.

(** Destination and direction of the trip a vehicle resource points at;
    both stay at the placeholder unless the trip is among the included
    resources. *)
Definition trip_labels (included : pymap (json * json) json) (item : json)
  : result (json * string) :=
  r <- vget item "relationships" JNull ;;
  t <- vget (por r (JDict [])) "trip" (JDict []) ;;
  trip_ref <- vget t "data" JNull ;;
  let trip_id := match trip_ref with
                 | JDict d => dget d "id" JNull
                 | _ => JNull
                 end in
  if truthy trip_id then
    trip <- included_get included "trip" trip_id ;;
    if truthy trip then
      a <- vget trip "attributes" JNull ;;
      let attrs := por a (JDict []) in
      h <- vget attrs "headsign" (JStr DASH) ;;
      let destination := por h (JStr DASH) in
      did <- vget attrs "direction_id" JNull ;;
      let direction :=
        if is_none did then DASH
        else if py_eq did (JInt 0) then Southbound else Northbound in
      Ok (destination, direction)
    else Ok (JStr DASH, DASH)
  else Ok (JStr DASH, DASH).

(** The clock reading shown for an expected instant: local to the zone
    when [ZoneInfo] was imported, UTC otherwise. *)
Definition expected_clock (t : instant) : result string :=
  match ZoneInfo with
  | Some _ =>
      let w := t + fromutc MBTA_TZ t in
      if (0 <=? w) && (w <? MAXWALL) then Ok (strftime_HM w)
      else Raise OverflowError
  | None => Ok (strftime_HM t)
  end.

(** The body of the loop of [parse_vehicles_for_map_enriched]. *)
Definition enriched_body (vehicles_response : dict)
           (included : pymap (json * json) json)
           (next_stop : pymap json next_stop) (v : vehicle_position)
  : result (option enriched_vehicle) :=
  let vid := position_vehicle_id v in
  data <- iter (por (dget vehicles_response "data" JNull) (JList [])) ;;
  item <- first_with_id data vid ;;
  labels <- match item with
            | Some item =>
                if truthy item then trip_labels included item
                else Ok (JStr DASH, DASH)
            | None => Ok (JStr DASH, DASH)
            end ;;
  if hashable vid then
    let ns := pm_get key_eqb vid next_stop in
    let next_stop_name :=
      match ns with
      | Some e => por (stop_name e) (JStr DASH)
      | None => JStr DASH
      end in
    next_stop_time_expected <-
      match ns with
      | Some e => expected_clock (expected_time e)
      | None => Ok DASH
      end ;;
    let minutes_behind :=
      match ns with
      | Some e => option_map round1 (minutes_behind e)
      | None => None
      end in
    Ok (Some (mk_enriched v (fst labels) (snd labels) next_stop_name
                          next_stop_time_expected minutes_behind))
  else Raise TypeError.

(** [predictions_all_stops_response] is a dict or [None]. *)
Definition parse_vehicles_for_map_enriched (now : instant)
           (vehicles_response : dict)
           (predictions_all_stops_response : option dict)
  : result (list enriched_vehicle) :=
  base_list <- parse_vehicles_for_map vehicles_response ;;
  match base_list with
  | [] => Ok []
  | _ =>
      next_stop <- _next_stop_by_vehicle now
                     (match predictions_all_stops_response with
                      | Some p => p
                      | None => []
                      end) ;;
      included <- _build_included_lookup
                    (if negb (truthy (dget vehicles_response "error" JNull))
                     then dget vehicles_response "included" (JList [])
                     else JList []) ;;
      for_rows (enriched_body vehicles_response included next_stop) base_list
  end.

End Enriched.

(** The remaining library calls for the worked examples: New York's
    offset at a UTC reading under the rule in force since 2007, daylight
    time from 07:00 UTC on the second Sunday of March up to 06:00 UTC on
    the first Sunday of November; and rounding to the nearest tenth, ties
    to even, which is [round(x, 1)] on a float that is this rational
    exactly. *)
Module CpythonHover.

Definition new_york_utc (u : Z) : Z :=
  let y := Cpython.year_of_ord (u / Cpython.DAY_US + 1) in
  let dst_start := (Cpython.sunday_from y 3 8 - 1) * Cpython.DAY_US
                   + 7 * Cpython.HOUR_US in
  let dst_end := (Cpython.sunday_from y 11 1 - 1) * Cpython.DAY_US
                 + 6 * Cpython.HOUR_US in
  if (dst_start <=? u) && (u <? dst_end) then - 4 * Cpython.HOUR_US
  else - 5 * Cpython.HOUR_US.

Definition zone_fromutc (key : string) (u : Z) : Z :=
  if String.eqb key "America/New_York" then new_york_utc u else 0.

Definition round_tenths (q : Q) : Q :=
  let n := 10 * Qnum q in
  let d := Z.pos (Qden q) in
  let fl := n / d in
  let r := n mod d in
  let k := if 2 * r <? d then fl
           else if d <? 2 * r then fl + 1
           else if Z.even fl then fl else fl + 1 in
  Qred (k # 10).

Definition hover : PyHover := {|
  fromutc := zone_fromutc;
  round1 := round_tenths
|}.

End CpythonHover.

Module HoverSamples.

(** Three trains, two of them on included trips, and one record without
    coordinates. *)
Definition train (id : string) (trip : json) : json :=
  Sample.obj [("type"%string, JStr "vehicle"); ("id"%string, JStr id);
              ("attributes"%string,
               Sample.obj [("latitude"%string, JFloat (4239 # 100));
                           ("longitude"%string, JFloat (-7112 # 100));
                           ("bearing"%string, JInt 135)]);
              ("relationships"%string, Sample.obj [("trip"%string, trip)])].

Definition heading (id headsign : string) (direction_id : json) : json :=
  Sample.obj [("type"%string, JStr "trip"); ("id"%string, JStr id);
              ("attributes"%string,
               Sample.obj [("headsign"%string, JStr headsign);
                           ("direction_id"%string, direction_id)])].

Definition trains : dict :=
  Sample.payload
    [train "R-1" (Sample.ref "trip" "tA");
     Sample.vehicle "R-9" JNull JNull Sample.no_ref;
     train "R-2" (Sample.ref "trip" "tB");
     train "R-3" Sample.no_ref]
    [heading "tA" "Ashmont" (JInt 0); heading "tB" "Alewife" (JInt 1)].

(** A train whose id is a list. *)
Definition trains_odd_id : dict :=
  Sample.payload
    [Sample.obj [("id"%string, JList [JInt 1]);
                 ("attributes"%string,
                  Sample.obj [("latitude"%string, JInt 42);
                              ("longitude"%string, JInt (-71))])]]
    [].

(** The hover entries of [trains] against the predictions of
    [Sample.all_stops], and against none. *)
Definition at_4239_7112 (id : string) : vehicle_position :=
  mk_vehicle (4239 # 100) (-7112 # 100) (Some (135 # 1)) (JStr id).

Definition enriched_trains : list enriched_vehicle :=
  [mk_enriched (at_4239_7112 "R-1") (JStr "Ashmont") Southbound
               (JStr "Porter") "08:05" (Some (3 # 2));
   mk_enriched (at_4239_7112 "R-2") (JStr "Alewife") Northbound
               (JStr DASH) DASH None;
   mk_enriched (at_4239_7112 "R-3") (JStr DASH) DASH (JStr DASH) DASH None].

Definition plain_trains : list enriched_vehicle :=
  [mk_enriched (at_4239_7112 "R-1") (JStr "Ashmont") Southbound
               (JStr DASH) DASH None;
   mk_enriched (at_4239_7112 "R-2") (JStr "Alewife") Northbound
               (JStr DASH) DASH None;
   mk_enriched (at_4239_7112 "R-3") (JStr DASH) DASH (JStr DASH) DASH None].

End HoverSamples.

(** ** The caller: app.py

    The server function keeps its data in reactive values and refreshes
    them from the five fetches.  A reactive value is a field of
    [app_state]; [v.set(x)] replaces the field and [v()] reads it.  What
    the fetches return and what the clock reads are arguments.  An
    exception leaves the state as the statements before it made it, so a
    run yields the state it reached together with its outcome. *)

(** An entry of [vehicles_map]: a dict of [parse_vehicles_for_map], or
    one of [parse_vehicles_for_map_enriched]. *)
Inductive map_vehicle : Type :=
| Plain (v : vehicle_position)
| Hover (e : enriched_vehicle).

Record app_state : Type := mk_state {
  (** [None] or the message shown in the banner *)
  api_error : json;
  df_alerts : list alert_row;
  df_departures : list departure_out;
  df_near_term : list arrival_row;
  df_future : list arrival_row;
  vehicles_map : list map_vehicle;
  (** display route name to its geometries *)
  shapes_by_route : pymap string (list segment);
  last_api_call_time : option instant;
  skip_next_timer_refresh : bool
}.

(** The reactive values as the module creates them. *)
Definition initial_state : app_state :=
  mk_state JNull [] [] [] [] [] [] None false.

Definition prog (A : Type) : Type := app_state -> app_state * result A.

Definition pbind {A B : Type} (m : prog A) (k : A -> prog B) : prog B :=
  fun st =>
    match m st with
    | (st', Ok a) => k a st'
    | (st', Raise e) => (st', Raise e)
    end.

Notation "x <~ m ;; k" := (pbind m (fun x => k))
  (at level 61, m at next level, right associativity).

Notation "m ;;; k" := (pbind m (fun _ => k))
  (at level 61, right associativity).

(** A call that does not touch the reactive values. *)
Definition call {A : Type} (r : result A) : prog A := fun st => (st, r).

Definition done : prog unit := fun st => (st, Ok tt).

Definition read {A : Type} (field : app_state -> A) : prog A :=
  fun st => (st, Ok (field st)).

Definition api_error_set (v : json) : prog unit :=
  fun st => (mk_state v (df_alerts st) (df_departures st) (df_near_term st)
                      (df_future st) (vehicles_map st) (shapes_by_route st)
                      (last_api_call_time st) (skip_next_timer_refresh st),
             Ok tt).

Definition df_alerts_set (v : list alert_row) : prog unit :=
  fun st => (mk_state (api_error st) v (df_departures st) (df_near_term st)
                      (df_future st) (vehicles_map st) (shapes_by_route st)
                      (last_api_call_time st) (skip_next_timer_refresh st),
             Ok tt).

Definition df_departures_set (v : list departure_out) : prog unit :=
  fun st => (mk_state (api_error st) (df_alerts st) v (df_near_term st)
                      (df_future st) (vehicles_map st) (shapes_by_route st)
                      (last_api_call_time st) (skip_next_timer_refresh st),
             Ok tt).

Definition df_near_term_set (v : list arrival_row) : prog unit :=
  fun st => (mk_state (api_error st) (df_alerts st) (df_departures st) v
                      (df_future st) (vehicles_map st) (shapes_by_route st)
                      (last_api_call_time st) (skip_next_timer_refresh st),
             Ok tt).

Definition df_future_set (v : list arrival_row) : prog unit :=
  fun st => (mk_state (api_error st) (df_alerts st) (df_departures st)
                      (df_near_term st) v (vehicles_map st)
                      (shapes_by_route st) (last_api_call_time st)
                      (skip_next_timer_refresh st),
             Ok tt).

Definition vehicles_map_set (v : list map_vehicle) : prog unit :=
  fun st => (mk_state (api_error st) (df_alerts st) (df_departures st)
                      (df_near_term st) (df_future st) v (shapes_by_route st)
                      (last_api_call_time st) (skip_next_timer_refresh st),
             Ok tt).

Definition shapes_by_route_set (v : pymap string (list segment)) : prog unit :=
  fun st => (mk_state (api_error st) (df_alerts st) (df_departures st)
                      (df_near_term st) (df_future st) (vehicles_map st) v
                      (last_api_call_time st) (skip_next_timer_refresh st),
             Ok tt).

Definition last_api_call_time_set (v : option instant) : prog unit :=
  fun st => (mk_state (api_error st) (df_alerts st) (df_departures st)
                      (df_near_term st) (df_future st) (vehicles_map st)
                      (shapes_by_route st) v (skip_next_timer_refresh st),
             Ok tt).

Definition skip_next_timer_refresh_set (v : bool) : prog unit :=
  fun st => (mk_state (api_error st) (df_alerts st) (df_departures st)
                      (df_near_term st) (df_future st) (vehicles_map st)
                      (shapes_by_route st) (last_api_call_time st) v,
             Ok tt).

(** What the five fetches of one refresh return. *)
Record fetched : Type := mk_fetched {
  alerts_resp : dict;
  predictions_resp : dict;
  vehicles_resp : dict;
  shapes_resp : dict;
  predictions_all_resp : dict
}.

(** The readings of the clock during one refresh, in the order they are
    taken: by [parse_alerts], [parse_near_term_arrivals],
    [parse_future_arrivals], for the time stamp, and by
    [_next_stop_by_vehicle]. *)
Record clock : Type := mk_clock {
  at_alerts : instant;
  at_near_term : instant;
  at_future : instant;
  at_stamp : instant;
  at_next_stop : instant
}.

Definition API_error : json := JStr "API error".

(** Map layer choices: display name to the MBTA route ids of its
    branches. *)
Definition MAP_ROUTE_IDS : pymap string (list string) :=
  [("Red"%string, ["Red"%string]);
   ("Green"%string,
    ["Green-B"%string; "Green-C"%string; "Green-D"%string; "Green-E"%string]);
   ("Blue"%string, ["Blue"%string]);
   ("Orange"%string, ["Orange"%string]);
   ("Silver"%string, ["Silver"%string])].

Section App.

Context {env : PyEnv} {hover : PyHover}.

(** Shared refresh: fetch API, parse, update reactive values. *)
Definition _do_refresh (f : fetched) (c : clock) : prog unit :=
  let err :=
    if truthy (dget (alerts_resp f) "error" JNull)
    then dget (alerts_resp f) "message" API_error
    else if truthy (dget (predictions_resp f) "error" JNull)
    then dget (predictions_resp f) "message" API_error
    else if truthy (dget (vehicles_resp f) "error" JNull)
    then dget (vehicles_resp f) "message" API_error
    else if truthy (dget (shapes_resp f) "error" JNull)
    then dget (shapes_resp f) "message" API_error
    else JNull in
  if truthy err then api_error_set err
  else
    api_error_set JNull ;;;
    alerts <~ call (parse_alerts (at_alerts c) (alerts_resp f)) ;;
    df_alerts_set alerts ;;;
    departures <~ call (parse_departures (predictions_resp f)) ;;
    df_departures_set departures ;;;
    near_term <~ call (parse_near_term_arrivals (at_near_term c)
                         (predictions_resp f) (vehicles_resp f)) ;;
    df_near_term_set near_term ;;;
    future <~ call (parse_future_arrivals (at_future c)
                      (predictions_resp f) (vehicles_resp f)) ;;
    df_future_set future ;;;
    vehicles <~ call (parse_vehicles_for_map (vehicles_resp f)) ;;
    vehicles_map_set (map Plain vehicles) ;;;
    red_shapes <~ call (parse_red_line_shape (shapes_resp f)) ;;
    current <~ read shapes_by_route ;;
    let current :=
      match red_shapes with
      | [] => current
      | _ => pm_set String.eqb "Red"%string red_shapes current
      end in
    shapes_by_route_set current ;;;
    last_api_call_time_set (Some (at_stamp c)) ;;;
    let predictions_all :=
      if truthy (dget (predictions_all_resp f) "error" JNull) then None
      else Some (predictions_all_resp f) in
    enriched <~ call (parse_vehicles_for_map_enriched (at_next_stop c)
                        (vehicles_resp f) predictions_all) ;;
    vehicles_map_set (map Hover enriched).

(** The handler of the Run API query button. *)
Definition _fetch_and_parse (f : fetched) (c : clock) : prog unit :=
  skip_next_timer_refresh_set true ;;;
  _do_refresh f c.

(** The body of the loop over the branches of one layer; [fetch n rid]
    is what the [n]-th call of [fetch_shapes] in this run returns, for
    route [rid]. *)
Definition branch_body (fetch : nat -> string -> dict)
           (acc : nat * list segment) (rid : string)
  : result (nat * list segment) :=
  let (n, all_geoms) := acc in
  if String.eqb rid EmptyString then Ok (n, all_geoms)
  else
    let resp := fetch n rid in
    if truthy (JDict resp) && negb (truthy (dget resp "error" JNull)) then
      geoms <- parse_red_line_shape resp ;;
      Ok (S n, all_geoms ++ geoms)
    else Ok (S n, all_geoms).

(** The body of the loop over the layers to fetch. *)
Definition layer_body (fetch : nat -> string -> dict)
           (acc : nat * pymap string (list segment)) (name : string)
  : result (nat * pymap string (list segment)) :=
  let (n, cache) := acc in
  match pm_get String.eqb name MAP_ROUTE_IDS with
  | None => Raise KeyError
  | Some ids =>
      r <- for_state (branch_body fetch) ids (n, []) ;;
      Ok (fst r,
          match snd r with
          | [] => cache
          | _ => pm_set String.eqb name (snd r) cache
          end)
  end.

(** Fetch shapes for other map layers when first selected;
    [map_routes] is what [input.map_routes()] reads. *)
Definition _fetch_extra_map_layers (fetch : nat -> string -> dict)
           (map_routes : option (list string)) : prog unit :=
  let selected := match map_routes with Some l => l | None => [] end in
  cache <~ read shapes_by_route ;;
  let to_fetch :=
    filter (fun r => negb (is_some (pm_get String.eqb r cache))
                     && is_some (pm_get String.eqb r MAP_ROUTE_IDS))
           selected in
  match to_fetch with
  | [] => done
  | _ =>
      r <~ call (for_state (layer_body fetch) to_fetch (O, cache)) ;;
      shapes_by_route_set (snd r)
  end.

End App.

(** ** Sample runs of the caller *)

Module AppSamples.

(** What [_request] returns for a response with status 429. *)
Definition rate_limited : dict :=
  [("error"%string, JBool true);
   ("message"%string, JStr "API request failed: status 429");
   ("status_code"%string, JInt 429)].

(** Clock readings a second apart, from [Sample.now] on. *)
Definition tick : clock :=
  mk_clock Sample.now (Sample.now + 1000000) (Sample.now + 2000000)
           (Sample.now + 3000000) (Sample.now + 4000000).

(** Five good responses; the same with the predictions rate-limited; and
    the same with a malformed timestamp among the predictions at all
    stops. *)
Definition good : fetched :=
  mk_fetched (Sample.alerts [Sample.alert_open_ended]) Sample.arrivals
             Sample.vehicles (Sample.shapes [Sample.shape_points])
             Sample.all_stops.

Definition limited : fetched :=
  mk_fetched (Sample.alerts [Sample.alert_open_ended]) rate_limited
             Sample.vehicles rate_limited Sample.all_stops.

Definition malformed_enrichment : fetched :=
  mk_fetched (Sample.alerts [Sample.alert_open_ended]) Sample.arrivals
             Sample.vehicles (Sample.shapes [Sample.shape_points])
             Sample.arrivals_one_malformed.

(** A state in which the Red Line is cached, and a network that answers
    for the Blue Line only. *)
Definition red_cached : app_state :=
  mk_state JNull [] [] [] [] []
           [("Red"%string, [([-7112 # 100], [4239 # 100])])] None false.

Definition blue_only (n : nat) (rid : string) : dict :=
  if String.eqb rid "Blue" then Sample.shapes [Sample.shape_points]
  else rate_limited.

End AppSamples.

(** ** Vocabulary of the statements about the caller *)

(** A program leaves a reactive value as it found it. *)
Definition keeps {A B : Type} (field : app_state -> B) (m : prog A) : Prop :=
  forall st, field (fst (m st)) = field st.

(** Two states differ at most in the banner. *)
Definition same_data (st st' : app_state) : Prop :=
  df_alerts st' = df_alerts st /\
  df_departures st' = df_departures st /\
  df_near_term st' = df_near_term st /\
  df_future st' = df_future st /\
  vehicles_map st' = vehicles_map st /\
  shapes_by_route st' = shapes_by_route st /\
  last_api_call_time st' = last_api_call_time st /\
  skip_next_timer_refresh st' = skip_next_timer_refresh st.

(** The four responses a refresh inspects for errors, in that order. *)
Definition inspected (f : fetched) : list dict :=
  [alerts_resp f; predictions_resp f; vehicles_resp f; shapes_resp f].

Definition failed (resp : dict) : bool := truthy (dget resp "error" JNull).

(** * Properties *)

(** ** The error monad and the loops *)

Lemma bind_ok {A B : Type} (m : result A) (k : A -> result B) (b : B) :
  bind m k = Ok b -> exists a, m = Ok a /\ k a = Ok b.
Proof.
  destruct m as [a|e]; simpl; intros H.
  - exists a. split; [reflexivity | exact H].
  - discriminate H.
Qed.

(** Peel the leading bind of a computation known to return. *)
Ltac inv_bind H :=
  let a := fresh "a" in
  let Ha := fresh "Ha" in
  apply bind_ok in H; destruct H as (a & Ha & H).

Tactic Notation "peel" hyp(H) "as" ident(a) ident(Ha) :=
  apply bind_ok in H; destruct H as (a & Ha & H).

Lemma bind_raises_l {A B : Type} (m : result A) (k : A -> result B) :
  raises m -> raises (bind m k).
Proof. intros [e ->]. exists e. reflexivity. Qed.

Lemma bind_raises_r {A B : Type} (m : result A) (k : A -> result B) :
  (forall a, m = Ok a -> raises (k a)) -> raises (bind m k).
Proof.
  intros H. destruct m as [a|e]; simpl.
  - apply H. reflexivity.
  - exists e. reflexivity.
Qed.

Lemma ok_not_raises {A : Type} (m : result A) (a : A) :
  m = Ok a -> ~ raises m.
Proof. intros -> [e H]. discriminate H. Qed.

(** A loop raises as soon as the body raises on one of its items. *)
Lemma for_rows_raises {A B : Type} (body : A -> result (option B)) items x :
  In x items -> raises (body x) -> raises (for_rows body items).
Proof.
  induction items as [|y rest IH]; simpl; intros Hin Hx.
  - contradiction.
  - destruct Hin as [-> | Hin].
    + apply bind_raises_l. exact Hx.
    + apply bind_raises_r. intros r _.
      apply bind_raises_l. apply IH; assumption.
Qed.

(** A loop that returns ran its body on every item, in order. *)
Lemma for_rows_ok {A B : Type} (body : A -> result (option B)) items rows :
  for_rows body items = Ok rows ->
  exists rs, Forall2 (fun x r => body x = Ok r) items rs /\ rows = rows_of rs.
Proof.
  revert rows. induction items as [|x rest IH]; simpl; intros rows H.
  - inversion H. exists []. split; [constructor | reflexivity].
  - peel H as r Hr. peel H as rs' Hrs. inversion H; subst rows.
    destruct (IH rs' Hrs) as (rs & Hall & ->).
    exists (r :: rs). split; [constructor; assumption|].
    destruct r; reflexivity.
Qed.

Lemma for_rows_all_some {A B : Type} (body : A -> result (option B)) items rows :
  (forall x r, body x = Ok r -> exists row, r = Some row) ->
  for_rows body items = Ok rows ->
  Forall2 (fun x row => body x = Ok (Some row)) items rows.
Proof.
  intros Hsome. revert rows. induction items as [|x rest IH]; simpl; intros rows H.
  - inversion H. constructor.
  - peel H as r Hr. peel H as rs Hrs. inversion H; subst rows.
    destruct (Hsome x r Hr) as [row ->].
    constructor; [exact Hr | apply IH; exact Hrs].
Qed.

Lemma for_state_raises {A S : Type} (body : S -> A -> result S) items x :
  In x items -> (forall st, raises (body st x)) ->
  forall st, raises (for_state body items st).
Proof.
  induction items as [|y rest IH]; simpl; intros Hin Hx st.
  - contradiction.
  - destruct Hin as [-> | Hin].
    + apply bind_raises_l. apply Hx.
    + apply bind_raises_r. intros st' _. apply IH; assumption.
Qed.

(** ** Time Normalizer and Status Deriver *)

Section TimeAndStatus.

Context {env : PyEnv}.

Lemma str_replace_app c by_ s t :
  str_replace c by_ (s ++ t) = (str_replace c by_ s ++ str_replace c by_ t)%string.
Proof.
  induction s as [|a s IH]; simpl.
  - reflexivity.
  - destruct (Ascii.eqb a c); rewrite IH; simpl.
    + generalize (str_replace c by_ s) (str_replace c by_ t). clear.
      intros u v. induction by_ as [|b by_ IHb]; simpl; [reflexivity|].
      now rewrite IHb.
    + reflexivity.
Qed.

Lemma truthy_app_nonempty s t :
  t <> EmptyString -> truthy (JStr (s ++ t)) = true.
Proof.
  intros Ht. destruct s; simpl.
  - destruct t; [contradiction | reflexivity].
  - reflexivity.
Qed.

Lemma truthy_str s : s <> EmptyString -> truthy (JStr s) = true.
Proof. destruct s; [contradiction | reflexivity]. Qed.

(** What [_parse_iso] does on a non-empty string the library parses. *)
Lemma parse_iso_str s dt :
  s <> EmptyString ->
  fromisoformat (str_replace "Z" "+00:00" s) = Some dt ->
  _parse_iso (JStr s) =
    match tzinfo dt, ZoneInfo with
    | None, Some zone => astimezone_utc (wall dt) (zone MBTA_TZ (wall dt))
    | None, None => Ok (Some (wall dt))
    | Some off, _ => astimezone_utc (wall dt) off
    end.
Proof.
  intros Hs Hdt. unfold _parse_iso.
  rewrite (truthy_str s Hs). simpl. rewrite Hdt. reflexivity.
Qed.

Lemma parse_iso_malformed s : malformed s -> _parse_iso (JStr s) = Raise ValueError.
Proof.
  intros [Hs Hbad]. unfold _parse_iso.
  rewrite (truthy_str s Hs). simpl. rewrite Hbad. reflexivity.
Qed.

Lemma astimezone_utc_in_range w off :
  0 <= w - off < MAXWALL -> astimezone_utc w off = Ok (Some (w - off)).
Proof.
  intros [H0 H1]. unfold astimezone_utc.
  apply Z.leb_le in H0. apply Z.ltb_lt in H1. now rewrite H0, H1.
Qed.

End TimeAndStatus.

Section StatusDeriver.

Lemma total_seconds_le (a s n : Z) :
  (total_seconds a s <= inject_Z n)%Q <-> a - s <= n * 1000000.
Proof.
  unfold total_seconds, Qle, inject_Z. simpl. lia.
Qed.

Lemma derive_status_both (a s threshold_minutes : Z) :
  _derive_status (Some s) (Some a) threshold_minutes =
    if Qle_bool (total_seconds a s) (inject_Z (threshold_minutes * 60))
    then On_Time else Delayed.
Proof. reflexivity. Qed.

(** C2. With the 2-minute threshold the Status Deriver returns Cancelled
    when the actual instant is null; otherwise On Time when the scheduled
    instant is null; otherwise On Time when actual - scheduled is at most
    120 seconds (every early arrival included) and Delayed when it is
    more. *)
Theorem derive_status_rules (scheduled actual : option instant) :
  (actual = None -> _derive_status scheduled actual 2 = Cancelled) /\
  (forall a, actual = Some a -> scheduled = None ->
             _derive_status scheduled actual 2 = On_Time) /\
  (forall a s, actual = Some a -> scheduled = Some s ->
               (total_seconds a s <= 120)%Q ->
               _derive_status scheduled actual 2 = On_Time) /\
  (forall a s, actual = Some a -> scheduled = Some s -> a <= s ->
               _derive_status scheduled actual 2 = On_Time) /\
  (forall a s, actual = Some a -> scheduled = Some s ->
               (120 < total_seconds a s)%Q ->
               _derive_status scheduled actual 2 = Delayed).
Proof.
  repeat split.
  - intros ->. reflexivity.
  - intros a -> ->. reflexivity.
  - intros a s -> -> Hle. rewrite derive_status_both.
    apply Qle_bool_iff in Hle. change (inject_Z (2 * 60)) with 120%Q.
    now rewrite Hle.
  - intros a s -> -> Hle. rewrite derive_status_both.
    assert (H : (total_seconds a s <= inject_Z 120)%Q)
      by (apply total_seconds_le; lia).
    apply Qle_bool_iff in H. change (inject_Z (2 * 60)) with (inject_Z 120).
    now rewrite H.
  - intros a s -> -> Hlt. rewrite derive_status_both.
    change (inject_Z (2 * 60)) with 120%Q.
    destruct (Qle_bool (total_seconds a s) 120) eqn:E; [|reflexivity].
    apply Qle_bool_iff in E. exfalso. apply (Qlt_not_le _ _ Hlt E).
Qed.

(** The cases the specification lists: T and T, T and T+119s, T and
    T+121s, T and T-60s, and the two null cases. *)
Lemma derive_status_rules_witness :
  _derive_status (Some 1000000000) (Some 1119000000) 2 = On_Time /\
  _derive_status (Some 1000000000) (Some 1121000000) 2 = Delayed /\
  _derive_status (Some 1000000000) (Some 940000000) 2 = On_Time /\
  _derive_status (Some 1000000000) None 2 = Cancelled.
Proof.
  split; [|split; [|split]].
  - destruct (derive_status_rules (Some 1000000000) (Some 1119000000))
      as (_ & _ & H & _).
    apply (H 1119000000 1000000000); [reflexivity | reflexivity | ].
    unfold total_seconds, Qle. simpl. lia.
  - destruct (derive_status_rules (Some 1000000000) (Some 1121000000))
      as (_ & _ & _ & _ & H).
    apply (H 1121000000 1000000000); [reflexivity | reflexivity | ].
    unfold total_seconds, Qlt. simpl. lia.
  - destruct (derive_status_rules (Some 1000000000) (Some 940000000))
      as (_ & _ & _ & H & _).
    apply (H 940000000 1000000000); [reflexivity | reflexivity | lia].
  - destruct (derive_status_rules (Some 1000000000) None) as (H & _).
    apply H. reflexivity.
Defined.

(** C3, as stated, fails: with no scheduled instant and a predicted one
    the Status Deriver answers On Time, which is not Cancelled. *)
Lemma derive_unscheduled_not_cancelled :
  _derive_status None (Some 63839710800000000) 2 = On_Time /\
  On_Time <> Cancelled.
Proof. split; [reflexivity | discriminate]. Qed.

(** C3, amended. Whatever the threshold, the Status Deriver called with
    scheduled = None and a non-null actual instant returns On Time; it
    returns Cancelled exactly when the actual instant is null. *)
Theorem derive_unscheduled_on_time (scheduled : option instant)
        (actual : instant) (threshold_minutes : Z) :
  _derive_status None (Some actual) threshold_minutes = On_Time /\
  _derive_status scheduled None threshold_minutes = Cancelled /\
  _derive_status scheduled (Some actual) threshold_minutes <> Cancelled.
Proof.
  split; [reflexivity | split; [reflexivity |]].
  destruct scheduled as [s|].
  - rewrite derive_status_both. destruct (Qle_bool _ _); discriminate.
  - discriminate.
Qed.

End StatusDeriver.

Section TimeNormalizer.

Context {env : PyEnv}.

(** C4. The Time Normalizer maps a null or empty input to null; reads a
    [Z] suffix as the offset +00:00; on two strings with explicit offsets
    that denote the same absolute instant (wall clock minus offset) it has
    the same outcome, that instant in UTC whenever it lies in the years
    datetime covers; and it reads a naive string as wall-clock time in
    America/New_York and converts it to UTC. *)
Theorem parse_iso_normalises :
  (forall v, truthy v = false -> _parse_iso v = Ok None) /\
  (forall s, _parse_iso (JStr (s ++ "Z")) = _parse_iso (JStr (s ++ "+00:00"))) /\
  (forall s1 s2 d1 d2 o1 o2,
      s1 <> EmptyString -> s2 <> EmptyString ->
      fromisoformat (str_replace "Z" "+00:00" s1) = Some d1 ->
      fromisoformat (str_replace "Z" "+00:00" s2) = Some d2 ->
      tzinfo d1 = Some o1 -> tzinfo d2 = Some o2 ->
      wall d1 - o1 = wall d2 - o2 ->
      _parse_iso (JStr s1) = _parse_iso (JStr s2) /\
      (0 <= wall d1 - o1 < MAXWALL ->
       _parse_iso (JStr s1) = Ok (Some (wall d1 - o1)))) /\
  (forall s d zone,
      s <> EmptyString ->
      ZoneInfo = Some zone ->
      fromisoformat (str_replace "Z" "+00:00" s) = Some d ->
      tzinfo d = None ->
      let offset := zone "America/New_York"%string (wall d) in
      _parse_iso (JStr s) = astimezone_utc (wall d) offset /\
      (0 <= wall d - offset < MAXWALL ->
       _parse_iso (JStr s) = Ok (Some (wall d - offset)))).
Proof.
  split; [|split; [|split]].
  - intros v Hv. unfold _parse_iso. now rewrite Hv.
  - intros s. unfold _parse_iso.
    rewrite !truthy_app_nonempty by discriminate. simpl negb. cbv iota.
    rewrite !str_replace_app. reflexivity.
  - intros s1 s2 d1 d2 o1 o2 Hs1 Hs2 Hd1 Hd2 Ho1 Ho2 Heq.
    rewrite (parse_iso_str s1 d1 Hs1 Hd1), (parse_iso_str s2 d2 Hs2 Hd2).
    rewrite Ho1, Ho2. split.
    + unfold astimezone_utc. now rewrite Heq.
    + apply astimezone_utc_in_range.
  - intros s d zone Hs Hz Hd Hnaive offset.
    rewrite (parse_iso_str s d Hs Hd). rewrite Hnaive, Hz.
    split; [reflexivity|]. apply astimezone_utc_in_range.
Qed.

End TimeNormalizer.

(** The two spellings of 2024-01-01 13:00 UTC of the specification, and a
    naive summer morning read four hours behind UTC. *)
Lemma parse_iso_normalises_witness :
  (_parse_iso (env := Cpython.env) (JStr "2024-01-01T08:00:00-05:00")
   = _parse_iso (env := Cpython.env) (JStr "2024-01-01T13:00:00Z")
   /\ _parse_iso (env := Cpython.env) (JStr "2024-01-01T08:00:00-05:00")
      = Ok (Some (Cpython.wall_of 2024 1 1 13 0 0 0)))
  /\ _parse_iso (env := Cpython.env) (JStr "2024-07-01T08:00:00")
     = Ok (Some (Cpython.wall_of 2024 7 1 12 0 0 0)).
Proof.
  destruct (parse_iso_normalises (env := Cpython.env)) as (_ & _ & Hoff & Hnaive).
  split.
  - assert (H := Hoff "2024-01-01T08:00:00-05:00"%string
                      "2024-01-01T13:00:00Z"%string
                      (mkdt (Cpython.wall_of 2024 1 1 8 0 0 0)
                            (Some (- 5 * Cpython.HOUR_US)))
                      (mkdt (Cpython.wall_of 2024 1 1 13 0 0 0) (Some 0))
                      (- 5 * Cpython.HOUR_US) 0).
    destruct H as [Hsame Hval].
    + discriminate.
    + discriminate.
    + reflexivity.
    + reflexivity.
    + reflexivity.
    + reflexivity.
    + reflexivity.
    + split; [exact Hsame|].
      apply Hval. vm_compute. split; [discriminate | reflexivity].
  - assert (H := Hnaive "2024-07-01T08:00:00"%string
                        (mkdt (Cpython.wall_of 2024 7 1 8 0 0 0) None)
                        Cpython.zoneinfo).
    destruct H as [_ Hval].
    + discriminate.
    + reflexivity.
    + reflexivity.
    + reflexivity.
    + apply Hval. vm_compute. split; [discriminate | reflexivity].
Defined.

Section ErrorFlag.

Context {env : PyEnv}.

(** C5. On a payload whose "error" field is truthy every Record
    Flattener operation returns its empty result and does not raise:
    alerts, departures, raw, near-term and future arrivals, the
    vehicle-to-stop map, vehicle positions, shape segments, the merged
    geometry (null), the per-route merge and the next-stop merger. *)
Theorem error_payload_is_empty (now : instant) (resp other : dict)
        (route_id : string) :
  truthy (dget resp "error" JNull) = true ->
  parse_alerts now resp = Ok [] /\
  parse_departures resp = Ok [] /\
  _parse_arrivals_raw resp = Ok [] /\
  parse_near_term_arrivals now resp other = Ok [] /\
  parse_future_arrivals now resp other = Ok [] /\
  _vehicle_to_stop_map resp = Ok [] /\
  parse_vehicles_for_map resp = Ok [] /\
  parse_red_line_shape resp = Ok [] /\
  parse_route_shapes_merged resp = Ok None /\
  parse_merged_shapes_by_route [(route_id, resp)] = Ok [] /\
  _next_stop_by_vehicle now resp = Ok [].
Proof.
  intros Herr.
  assert (Hraw : _parse_arrivals_raw resp = Ok [])
    by (unfold _parse_arrivals_raw; now rewrite Herr).
  assert (Hshape : parse_red_line_shape resp = Ok [])
    by (unfold parse_red_line_shape; now rewrite Herr).
  repeat split.
  - unfold parse_alerts. now rewrite Herr.
  - unfold parse_departures. now rewrite Herr.
  - exact Hraw.
  - unfold parse_near_term_arrivals. now rewrite Hraw.
  - unfold parse_future_arrivals. now rewrite Hraw.
  - unfold _vehicle_to_stop_map. now rewrite Herr.
  - unfold parse_vehicles_for_map. now rewrite Herr.
  - exact Hshape.
  - unfold parse_route_shapes_merged. now rewrite Hshape.
  - unfold parse_merged_shapes_by_route. simpl. now rewrite Herr.
  - unfold _next_stop_by_vehicle. now rewrite Herr.
Qed.

End ErrorFlag.

(** The payload the client builds on a failed fetch. *)
Lemma error_payload_is_empty_witness :
  let resp := [("error"%string, JBool true);
               ("message"%string, JStr "API request failed: status 500");
               ("status_code"%string, JInt 500)] in
  parse_departures (env := Cpython.env) resp = Ok [] /\
  parse_route_shapes_merged (env := Cpython.env) resp = Ok None.
Proof.
  pose proof (error_payload_is_empty (env := Cpython.env) 0
    [("error"%string, JBool true);
     ("message"%string, JStr "API request failed: status 500");
     ("status_code"%string, JInt 500)] [] "Red" eq_refl) as H.
  cbv zeta. split; apply H.
Defined.

(** ** Alerts *)

Section Alerts.

Context {env : PyEnv}.

Lemma not_ok_raises {A : Type} (m : result A) :
  (forall a, m <> Ok a) -> raises m.
Proof.
  destruct m as [a|e]; intros H.
  - destruct (H a eq_refl).
  - exists e. reflexivity.
Qed.

Lemma alert_active_covers now st en :
  alert_active now st en = true <-> period_covers now st en.
Proof.
  unfold alert_active, period_covers. split.
  - destruct st as [s|]; [|discriminate]. intros H.
    apply andb_true_iff in H. destruct H as [He Hs]. apply Z.leb_le in Hs.
    exists s. split; [reflexivity | split; [exact Hs|]].
    destruct en as [e|]; [right | left; reflexivity].
    exists e. split; [reflexivity | now apply Z.ltb_lt].
  - intros (s & -> & Hs & He). apply andb_true_iff. split.
    + destruct He as [-> | (e & -> & He)]; [reflexivity | now apply Z.ltb_lt].
    + now apply Z.leb_le.
Qed.

Lemma parse_iso_if_truthy v :
  (if truthy v then _parse_iso v else Ok None) = _parse_iso v.
Proof.
  destruct (truthy v) eqn:E; [reflexivity|].
  unfold _parse_iso. now rewrite E.
Qed.

(** What the loop body makes of an alert with a non-empty list of
    active periods: only the first one is read. *)
Lemma alert_body_first_period now item attrs first rest row :
  vget item "attributes" (JDict []) = Ok attrs ->
  vget attrs "active_period" JNull = Ok (JList (first :: rest)) ->
  alert_body now item = Ok (Some row) ->
  exists start_str end_str,
    vget first "start" JNull = Ok start_str /\
    vget first "end" JNull = Ok end_str /\
    _parse_iso start_str = Ok (Start_Time row) /\
    _parse_iso end_str = Ok (End_Time row) /\
    Status row = if alert_active now (Start_Time row) (End_Time row)
                 then Active else Inactive.
Proof.
  intros Hattrs Hap H. unfold alert_body in H.
  rewrite Hattrs in H. simpl bind in H.
  do 5 inv_bind H. rewrite Hap in H. simpl bind in H.
  change (por (JList (first :: rest)) (JList [])) with (JList (first :: rest)) in H.
  simpl truthy in H. cbv iota in H. simpl index0 in H. simpl bind in H.
  peel H as times Htimes. destruct times as [st en].
  peel Htimes as start_str Hstart. peel Htimes as end_str Hend.
  peel Htimes as st' Hst. peel Htimes as en' Hen.
  inversion Htimes; subst st' en'.
  rewrite parse_iso_if_truthy in Hst, Hen.
  simpl fst in H. simpl snd in H.
  peel H as descr Hdescr. inversion H; subst row. simpl.
  exists start_str, end_str. repeat split; assumption || reflexivity.
Qed.

(** The rows of the frame are the rows of the loop body, item by item. *)
Lemma parse_alerts_rows now resp items rows :
  truthy (dget resp "error" JNull) = false ->
  iter (dget resp "data" (JList [])) = Ok items ->
  parse_alerts now resp = Ok rows ->
  Forall2 (fun item row => alert_body now item = Ok (Some row)) items rows.
Proof.
  intros Herr Hdata H. unfold parse_alerts in H.
  rewrite Herr, Hdata in H. simpl bind in H.
  peel H as rows' Hrows.
  assert (rows = rows') by (destruct rows'; inversion H; reflexivity).
  subst rows'. apply for_rows_all_some; [|exact Hrows].
  intros x r Hx. unfold alert_body in Hx.
  repeat inv_bind Hx. inversion Hx. eauto.
Qed.

(** C10. Each row of [parse_alerts] takes its Start/End columns and its
    Status from the first element of active_period only: the row is
    Active exactly when that first period has a start at or before now
    and no end or an end after now, and Inactive otherwise, whatever the
    later periods are. *)
Theorem alert_status_from_first_period now resp items rows :
  truthy (dget resp "error" JNull) = false ->
  iter (dget resp "data" (JList [])) = Ok items ->
  parse_alerts now resp = Ok rows ->
  Forall2 (first_period_rule now) items rows.
Proof.
  intros Herr Hdata H.
  pose proof (parse_alerts_rows now resp items rows Herr Hdata H) as Hrows.
  clear H Hdata. induction Hrows as [|item row items rows Hrow _ IH].
  - constructor.
  - constructor; [|exact IH].
    intros attrs first rest Hattrs Hap.
    destruct (alert_body_first_period now item attrs first rest row
                Hattrs Hap Hrow) as (ss & es & Hs & He & Hps & Hpe & Hst).
    exists ss, es. repeat split; try assumption.
    + intros Hc. apply alert_active_covers in Hc. now rewrite Hst, Hc.
    + intros Hc. rewrite Hst.
      destruct (alert_active now (Start_Time row) (End_Time row)) eqn:E;
        [|reflexivity].
      apply alert_active_covers in E. contradiction.
Qed.

End Alerts.

Lemma alert_status_from_first_period_witness :
  Forall2 (first_period_rule (env := Cpython.env) Sample.now)
    [Sample.alert_second_period; Sample.alert_open_ended]
    [mk_alert "Warning" (JStr "Shuttle buses")
              (Some (Cpython.wall_of 2023 1 1 5 0 0 0))
              (Some (Cpython.wall_of 2023 6 1 5 0 0 0)) Inactive;
     mk_alert "Information" (JStr "Elevator closed")
              (Some (Cpython.wall_of 2023 12 31 5 0 0 0)) None Active].
Proof.
  apply (alert_status_from_first_period (env := Cpython.env) Sample.now
           (Sample.alerts [Sample.alert_second_period; Sample.alert_open_ended])).
  - reflexivity.
  - reflexivity.
  - vm_compute. reflexivity.
Defined.

(** An alert whose second period covers now and whose first is over is
    reported Inactive, with the first period's Start and End. *)
Lemma alert_second_period_inactive :
  parse_alerts (env := Cpython.env) Sample.now
               (Sample.alerts [Sample.alert_second_period; Sample.alert_open_ended])
  = Ok [mk_alert "Warning" (JStr "Shuttle buses")
                 (Some (Cpython.wall_of 2023 1 1 5 0 0 0))
                 (Some (Cpython.wall_of 2023 6 1 5 0 0 0)) Inactive;
        mk_alert "Information" (JStr "Elevator closed")
                 (Some (Cpython.wall_of 2023 12 31 5 0 0 0)) None Active].
Proof. vm_compute. reflexivity. Qed.

(** ** Arrival windows *)

Section ArrivalWindows.

Context {env : PyEnv}.

(** A loop that computes a column, applies a mask and projects: when it
    returns, the column was computed for every row and the result is the
    projection of the rows the mask keeps. *)
Lemma for_rows_mask {A S B : Type} (f : A -> result S) (g : S -> A -> B)
      (d : A -> S) (p : A -> bool) (items : list A) (out : list B) :
  (forall a s, f a = Ok s -> d a = s) ->
  for_rows (fun r => s <- f r ;; Ok (if p r then Some (g s r) else None)) items
  = Ok out ->
  Forall (fun r => returns (f r)) items /\
  out = map (fun r => g (d r) r) (filter p items).
Proof.
  intros Hd. revert out. induction items as [|x rest IH]; simpl; intros out H.
  - inversion H. split; [constructor | reflexivity].
  - peel H as r Hr. peel H as rs Hrs. inversion H; subst out.
    peel Hr as s0 Hs. inversion Hr; subst r.
    destruct (IH rs Hrs) as [Hall ->].
    split; [constructor; [exists s0; exact Hs | exact Hall]|].
    rewrite <- (Hd x s0 Hs). destruct (p x); reflexivity.
Qed.

Lemma for_rows_mask_total {A S B : Type} (f : A -> result S) (g : S -> A -> B)
      (d : A -> S) (p : A -> bool) (items : list A) :
  (forall a s, f a = Ok s -> d a = s) ->
  Forall (fun r => returns (f r)) items ->
  for_rows (fun r => s <- f r ;; Ok (if p r then Some (g s r) else None)) items
  = Ok (map (fun r => g (d r) r) (filter p items)).
Proof.
  intros Hd Hall. induction Hall as [|x rest [s0 Hs] _ IH]; simpl.
  - reflexivity.
  - rewrite Hs. simpl. rewrite IH. simpl.
    rewrite <- (Hd x s0 Hs). destruct (p x); reflexivity.
Qed.

Lemma empty_or_same {B : Type} (out : list B) :
  match out with [] => Ok [] | _ => Ok out end = Ok out.
Proof. destruct out; reflexivity. Qed.

Lemma stop_label_ok vmap v s : current_stop_of vmap v = Ok s -> stop_label vmap v = s.
Proof. unfold stop_label. now intros ->. Qed.

(** What either view returns, stated once for the body the two
    functions share up to the length of the window. *)
Lemma windowed_ok minutes now P V out :
  (raw <- _parse_arrivals_raw P ;;
   match raw with
   | [] => Ok _empty_arrivals_df
   | _ =>
       vehicle_to_stop <- _vehicle_to_stop_map V ;;
       out <- map_and_mask vehicle_to_stop
                (fun r => in_window now (now + timedelta_minutes minutes)
                                    (arrival_time_dt r)) raw ;;
       match out with
       | [] => Ok _empty_arrivals_df
       | _ => Ok out
       end
   end) = Ok out ->
  exists raw vmap,
    _parse_arrivals_raw P = Ok raw /\
    (raw <> [] -> _vehicle_to_stop_map V = Ok vmap) /\
    Forall (fun r => returns (current_stop_of vmap (vehicle_id r))) raw /\
    out = map (arrival_view vmap) (within minutes now raw).
Proof.
  intros H.
  peel H as raw Hraw. destruct raw as [|r0 raw'].
  - inversion H. exists [], []. repeat split; try constructor; try assumption.
    intros Hne. now destruct Hne.
  - peel H as vmap Hvmap. peel H as out' Hout. rewrite empty_or_same in H.
    inversion H; subst out'.
    destruct (for_rows_mask
                (fun r => current_stop_of vmap (vehicle_id r))
                (fun stop r => mk_arrival stop (Scheduled_Arrival_Time r)
                                          (Actual_Estimated_Arrival_Time r)
                                          (arrival_Status r))
                (fun r => stop_label vmap (vehicle_id r))
                (fun r => in_window now (now + timedelta_minutes minutes)
                                    (arrival_time_dt r))
                (r0 :: raw') out) as [Hall Hmap].
    + intros a s0. apply stop_label_ok.
    + exact Hout.
    + exists (r0 :: raw'), vmap.
      split; [exact Hraw|]. split; [intros _; exact Hvmap|].
      split; [exact Hall | exact Hmap].
Qed.

Lemma windowed_total minutes now P V raw vmap :
  _parse_arrivals_raw P = Ok raw ->
  (raw <> [] -> _vehicle_to_stop_map V = Ok vmap) ->
  Forall (fun r => returns (current_stop_of vmap (vehicle_id r))) raw ->
  (raw <- _parse_arrivals_raw P ;;
   match raw with
   | [] => Ok _empty_arrivals_df
   | _ =>
       vehicle_to_stop <- _vehicle_to_stop_map V ;;
       out <- map_and_mask vehicle_to_stop
                (fun r => in_window now (now + timedelta_minutes minutes)
                                    (arrival_time_dt r)) raw ;;
       match out with
       | [] => Ok _empty_arrivals_df
       | _ => Ok out
       end
   end) = Ok (map (arrival_view vmap) (within minutes now raw)).
Proof.
  intros Hraw Hvmap Hall. rewrite Hraw. simpl bind.
  destruct raw as [|r0 raw']; [reflexivity|].
  rewrite Hvmap by discriminate. simpl bind.
  match goal with
  | |- bind ?m _ = _ =>
      replace m with (Ok (map (arrival_view vmap) (within minutes now (r0 :: raw'))))
  end.
  - simpl bind. apply empty_or_same.
  - symmetry.
    exact (for_rows_mask_total
             (fun r => current_stop_of vmap (vehicle_id r))
             (fun stop r => mk_arrival stop (Scheduled_Arrival_Time r)
                                       (Actual_Estimated_Arrival_Time r)
                                       (arrival_Status r))
             (fun r => stop_label vmap (vehicle_id r))
             (fun r => in_window now (now + timedelta_minutes minutes)
                                 (arrival_time_dt r))
             (r0 :: raw') (fun a s0 => stop_label_ok vmap _ s0) Hall).
Qed.

Lemma in_window_iff now window_end t :
  in_window now window_end (Some t) = true <-> now <= t <= window_end.
Proof.
  unfold in_window. rewrite andb_true_iff, Z.leb_le, Z.leb_le. reflexivity.
Qed.

Lemma within_nested now raw r :
  In r (within 10 now raw) -> In r (within 60 now raw).
Proof.
  unfold within. rewrite !filter_In. intros [Hin Hw]. split; [exact Hin|].
  destruct (arrival_time_dt r) as [t|]; [|discriminate].
  apply in_window_iff in Hw. apply in_window_iff.
  unfold timedelta_minutes in *. lia.
Qed.

(** C7, amended. The near-term and future views are the same arrival
    extraction, projected the same way, filtered to the windows
    [now, now + 10 min] and [now, now + 60 min] of the best-available
    arrival instant, each including both of its ends; the windows are
    nested, not disjoint, so every near-term row is a future row.  An
    arrival exactly 10 minutes out is in the near-term window, one 10.01
    minutes out is not, and one exactly 60 minutes out is in the future
    window. *)
Theorem arrival_windows_nested now P V near :
  parse_near_term_arrivals now P V = Ok near ->
  exists raw vmap future,
    _parse_arrivals_raw P = Ok raw /\
    parse_future_arrivals now P V = Ok future /\
    near = map (arrival_view vmap) (within 10 now raw) /\
    future = map (arrival_view vmap) (within 60 now raw) /\
    incl near future /\
    (forall t, in_window now (now + timedelta_minutes 10) (Some t) = true
               <-> now <= t <= now + 600 * 1000000) /\
    (forall t, in_window now (now + timedelta_minutes 60) (Some t) = true
               <-> now <= t <= now + 3600 * 1000000) /\
    in_window now (now + timedelta_minutes 10) (Some (now + 600000000)) = true /\
    in_window now (now + timedelta_minutes 10) (Some (now + 600600000)) = false /\
    in_window now (now + timedelta_minutes 60) (Some (now + 3600000000)) = true.
Proof.
  intros H.
  destruct (windowed_ok 10 now P V near H)
    as (raw & vmap & Hraw & Hvmap & Hall & Hnear).
  exists raw, vmap, (map (arrival_view vmap) (within 60 now raw)).
  split; [exact Hraw|]. split.
  { exact (windowed_total 60 now P V raw vmap Hraw Hvmap Hall). }
  split; [exact Hnear|]. split; [reflexivity|]. split.
  { subst near. intros row Hin. apply in_map_iff in Hin.
    destruct Hin as (r & <- & Hr). apply in_map. now apply within_nested. }
  split; [intros t; rewrite in_window_iff; unfold timedelta_minutes; lia|].
  split; [intros t; rewrite in_window_iff; unfold timedelta_minutes; lia|].
  split; [apply in_window_iff; unfold timedelta_minutes; lia|].
  split; [|apply in_window_iff; unfold timedelta_minutes; lia].
  destruct (in_window now (now + timedelta_minutes 10) (Some (now + 600600000)))
    eqn:E; [|reflexivity].
  apply in_window_iff in E. unfold timedelta_minutes in E. lia.
Qed.

End ArrivalWindows.

(** C7, as stated, fails: the two windows are not disjoint.  Of arrivals
    5, 10, 10.01 and 60 minutes out, the first two are in the near-term
    frame and all four in the future frame, so the rows 5 and 10 minutes
    out belong to both. *)
Lemma arrival_windows_overlap :
  let davis := mk_arrival (JStr "Davis") None
                          (Some (Sample.now + 300000000)) On_Time in
  let porter := mk_arrival (JStr "Porter") None
                           (Some (Sample.now + 600000000)) On_Time in
  let late := mk_arrival (JStr "Unknown") None
                         (Some (Sample.now + 600600000)) On_Time in
  let hour := mk_arrival (JStr "Unknown") None
                         (Some (Sample.now + 3600000000)) On_Time in
  parse_near_term_arrivals (env := Cpython.env) Sample.now
                           Sample.arrivals Sample.vehicles
  = Ok [davis; porter] /\
  parse_future_arrivals (env := Cpython.env) Sample.now
                        Sample.arrivals Sample.vehicles
  = Ok [davis; porter; late; hour].
Proof. vm_compute. split; reflexivity. Qed.

Lemma arrival_windows_nested_witness :
  exists raw vmap future,
    _parse_arrivals_raw (env := Cpython.env) Sample.arrivals = Ok raw /\
    parse_future_arrivals (env := Cpython.env) Sample.now
                          Sample.arrivals Sample.vehicles = Ok future /\
    List.length (within 10 Sample.now raw) = 2%nat /\
    List.length (within 60 Sample.now raw) = 4%nat /\
    future = map (arrival_view vmap) (within 60 Sample.now raw).
Proof.
  destruct (arrival_windows_nested (env := Cpython.env) Sample.now
              Sample.arrivals Sample.vehicles
              [mk_arrival (JStr "Davis") None
                          (Some (Sample.now + 300000000)) On_Time;
               mk_arrival (JStr "Porter") None
                          (Some (Sample.now + 600000000)) On_Time])
    as (raw & vmap & future & Hraw & Hfut & Hnear & Hfuture & _).
  - vm_compute. reflexivity.
  - exists raw, vmap, future. repeat split; try assumption.
    + vm_compute in Hraw. inversion Hraw. vm_compute. reflexivity.
    + vm_compute in Hraw. inversion Hraw. vm_compute. reflexivity.
Defined.

(** ** Malformed timestamps *)

Section MalformedTimestamps.

Context {env : PyEnv}.

(** Use the known value of a field in the equations a peeled body left. *)
Ltac know Hf :=
  match type of Hf with
  | ?lhs = Ok ?v =>
      match goal with
      | H : lhs = Ok ?x |- _ =>
          rewrite Hf in H; injection H as H; subst x
      end
  end.

Ltac parse_fails Hm :=
  match goal with
  | H : _parse_iso (JStr ?s) = Ok _ |- _ =>
      rewrite (parse_iso_malformed s Hm) in H; discriminate H
  end.

Lemma departure_body_malformed included item :
  malformed_field item "departure_time" \/ malformed_field item "arrival_time" ->
  raises (departure_body included item).
Proof.
  intros Hbad. apply not_ok_raises. intros r H.
  unfold departure_body in H.
  destruct Hbad as [(attrs & s & Hattrs & Hf & Hm) | (attrs & s & Hattrs & Hf & Hm)];
    rewrite Hattrs in H; simpl bind in H;
    do 6 inv_bind H; know Hf; parse_fails Hm.
Qed.

Lemma arrival_body_malformed included item :
  malformed_field item "departure_time" \/ malformed_field item "arrival_time" ->
  raises (arrival_body included item).
Proof.
  intros Hbad. apply not_ok_raises. intros r H.
  unfold arrival_body in H.
  destruct Hbad as [(attrs & s & Hattrs & Hf & Hm) | (attrs & s & Hattrs & Hf & Hm)];
    rewrite Hattrs in H; simpl bind in H;
    do 6 inv_bind H; know Hf; parse_fails Hm.
Qed.

Lemma alert_body_malformed now item :
  malformed_period item -> raises (alert_body now item).
Proof.
  intros (attrs & first & rest & k & s & Hattrs & Hap & Hk & Hf & Hm).
  apply not_ok_raises. intros r H. unfold alert_body in H.
  rewrite Hattrs in H. simpl bind in H.
  do 5 inv_bind H. rewrite Hap in H. simpl bind in H.
  change (por (JList (first :: rest)) (JList [])) with (JList (first :: rest)) in H.
  simpl truthy in H. cbv iota in H. simpl index0 in H. simpl bind in H.
  peel H as times Htimes.
  peel Htimes as start_str Hstart. peel Htimes as end_str Hend.
  peel Htimes as st Hst. peel Htimes as en Hen.
  rewrite parse_iso_if_truthy in Hst, Hen.
  destruct Hk as [-> | ->]; know Hf; parse_fails Hm.
Qed.

Lemma next_stop_body_malformed included now by_vehicle item :
  malformed_expected item -> raises (next_stop_body included now by_vehicle item).
Proof.
  intros (attrs & rels & vid & pa & pd & s & Hattrs & Hrels & Hvid & Ht
          & Hpa & Hpd & Hpor & Hm).
  apply not_ok_raises. intros r H. unfold next_stop_body in H.
  rewrite Hattrs, Hrels in H. simpl bind in H.
  rewrite Hvid in H. simpl bind in H. rewrite Ht in H. simpl negb in H.
  cbv iota in H.
  do 2 inv_bind H. rewrite Hpa, Hpd in H. simpl bind in H.
  rewrite Hpor in H. rewrite (parse_iso_malformed s Hm) in H. discriminate H.
Qed.

(** C1, amended. On a payload that is not error-flagged, a record with
    a malformed timestamp string in a field the operation parses makes
    the operation raise instead of emitting rows: departure_time or
    arrival_time of any prediction for [parse_departures] and
    [_parse_arrivals_raw]; start or end of an alert's first active period
    for [parse_alerts]; arrival_time-or-departure_time of a prediction
    that references a vehicle for [_next_stop_by_vehicle].  Only a null
    or empty timestamp is replaced by null. *)
Theorem malformed_timestamp_propagates now resp items item :
  truthy (dget resp "error" JNull) = false ->
  iter (dget resp "data" (JList [])) = Ok items ->
  In item items ->
  (malformed_field item "departure_time" \/ malformed_field item "arrival_time" ->
   raises (parse_departures resp) /\ raises (_parse_arrivals_raw resp)) /\
  (malformed_period item -> raises (parse_alerts now resp)) /\
  (malformed_expected item -> raises (_next_stop_by_vehicle now resp)) /\
  (forall v, truthy v = false -> _parse_iso v = Ok None).
Proof.
  intros Herr Hdata Hin. split; [|split; [|split]].
  - intros Hbad. split.
    + unfold parse_departures. rewrite Herr.
      apply bind_raises_r. intros included _. rewrite Hdata. simpl bind.
      apply bind_raises_l. apply (for_rows_raises _ items item Hin).
      now apply departure_body_malformed.
    + unfold _parse_arrivals_raw. rewrite Herr.
      apply bind_raises_r. intros included _. rewrite Hdata. simpl bind.
      apply bind_raises_l. apply (for_rows_raises _ items item Hin).
      now apply arrival_body_malformed.
  - intros Hbad. unfold parse_alerts. rewrite Herr, Hdata. simpl bind.
    apply bind_raises_l. apply (for_rows_raises _ items item Hin).
    now apply alert_body_malformed.
  - intros Hbad. unfold _next_stop_by_vehicle. rewrite Herr.
    apply bind_raises_r. intros included _. rewrite Hdata. simpl bind.
    apply (for_state_raises _ items item Hin).
    intros st. now apply next_stop_body_malformed.
  - intros v Hv. unfold _parse_iso. now rewrite Hv.
Qed.

End MalformedTimestamps.

(** C1, as stated, fails: with exactly one malformed record among
    well-formed ones each operation raises ValueError and emits no row,
    although the well-formed records alone flatten. *)
Lemma one_malformed_record_raises :
  parse_departures (env := Cpython.env) Sample.departures_one_malformed
  = Raise ValueError /\
  _parse_arrivals_raw (env := Cpython.env) Sample.arrivals_one_malformed
  = Raise ValueError /\
  parse_alerts (env := Cpython.env) Sample.now
               (Sample.alerts [Sample.alert_open_ended; Sample.alert_malformed])
  = Raise ValueError /\
  _next_stop_by_vehicle (env := Cpython.env) Sample.now
                        Sample.arrivals_one_malformed
  = Raise ValueError /\
  returns (parse_departures (env := Cpython.env)
             (Sample.payload [Sample.dep_ashmont_0707; Sample.dep_ashmont_0703]
                             Sample.dep_included)) /\
  returns (parse_alerts (env := Cpython.env) Sample.now
                        (Sample.alerts [Sample.alert_open_ended])).
Proof.
  vm_compute. repeat split; try reflexivity; eexists; reflexivity.
Qed.

Lemma malformed_timestamp_propagates_witness :
  raises (parse_departures (env := Cpython.env) Sample.departures_one_malformed)
  /\ raises (_parse_arrivals_raw (env := Cpython.env)
                                  Sample.departures_one_malformed).
Proof.
  destruct (malformed_timestamp_propagates (env := Cpython.env) Sample.now
              Sample.departures_one_malformed
              [Sample.dep_ashmont_0707; Sample.dep_malformed;
               Sample.dep_ashmont_0703]
              Sample.dep_malformed) as (H & _).
  - reflexivity.
  - reflexivity.
  - right. left. reflexivity.
  - apply H. left.
    eexists. exists "not-a-time"%string.
    split; [reflexivity|]. split; [reflexivity|].
    split; [discriminate | reflexivity].
Defined.

(** ** Sorting the departures *)

Section SortLemmas.

Lemma StronglySorted_app {A : Type} (R : A -> A -> Prop) (l1 l2 : list A) :
  StronglySorted R l1 -> StronglySorted R l2 ->
  (forall a b, In a l1 -> In b l2 -> R a b) ->
  StronglySorted R (l1 ++ l2).
Proof.
  intros H1 H2 H12. induction H1 as [|a l1 Hl1 IH Ha]; simpl.
  - exact H2.
  - constructor.
    + apply IH. intros x y Hx Hy. apply H12; [now right | exact Hy].
    + apply Forall_app. split; [exact Ha|].
      apply Forall_forall. intros y Hy. apply H12; [now left | exact Hy].
Qed.

Lemma StronglySorted_map_in {A B : Type} (R : A -> A -> Prop)
      (R' : B -> B -> Prop) (f : A -> B) (l : list A) :
  (forall a b, In a l -> In b l -> R a b -> R' (f a) (f b)) ->
  StronglySorted R l -> StronglySorted R' (map f l).
Proof.
  intros Hf Hs. induction Hs as [|a l Hl IH Ha]; simpl.
  - constructor.
  - constructor.
    + apply IH. intros x y Hx Hy. apply Hf; now right.
    + apply Forall_map. rewrite Forall_forall in *. intros y Hy.
      apply Hf; [now left | now right | now apply Ha].
Qed.

Lemma filter_partition {A : Type} (p : A -> bool) (l : list A) :
  Permutation (filter p l ++ filter (fun x => negb (p x)) l) l.
Proof.
  induction l as [|x l IH]; simpl.
  - constructor.
  - destruct (p x); simpl.
    + now constructor.
    + apply Permutation_sym. apply Permutation_cons_app.
      now apply Permutation_sym.
Qed.

Lemma take_rows_seq {A : Type} (pre rows : list A) :
  take_rows (pre ++ rows) (seq (List.length pre) (List.length rows)) = rows.
Proof.
  revert pre. induction rows as [|r rows IH]; intros pre; simpl.
  - reflexivity.
  - unfold take_rows in *. simpl.
    rewrite nth_error_app2 by lia. rewrite Nat.sub_diag. simpl. f_equal.
    specialize (IH (pre ++ [r])). rewrite <- app_assoc in IH. simpl in IH.
    rewrite length_app in IH. simpl in IH.
    rewrite Nat.add_1_r in IH. exact IH.
Qed.

Lemma take_rows_perm {A : Type} (rows : list A) (indexer : list nat) :
  Permutation indexer (seq 0 (List.length rows)) ->
  Permutation (take_rows rows indexer) rows.
Proof.
  intros H. rewrite <- (take_rows_seq [] rows) at 2. simpl.
  unfold take_rows. now apply Permutation_flat_map.
Qed.

Lemma key_list_length {A : Type} (by_ : A -> option Z) (rows : list A) :
  Forall (fun r => is_some (by_ r) = true) rows ->
  List.length (key_list by_ rows) = List.length rows.
Proof.
  induction 1 as [|r rows Hr _ IH]; simpl.
  - reflexivity.
  - destruct (by_ r); [|discriminate]. simpl. now rewrite IH.
Qed.

Lemma key_list_nth {A : Type} (by_ : A -> option Z) (rows : list A) i r :
  Forall (fun r => is_some (by_ r) = true) rows ->
  nth_error rows i = Some r ->
  by_ r = Some (nth i (key_list by_ rows) 0).
Proof.
  intros Hall. revert i. induction Hall as [|x rows Hx _ IH]; intros i Hi.
  - destruct i; discriminate.
  - simpl. destruct (by_ x) as [k|] eqn:E; [|discriminate].
    destruct i as [|i]; simpl in *.
    + inversion Hi; subst. exact E.
    + now apply IH.
Qed.

Lemma in_take_rows {A : Type} (rows : list A) (indexer : list nat) r :
  In r (take_rows rows indexer) ->
  exists i, In i indexer /\ nth_error rows i = Some r.
Proof.
  unfold take_rows. rewrite in_flat_map. intros (i & Hi & Hr).
  exists i. split; [exact Hi|].
  destruct (nth_error rows i) as [r'|]; [|contradiction].
  destruct Hr as [-> | []]. reflexivity.
Qed.

End SortLemmas.

Section Departures.

Context {env : PyEnv}.

Lemma take_rows_nil {A : Type} (indexer : list nat) : take_rows (@nil A) indexer = [].
Proof.
  unfold take_rows. induction indexer as [|i l IH]; simpl; [reflexivity|].
  destruct i; simpl; exact IH.
Qed.

Lemma filter_keyed {A : Type} (by_ : A -> option Z) (df : list A) :
  Forall (fun r => is_some (by_ r) = true) (filter (fun r => is_some (by_ r)) df).
Proof. apply Forall_forall. intros r Hr. now apply filter_In in Hr. Qed.

Lemma sort_values_perm {A : Type} (by_ : A -> option Z) (df : list A) :
  argsort_ok -> Permutation (sort_values by_ df) df.
Proof.
  intros Hsort. unfold sort_values.
  eapply Permutation_trans; [|apply (filter_partition (fun r => is_some (by_ r)))].
  apply Permutation_app_tail. apply take_rows_perm.
  rewrite <- (key_list_length by_) by apply filter_keyed.
  apply Hsort.
Qed.

Lemma take_rows_sorted {A : Type} (by_ : A -> option Z) (rows : list A)
      (indexer : list nat) :
  Forall (fun r => is_some (by_ r) = true) rows ->
  StronglySorted (fun i j => nth i (key_list by_ rows) 0
                             <= nth j (key_list by_ rows) 0) indexer ->
  StronglySorted (fun a b => time_le (by_ a) (by_ b)) (take_rows rows indexer).
Proof.
  intros Hkeyed Hs. induction Hs as [|i indexer Hs IH Hi].
  - constructor.
  - change (take_rows rows (i :: indexer))
      with ((match nth_error rows i with Some r => [r] | None => [] end)
              ++ take_rows rows indexer).
    destruct (nth_error rows i) as [r|] eqn:Er; simpl; [|exact IH].
    constructor; [exact IH|].
    apply Forall_forall. intros r' Hr'.
    destruct (in_take_rows rows indexer r' Hr') as (j & Hj & Ej).
    rewrite (key_list_nth by_ rows i r Hkeyed Er).
    rewrite (key_list_nth by_ rows j r' Hkeyed Ej). simpl.
    rewrite Forall_forall in Hi. now apply Hi.
Qed.

Lemma sort_values_sorted {A : Type} (by_ : A -> option Z) (df : list A) :
  argsort_ok ->
  StronglySorted (fun a b => time_le (by_ a) (by_ b)) (sort_values by_ df).
Proof.
  intros Hsort. unfold sort_values.
  assert (Hnan : forall b, In b (filter (fun r => negb (is_some (by_ r))) df) ->
                           by_ b = None).
  { intros b Hb. apply filter_In in Hb. destruct Hb as [_ Hb].
    destruct (by_ b); [discriminate | reflexivity]. }
  apply StronglySorted_app.
  - apply take_rows_sorted; [apply filter_keyed | apply Hsort].
  - induction (filter (fun r => negb (is_some (by_ r))) df) as [|x l IH].
    + constructor.
    + constructor.
      * apply IH. intros b Hb. apply Hnan. now right.
      * apply Forall_forall. intros b Hb.
        rewrite (Hnan b) by now right. now destruct (by_ x).
  - intros a b _ Hb. rewrite (Hnan b Hb). now destruct (by_ a).
Qed.

(** The sort key of a row the loop appends is its best-available
    departure instant, and such a row has one. *)
Lemma departure_body_sort_time included item r :
  departure_body included item = Ok (Some r) ->
  _sort_time r = oor (Actual_Estimated_Departure_Time r)
                     (Scheduled_Departure_Time r).
Proof.
  intros H. unfold departure_body in H. repeat inv_bind H.
  match type of H with (if ?c then _ else _) = _ => destruct c end;
    inversion H. reflexivity.
Qed.

Lemma parse_iso_truthy v o :
  truthy v = true -> _parse_iso v = Ok o -> is_some o = true.
Proof.
  unfold _parse_iso, astimezone_utc. intros -> H. simpl in H.
  destruct v; try discriminate H.
  destruct (fromisoformat _) as [dt|]; [|discriminate H].
  destruct (tzinfo dt), ZoneInfo;
    repeat match type of H with
           | (if ?c then _ else _) = _ => destruct c
           end;
    inversion H; reflexivity.
Qed.

(** A row is appended only when one of the three time strings is there,
    so no row of [parse_departures] lacks a sort key: the null-last
    clause never has anything to place. *)
Lemma departure_body_has_time included item r :
  departure_body included item = Ok (Some r) -> is_some (_sort_time r) = true.
Proof.
  intros H. unfold departure_body in H.
  peel H as attrs Hattrs. peel H as rels Hrels. peel H as direction Hdir.
  peel H as pred_dep Hpd. peel H as pred_arr Hpa.
  peel H as pred_dep_dt Hpdd. peel H as pred_arr_dt Hpad.
  do 7 inv_bind H. peel H as sd1 Hsd1. peel H as sd2 Hsd2.
  peel H as sched_dep_dt Hsdd.
  match type of H with (if ?c then _ else _) = _ => destruct c eqn:E end;
    inversion H; subst r; simpl. clear H.
  apply andb_true_iff in E. destruct E as [_ E].
  apply orb_true_iff in E. destruct E as [E | E].
  - apply orb_true_iff in E. destruct E as [E | E].
    + apply (parse_iso_truthy _ _ E) in Hpdd.
      destruct pred_dep_dt; [reflexivity | discriminate].
    + apply (parse_iso_truthy _ _ E) in Hsdd.
      destruct pred_dep_dt, pred_arr_dt, sched_dep_dt;
        reflexivity || discriminate.
  - apply (parse_iso_truthy _ _ E) in Hpad.
    destruct pred_dep_dt, pred_arr_dt; reflexivity || discriminate.
Qed.

Lemma parse_departures_eq resp :
  parse_departures resp =
  (rows <- emitted_departures resp ;;
   Ok (drop_sort_time (sort_values _sort_time rows))).
Proof.
  unfold parse_departures, emitted_departures.
  destruct (truthy (dget resp "error" JNull)).
  - simpl. unfold sort_values. simpl. now rewrite take_rows_nil.
  - destruct (_build_included_lookup _) as [included|e]; [|reflexivity].
    simpl bind.
    destruct (iter _) as [data|e]; [|reflexivity]. simpl bind.
    destruct (for_rows _ data) as [rows|e]; [|reflexivity]. simpl bind.
    destruct rows; [|reflexivity].
    unfold sort_values. simpl. now rewrite take_rows_nil.
Qed.

Lemma emitted_sort_time resp rows :
  emitted_departures resp = Ok rows ->
  Forall (fun r => _sort_time r = oor (Actual_Estimated_Departure_Time r)
                                      (Scheduled_Departure_Time r)) rows.
Proof.
  unfold emitted_departures. intros H.
  destruct (truthy (dget resp "error" JNull)).
  - inversion H. constructor.
  - peel H as included Hinc. peel H as data Hdata.
    destruct (for_rows_ok _ _ _ H) as (rs & Hall & ->). clear H Hdata.
    induction Hall as [|item o items rs Hitem _ IH]; simpl.
    + constructor.
    + destruct o as [r|]; simpl; [|exact IH].
      constructor; [|exact IH].
      now apply (departure_body_sort_time included item).
Qed.

(** C6, amended. When the library sort orders its keys (which every kind
    of sort does), the frame [parse_departures] returns holds exactly
    the rows its loop appended, ascending by best-available departure
    instant with null-time rows last.  The relative order of rows with
    equal instants is the library's: the default kind of
    [sort_values], quicksort, is not a stable sort. *)
Theorem departures_sorted resp out :
  argsort_ok ->
  parse_departures resp = Ok out ->
  exists rows,
    emitted_departures resp = Ok rows /\
    Permutation out (drop_sort_time rows) /\
    StronglySorted (fun a b => time_le (best_time a) (best_time b)) out.
Proof.
  intros Hsort H. rewrite parse_departures_eq in H.
  peel H as rows Hrows. inversion H; subst out. clear H.
  exists rows. split; [exact Hrows|]. split.
  - unfold drop_sort_time. apply Permutation_map. now apply sort_values_perm.
  - pose proof (emitted_sort_time resp rows Hrows) as Hkey.
    assert (Hkey' : forall r, In r (sort_values _sort_time rows) ->
                              _sort_time r
                              = oor (Actual_Estimated_Departure_Time r)
                                    (Scheduled_Departure_Time r)).
    { intros r Hr. rewrite Forall_forall in Hkey. apply Hkey.
      eapply Permutation_in; [apply sort_values_perm; exact Hsort | exact Hr]. }
    unfold drop_sort_time.
    apply (StronglySorted_map_in
             (fun a b => time_le (_sort_time a) (_sort_time b))).
    + intros a b Ha Hb Hab. unfold best_time. simpl.
      rewrite <- (Hkey' a Ha), <- (Hkey' b Hb). exact Hab.
    + now apply sort_values_sorted.
Qed.

End Departures.

(** ** The concrete sorts *)

Section InsertionArgsort.

Variable before : Z -> Z -> bool.
Hypothesis before_le : forall x y, before x y = true -> x <= y.
Hypothesis before_ge : forall x y, before x y = false -> y <= x.

Lemma insert_by_perm x l :
  Permutation (Cpython.insert_by before x l) (x :: l).
Proof.
  induction l as [|y l IH]; simpl.
  - apply Permutation_refl.
  - destruct (before (fst x) (fst y)).
    + apply Permutation_refl.
    + eapply Permutation_trans; [apply perm_skip; exact IH | apply perm_swap].
Qed.

Lemma isort_perm l :
  Permutation (fold_right (Cpython.insert_by before) [] l) l.
Proof.
  induction l as [|x l IH]; simpl.
  - constructor.
  - eapply Permutation_trans; [apply insert_by_perm | now apply perm_skip].
Qed.

Lemma insert_by_sorted x l :
  StronglySorted (fun p q : Z * nat => fst p <= fst q) l ->
  StronglySorted (fun p q : Z * nat => fst p <= fst q) (Cpython.insert_by before x l).
Proof.
  intros Hs. induction Hs as [|y l Hs IH Hy]; simpl.
  - constructor; constructor.
  - destruct (before (fst x) (fst y)) eqn:E.
    + apply before_le in E. constructor.
      * now constructor.
      * constructor; [exact E|].
        eapply Forall_impl; [|exact Hy]. simpl. intros q Hq. lia.
    + apply before_ge in E. constructor; [exact IH|].
      eapply Permutation_Forall.
      * apply Permutation_sym. apply insert_by_perm.
      * constructor; [exact E | exact Hy].
Qed.

Lemma isort_sorted l :
  StronglySorted (fun p q : Z * nat => fst p <= fst q) (fold_right (Cpython.insert_by before) [] l).
Proof.
  induction l as [|x l IH]; simpl.
  - constructor.
  - now apply insert_by_sorted.
Qed.

Lemma combine_seq_nth (keys : list Z) s k i :
  In (k, i) (combine keys (seq s (List.length keys))) ->
  (s <= i)%nat /\ nth (i - s) keys 0 = k.
Proof.
  revert s. induction keys as [|k0 keys IH]; simpl; intros s H.
  - contradiction.
  - destruct H as [H | H].
    + inversion H; subst. split; [lia|]. now rewrite Nat.sub_diag.
    + destruct (IH (S s) H) as [Hle Hnth]. split; [lia|].
      replace (i - s)%nat with (S (i - S s)) by lia. exact Hnth.
Qed.

Lemma map_snd_combine {A B : Type} (l1 : list A) (l2 : list B) :
  List.length l1 = List.length l2 -> map snd (combine l1 l2) = l2.
Proof.
  revert l2. induction l1 as [|a l1 IH]; intros [|b l2] H; simpl in *;
    try discriminate; try reflexivity.
  f_equal. apply IH. lia.
Qed.

(** An insertion sort of the keys meets the promise of [argsort],
    whichever way it places equal keys. *)
Lemma argsort_by_ok keys :
  Permutation (Cpython.argsort_by before keys) (seq 0 (List.length keys)) /\
  StronglySorted (fun i j => nth i keys 0 <= nth j keys 0)
                 (Cpython.argsort_by before keys).
Proof.
  unfold Cpython.argsort_by. split.
  - rewrite <- (map_snd_combine keys (seq 0 (List.length keys)))
      at 2 by (now rewrite length_seq).
    apply Permutation_map. apply isort_perm.
  - apply (StronglySorted_map_in (fun p q : Z * nat => fst p <= fst q));
      [|apply isort_sorted].
    intros [k i] [k' i'] Hin Hin' Hle.
    assert (Hk : forall p, In p (fold_right (Cpython.insert_by before) []
                                  (combine keys (seq 0 (List.length keys)))) ->
                           nth (snd p) keys 0 = fst p).
    { intros [k0 i0] Hp. simpl.
      apply (Permutation_in _ (isort_perm _)) in Hp.
      apply combine_seq_nth in Hp. destruct Hp as [_ Hp].
      now rewrite Nat.sub_0_r in Hp. }
    pose proof (Hk _ Hin) as E1. pose proof (Hk _ Hin') as E2.
    simpl in *. lia.
Qed.

End InsertionArgsort.

Lemma argsort_stable_ok : argsort_ok (env := Cpython.env).
Proof.
  intros keys. apply (argsort_by_ok Z.leb).
  - intros x y H. now apply Z.leb_le.
  - intros x y H. apply Z.leb_gt in H. lia.
Qed.

(** On the three departures of [Sample.departures], two of them at
    13:07, numpy's quicksort is an insertion sort and the frame comes
    out as under [Cpython.env], the tie in input order. *)
Lemma quicksort_small_frame :
  parse_departures (env := Cpython.env_numpy) Sample.departures
  = parse_departures (env := Cpython.env) Sample.departures.
Proof. vm_compute. reflexivity. Qed.

(** Sixteen keys are sorted by insertion, ties in input order;
    seventeen equal keys are split around the middle one, and the
    exchanges of the split reorder them. *)
Lemma quicksort_boundary :
  Cpython.argsort_quicksort [3; 1; 3; 1; 3; 1; 3; 1; 3; 1; 3; 1; 3; 1; 3; 1]
  = [1; 3; 5; 7; 9; 11; 13; 15; 0; 2; 4; 6; 8; 10; 12; 14]%nat /\
  Cpython.argsort_quicksort [7; 7; 7; 7; 7; 7; 7; 7; 7; 7; 7; 7; 7; 7; 7; 7; 7]
  = [0; 14; 13; 12; 11; 10; 9; 15; 8; 6; 5; 4; 3; 2; 1; 7; 16]%nat.
Proof. split; vm_compute; reflexivity. Qed.

(** C6, as stated, fails: the sort is not stable.  Seventeen departures
    predicted for the same minute are emitted in the order of the
    payload, A to Q, and all have the same sort time; the frame
    [parse_departures] returns, sorted by numpy's quicksort, lists them
    in another order. *)
Lemma departures_ties_reordered :
  (exists rows,
      emitted_departures (env := Cpython.env_numpy)
                         MoreSamples.departures_17_ties = Ok rows /\
      drop_sort_time rows = map MoreSamples.tie_row MoreSamples.tie_names) /\
  Forall (fun r => best_time r = Some (Cpython.wall_of 2024 1 1 13 7 0 0))
         (map MoreSamples.tie_row MoreSamples.tie_names) /\
  parse_departures (env := Cpython.env_numpy) MoreSamples.departures_17_ties
  = Ok (map MoreSamples.tie_row
            ["A"; "O"; "N"; "M"; "L"; "K"; "J"; "P"; "I"; "G"; "F"; "E"; "D";
             "C"; "B"; "H"; "Q"]%string).
Proof.
  split; [|split].
  - eexists. split; vm_compute; reflexivity.
  - repeat constructor.
  - vm_compute. reflexivity.
Qed.

Lemma departures_sorted_witness :
  exists rows,
    emitted_departures (env := Cpython.env) Sample.departures = Ok rows /\
    Permutation
      [mk_departure_out (JStr "Ashmont") None
         (Some (Cpython.wall_of 2024 1 1 13 3 0 0)) On_Time;
       mk_departure_out (JStr "Ashmont")
         (Some (Cpython.wall_of 2024 1 1 13 4 0 0))
         (Some (Cpython.wall_of 2024 1 1 13 7 0 0)) Delayed;
       mk_departure_out (JStr "Braintree") None
         (Some (Cpython.wall_of 2024 1 1 13 7 0 0)) On_Time]
      (drop_sort_time rows).
Proof.
  destruct (departures_sorted (env := Cpython.env) Sample.departures
              [mk_departure_out (JStr "Ashmont") None
                 (Some (Cpython.wall_of 2024 1 1 13 3 0 0)) On_Time;
               mk_departure_out (JStr "Ashmont")
                 (Some (Cpython.wall_of 2024 1 1 13 4 0 0))
                 (Some (Cpython.wall_of 2024 1 1 13 7 0 0)) Delayed;
               mk_departure_out (JStr "Braintree") None
                 (Some (Cpython.wall_of 2024 1 1 13 7 0 0)) On_Time])
    as (rows & Hrows & Hperm & _).
  - exact argsort_stable_ok.
  - vm_compute. reflexivity.
  - exists rows. split; assumption.
Defined.

(** ** The next stop of each vehicle *)

Section KeyEquality.

Lemma key_eqb_refl k : hashable k = true -> key_eqb k k = true.
Proof.
  destruct k; simpl; try discriminate; intros _; unfold key_eqb; simpl.
  - reflexivity.
  - destruct b; reflexivity.
  - apply Qeq_bool_iff. reflexivity.
  - apply Qeq_bool_iff. reflexivity.
  - apply String.eqb_refl.
Qed.

Lemma key_eqb_sym a b : key_eqb a b = key_eqb b a.
Proof.
  assert (Hq : forall x y, Qeq_bool x y = Qeq_bool y x).
  { intros x y. destruct (Qeq_bool x y) eqn:E1, (Qeq_bool y x) eqn:E2;
      try reflexivity.
    - apply Qeq_bool_iff in E1. symmetry in E1. apply Qeq_bool_iff in E1.
      congruence.
    - apply Qeq_bool_iff in E2. symmetry in E2. apply Qeq_bool_iff in E2.
      congruence. }
  unfold key_eqb. destruct a, b; simpl; try reflexivity; try apply Hq.
  apply String.eqb_sym.
Qed.

Lemma key_eqb_trans a b c :
  key_eqb a b = true -> key_eqb b c = true -> key_eqb a c = true.
Proof.
  unfold key_eqb.
  destruct a, b; simpl; try discriminate;
    destruct c; simpl; try discriminate; intros H1 H2;
    try reflexivity;
    try (apply Qeq_bool_iff in H1; apply Qeq_bool_iff in H2;
         apply Qeq_bool_iff; now rewrite H1);
    try (apply String.eqb_eq in H1; apply String.eqb_eq in H2;
         apply String.eqb_eq; congruence).
Qed.

Lemma key_eqb_left a b c :
  key_eqb a b = true -> key_eqb a c = key_eqb b c.
Proof.
  intros H. destruct (key_eqb b c) eqn:E.
  - now apply (key_eqb_trans a b c).
  - destruct (key_eqb a c) eqn:E'; [|reflexivity].
    rewrite key_eqb_sym in H. now rewrite (key_eqb_trans b a c H E') in E.
Qed.

Context {V : Type}.

Lemma pm_get_eqb (k k' : json) (m : pymap json V) :
  key_eqb k k' = true -> pm_get key_eqb k m = pm_get key_eqb k' m.
Proof.
  intros H. induction m as [|[k0 v0] m IH]; simpl.
  - reflexivity.
  - rewrite (key_eqb_left k k' k0 H). now rewrite IH.
Qed.

Lemma pm_get_set_same (k k' : json) (v : V) (m : pymap json V) :
  key_eqb k k' = true -> pm_get key_eqb k (pm_set key_eqb k' v m) = Some v.
Proof.
  intros H. induction m as [|[k0 v0] m IH]; simpl.
  - now rewrite H.
  - destruct (key_eqb k' k0) eqn:E; simpl.
    + now rewrite (key_eqb_left k k' k0 H), E.
    + now rewrite (key_eqb_left k k' k0 H), E.
Qed.

Lemma pm_get_set_other (k k' : json) (v : V) (m : pymap json V) :
  key_eqb k k' = false ->
  pm_get key_eqb k (pm_set key_eqb k' v m) = pm_get key_eqb k m.
Proof.
  intros H. induction m as [|[k0 v0] m IH]; simpl.
  - now rewrite H.
  - destruct (key_eqb k' k0) eqn:E; simpl.
    + destruct (key_eqb k k0) eqn:E'; [|reflexivity].
      rewrite key_eqb_sym in E.
      now rewrite (key_eqb_trans k k0 k' E' E) in H.
    + now rewrite IH.
Qed.

End KeyEquality.

Section NextStop.

Context {env : PyEnv}.

(** A prediction references one vehicle and resolves to one instant. *)
Lemma future_prediction_unique now item vid t vid' t' :
  future_prediction now item vid t -> future_prediction now item vid' t' ->
  vid' = vid /\ t' = t.
Proof.
  intros (attrs & rels & pa & pd & Ha & Hr & Hv & _ & Hpa & Hpd & Ht & _)
         (attrs' & rels' & pa' & pd' & Ha' & Hr' & Hv' & _ & Hpa' & Hpd' & Ht' & _).
  rewrite Ha in Ha'. injection Ha' as <-.
  rewrite Hr in Hr'. injection Hr' as <-.
  rewrite Hv in Hv'. injection Hv' as <-.
  rewrite Hpa in Hpa'. injection Hpa' as <-.
  rewrite Hpd in Hpd'. injection Hpd' as <-.
  rewrite Ht in Ht'. injection Ht' as <-.
  split; reflexivity.
Qed.

(** What one turn of the loop does to the mapping: nothing, when the
    prediction has no resolvable future instant (or the mapping already
    holds an instant that is not later); otherwise it records the
    prediction's instant under its vehicle. *)
Lemma next_stop_body_ok included now m item m' :
  next_stop_body included now m item = Ok m' ->
  (m' = m /\ forall vid t, ~ future_prediction now item vid t) \/
  (exists vid t e,
      future_prediction now item vid t /\
      hashable vid = true /\ expected_time e = t /\
      match pm_get key_eqb vid m with
      | None => m' = pm_set key_eqb vid e m
      | Some old =>
          (t < expected_time old /\ m' = pm_set key_eqb vid e m) \/
          (expected_time old <= t /\ m' = m)
      end).
Proof.
  intros H. unfold next_stop_body in H.
  peel H as attrs Hattrs. peel H as rels Hrels. peel H as vid Hvid.
  destruct (truthy vid) eqn:Etruthy; simpl negb in H; cbv iota in H.
  2:{ left. inversion H. split; [reflexivity|].
      intros vid' t (attrs' & rels' & pa & pd & Ha & Hr & Hv & Ht & _).
      rewrite Hattrs in Ha. injection Ha as <-.
      rewrite Hrels in Hr. injection Hr as <-.
      rewrite Hvid in Hv. injection Hv as <-. congruence. }
  peel H as stop_id Hstop. peel H as stop_name Hname.
  peel H as pred_arr Hpa. peel H as pred_dep Hpd. peel H as pred_dt Hdt.
  assert (Hfp : forall vid' t, future_prediction now item vid' t ->
                  _parse_iso (por pred_arr pred_dep) = Ok (Some t) /\ now <= t).
  { intros vid' t (attrs' & rels' & pa & pd & Ha & Hr & Hv & _
                   & Hpa' & Hpd' & Ht & Hnow).
    rewrite Hattrs in Ha. injection Ha as <-.
    rewrite Hpa in Hpa'. injection Hpa' as <-.
    rewrite Hpd in Hpd'. injection Hpd' as <-.
    now split. }
  destruct pred_dt as [pred|].
  2:{ left. inversion H. split; [reflexivity|].
      intros vid' t Hx. destruct (Hfp vid' t Hx) as [Ht' _]. congruence. }
  destruct (pred <? now) eqn:Epast.
  { left. inversion H. split; [reflexivity|].
    intros vid' t Hx. destruct (Hfp vid' t Hx) as [Ht' Hnow].
    rewrite Hdt in Ht'. injection Ht' as <-.
    apply Z.ltb_lt in Epast. lia. }
  apply Z.ltb_ge in Epast.
  peel H as schedule_id Hsid. peel H as schedule Hsched.
  peel H as sched_attrs Hsa.
  peel H as s1 Hs1. peel H as s2 Hs2. peel H as s3 Hs3. peel H as s4 Hs4.
  peel H as sched_dt Hsdt. cbv zeta in H.
  destruct (hashable vid) eqn:Ehash; [|discriminate H].
  right.
  set (e := mk_next_stop stop_name pred
              (match sched_dt with
               | Some sched => Some (total_seconds pred sched / 60)%Q
               | None => None
               end)) in *.
  exists vid, pred, e.
  split.
  { exists attrs, rels, pred_arr, pred_dep. repeat split; assumption. }
  split; [exact Ehash|]. split; [reflexivity|].
  destruct (pm_get key_eqb vid m) as [old|].
  - destruct (pred <? expected_time old) eqn:Elt; inversion H.
    + left. apply Z.ltb_lt in Elt. split; [exact Elt | reflexivity].
    + right. apply Z.ltb_ge in Elt. split; [exact Elt | reflexivity].
  - inversion H. reflexivity.
Qed.

(** The loop invariant: every future prediction seen so far has an entry
    under its vehicle that is not later, and every entry carries the
    instant of a future prediction seen so far for that vehicle. *)
Lemma next_stop_loop included now items :
  forall seen m out,
    (forall item vid t, In item seen -> future_prediction now item vid t ->
       exists e, pm_get key_eqb vid m = Some e /\ expected_time e <= t) ->
    (forall vid e, pm_get key_eqb vid m = Some e ->
       exists item vid', In item seen /\
                         future_prediction now item vid' (expected_time e) /\
                         key_eqb vid vid' = true) ->
    for_state (next_stop_body included now) items m = Ok out ->
    (forall item vid t, In item (seen ++ items) ->
       future_prediction now item vid t ->
       exists e, pm_get key_eqb vid out = Some e /\ expected_time e <= t) /\
    (forall vid e, pm_get key_eqb vid out = Some e ->
       exists item vid', In item (seen ++ items) /\
                         future_prediction now item vid' (expected_time e) /\
                         key_eqb vid vid' = true).
Proof.
  induction items as [|x items IH]; intros seen m out I1 I2 H.
  - simpl in H. inversion H; subst out. rewrite app_nil_r. split; assumption.
  - simpl in H. peel H as m' Hbody.
    replace (seen ++ x :: items) with ((seen ++ [x]) ++ items)
      by (rewrite <- app_assoc; reflexivity).
    apply (IH (seen ++ [x]) m' out); [| |exact H]; clear IH H.
    + (* entries cover the predictions seen *)
      intros item vid t Hin Hfp.
      apply in_app_or in Hin.
      destruct (next_stop_body_ok included now m x m' Hbody)
        as [[-> Hnone] | (v & tx & e & Hx & Hhash & He & Hupd)].
      * destruct Hin as [Hin | [<- | []]].
        -- now apply (I1 item).
        -- destruct (Hnone vid t Hfp).
      * destruct Hin as [Hin | [<- | []]].
        -- destruct (I1 item vid t Hin Hfp) as (e0 & Hget & Hle).
           destruct (key_eqb vid v) eqn:Ek.
           ++ rewrite (pm_get_eqb vid v m Ek) in Hget. rewrite Hget in Hupd.
              destruct Hupd as [[Hlt ->] | [Hge ->]].
              ** exists e. split; [now apply pm_get_set_same | lia].
              ** exists e0. split; [|exact Hle].
                 now rewrite (pm_get_eqb vid v m Ek).
           ++ exists e0. split; [|exact Hle].
              destruct (pm_get key_eqb v m) as [old|].
              ** destruct Hupd as [[_ ->] | [_ ->]];
                   [now rewrite pm_get_set_other | exact Hget].
              ** subst m'. now rewrite pm_get_set_other.
        -- destruct (future_prediction_unique now x v tx vid t Hx Hfp)
             as [-> ->].
           pose proof (key_eqb_refl v Hhash) as Hrefl.
           destruct (pm_get key_eqb v m) as [old|] eqn:Eget.
           ++ destruct Hupd as [[Hlt ->] | [Hge ->]].
              ** exists e. split; [now apply pm_get_set_same | lia].
              ** exists old. split; [exact Eget | exact Hge].
           ++ subst m'. exists e. split; [now apply pm_get_set_same | lia].
    + (* entries come from the predictions seen *)
      intros vid e0 Hget.
      destruct (next_stop_body_ok included now m x m' Hbody)
        as [[-> Hnone] | (v & tx & e & Hx & Hhash & He & Hupd)].
      * destruct (I2 vid e0 Hget) as (item & vid' & Hin & Hfp & Hk).
        exists item, vid'. split; [apply in_or_app; now left|]. now split.
      * assert (Hold : pm_get key_eqb vid m = Some e0 ->
                       exists item vid', In item (seen ++ [x]) /\
                         future_prediction now item vid' (expected_time e0) /\
                         key_eqb vid vid' = true).
        { intros Hm. destruct (I2 vid e0 Hm) as (item & vid' & Hin & Hfp & Hk).
          exists item, vid'. split; [apply in_or_app; now left|]. now split. }
        assert (Hnew : key_eqb vid v = true -> e0 = e ->
                       exists item vid', In item (seen ++ [x]) /\
                         future_prediction now item vid' (expected_time e0) /\
                         key_eqb vid vid' = true).
        { intros Hk ->. exists x, v.
          split; [apply in_or_app; right; now left|].
          rewrite He. now split. }
        destruct (key_eqb vid v) eqn:Ek.
        -- destruct (pm_get key_eqb v m) as [old|].
           ++ destruct Hupd as [[_ ->] | [_ ->]].
              ** rewrite (pm_get_set_same vid v e m Ek) in Hget.
                 injection Hget as <-. now apply Hnew.
              ** now apply Hold.
           ++ subst m'. rewrite (pm_get_set_same vid v e m Ek) in Hget.
              injection Hget as <-. now apply Hnew.
        -- apply Hold.
           destruct (pm_get key_eqb v m) as [old|].
           ++ destruct Hupd as [[_ ->] | [_ ->]];
                [now rewrite pm_get_set_other in Hget | exact Hget].
           ++ subst m'. now rewrite pm_get_set_other in Hget.
Qed.

End NextStop.

Section NextStopMerger.

Context {env : PyEnv}.

(** C8. In the mapping [_next_stop_by_vehicle] returns, every vehicle
    referenced by a prediction with a resolvable future instant has an
    entry, the entry's expected instant is no later than any such
    prediction of that vehicle, and it is the instant of one of them: the
    earliest.  Every entry comes from such a prediction, so a prediction
    with no resolvable future instant contributes nothing. *)
Theorem next_stop_keeps_earliest now resp items out :
  truthy (dget resp "error" JNull) = false ->
  iter (dget resp "data" (JList [])) = Ok items ->
  _next_stop_by_vehicle now resp = Ok out ->
  (forall item vid t,
      In item items -> future_prediction now item vid t ->
      exists e, pm_get key_eqb vid out = Some e /\ expected_time e <= t) /\
  (forall vid e,
      pm_get key_eqb vid out = Some e ->
      exists item vid',
        In item items /\
        future_prediction now item vid' (expected_time e) /\
        key_eqb vid vid' = true).
Proof.
  intros Herr Hdata H. unfold _next_stop_by_vehicle in H.
  rewrite Herr in H. peel H as included Hinc.
  rewrite Hdata in H. simpl bind in H.
  apply (next_stop_loop included now items [] [] out); [| |exact H].
  - intros item vid t [].
  - intros vid e Hget. discriminate Hget.
Qed.

End NextStopMerger.

(** Of the predictions for vehicle R-1 at 12 minutes, 5 minutes, 3
    minutes ago and with no time, the merger keeps the one 5 minutes out;
    vehicle R-2, whose only prediction is past, has no entry. *)
Lemma next_stop_sample :
  _next_stop_by_vehicle (env := Cpython.env) Sample.now Sample.all_stops
  = Ok [(JStr "R-1",
         mk_next_stop (JStr "Porter") (Sample.now + 300000000)
                      (Some (90000000 # 60000000)))].
Proof. vm_compute. reflexivity. Qed.

Lemma next_stop_keeps_earliest_witness :
  exists e,
    pm_get key_eqb (JStr "R-1")
           [(JStr "R-1",
             mk_next_stop (JStr "Porter") (Sample.now + 300000000)
                          (Some (90000000 # 60000000)))] = Some e /\
    expected_time e <= Sample.now + 720000000.
Proof.
  destruct (next_stop_keeps_earliest (env := Cpython.env) Sample.now
              Sample.all_stops
              [Sample.prediction "n12" 1 (JStr "2024-01-01T13:12:00Z") JNull
                 (Sample.ref "vehicle" "R-1") Sample.no_ref Sample.no_ref
                 (Sample.ref "stop" "70063");
               Sample.prediction "n05" 1 (JStr "2024-01-01T08:05:00-05:00") JNull
                 (Sample.ref "vehicle" "R-1") (Sample.ref "schedule" "s05")
                 Sample.no_ref (Sample.ref "stop" "70065");
               Sample.prediction "past" 1 JNull (JStr "2024-01-01T12:57:00Z")
                 (Sample.ref "vehicle" "R-1") Sample.no_ref Sample.no_ref
                 (Sample.ref "stop" "70067");
               Sample.prediction "none" 1 JNull JNull
                 (Sample.ref "vehicle" "R-1") Sample.no_ref Sample.no_ref
                 (Sample.ref "stop" "70069");
               Sample.prediction "gone" 0 (JStr "2024-01-01T12:30:00Z") JNull
                 (Sample.ref "vehicle" "R-2") Sample.no_ref Sample.no_ref
                 (Sample.ref "stop" "70063")]
              [(JStr "R-1",
                mk_next_stop (JStr "Porter") (Sample.now + 300000000)
                             (Some (90000000 # 60000000)))])
    as [Hearliest _].
  - reflexivity.
  - reflexivity.
  - vm_compute. reflexivity.
  - apply (Hearliest
             (Sample.prediction "n12" 1 (JStr "2024-01-01T13:12:00Z") JNull
                (Sample.ref "vehicle" "R-1") Sample.no_ref Sample.no_ref
                (Sample.ref "stop" "70063"))
             (JStr "R-1") (Sample.now + 720000000)).
    + left. reflexivity.
    + do 4 eexists.
      split; [reflexivity|]. split; [reflexivity|]. split; [reflexivity|].
      split; [reflexivity|]. split; [reflexivity|]. split; [reflexivity|].
      split; [vm_compute; reflexivity | vm_compute; discriminate].
Defined.

(** ** Shapes *)

Section Shapes.

Context {env : PyEnv}.

Lemma max_by_spec {A : Type} (key : A -> nat) (best : A) (l : list A) :
  In (max_by key best l) (best :: l) /\
  forall x, In x (best :: l) -> (key x <= key (max_by key best l))%nat.
Proof.
  revert best. induction l as [|y l IH]; intros best; simpl.
  - split; [now left|]. intros x [<- | []]. lia.
  - destruct (key best <? key y)%nat eqn:E.
    + apply Nat.ltb_lt in E. destruct (IH y) as [Hin Hmax]. split.
      * right. exact Hin.
      * intros x [<- | Hx].
        -- specialize (Hmax y (or_introl eq_refl)). lia.
        -- now apply Hmax.
    + apply Nat.ltb_ge in E. destruct (IH best) as [Hin Hmax]. split.
      * destruct Hin as [Hin | Hin]; [now left | right; now right].
      * intros x [<- | [<- | Hx]].
        -- apply Hmax. now left.
        -- specialize (Hmax best (or_introl eq_refl)). lia.
        -- apply Hmax. now right.
Qed.

(** X1. The merged geometry is one of the decoded segments, none of
    which has more coordinates; it is null exactly when no shape
    decoded. *)
Lemma merged_is_longest resp merged :
  parse_route_shapes_merged resp = Ok merged ->
  exists segments,
    parse_red_line_shape resp = Ok segments /\
    match merged with
    | None => segments = []
    | Some longest =>
        In longest segments /\
        forall s, In s segments ->
                  (List.length (fst s) <= List.length (fst longest))%nat
    end.
Proof.
  unfold parse_route_shapes_merged. intros H. peel H as segments Hseg.
  exists segments. split; [exact Hseg|].
  destruct segments as [|s rest]; inversion H; [reflexivity|].
  apply (max_by_spec (fun s => List.length (fst s))).
Qed.

End Shapes.

(** Shapes the decoder gives up on without raising are skipped: of a
    truncated polyline, a two-point list, a shape without geometry and a
    three-point polyline, two segments are decoded and the merged
    geometry is the three-point one. *)
Lemma shapes_sample :
  parse_red_line_shape (env := Cpython.env)
    (Sample.shapes [Sample.shape_truncated; Sample.shape_points;
                    Sample.shape_empty; Sample.shape_polyline])
  = Ok [([-7112 # 100; -711 # 10], [4239 # 100; 1059 # 25]);
        ([-12020000 # 100000; -12095000 # 100000; -12645300 # 100000],
         [3850000 # 100000; 4070000 # 100000; 4325200 # 100000])] /\
  parse_route_shapes_merged (env := Cpython.env)
    (Sample.shapes [Sample.shape_truncated; Sample.shape_points;
                    Sample.shape_empty; Sample.shape_polyline])
  = Ok (Some ([-12020000 # 100000; -12095000 # 100000; -12645300 # 100000],
              [3850000 # 100000; 4070000 # 100000; 4325200 # 100000])) /\
  parse_route_shapes_merged (env := Cpython.env)
    (Sample.shapes [Sample.shape_truncated; Sample.shape_empty])
  = Ok None.
Proof. vm_compute. repeat split. Qed.

(** C9, where the code misses it: a shape whose list of points holds a
    latitude that is not a number does not decode under either encoding,
    yet it is not skipped: [float] raises ValueError, nothing catches it,
    and the whole request fails, the decodable shape beside it
    included. *)
Theorem shape_bad_point_raises :
  _decode_shape_to_lons_lats (env := Cpython.env) Sample.shape_bad_point
  = Raise ValueError /\
  parse_red_line_shape (env := Cpython.env)
    (Sample.shapes [Sample.shape_polyline; Sample.shape_bad_point])
  = Raise ValueError /\
  parse_route_shapes_merged (env := Cpython.env)
    (Sample.shapes [Sample.shape_polyline; Sample.shape_bad_point])
  = Raise ValueError /\
  parse_route_shapes_merged (env := Cpython.env_bare)
    (Sample.shapes [Sample.shape_polyline; Sample.shape_bad_point])
  = Raise ValueError.
Proof. vm_compute. repeat split. Qed.

(** The error flag of the secondary payload does not empty the arrivals
    frames: with a failed vehicles fetch every Current Stop is the
    sentinel. *)
Lemma error_vehicles_payload_unknown_stops :
  parse_near_term_arrivals (env := Cpython.env) Sample.now Sample.arrivals
                           [("error"%string, JBool true)]
  = Ok [mk_arrival (JStr "Unknown") None (Some (Sample.now + 300000000)) On_Time;
        mk_arrival (JStr "Unknown") None (Some (Sample.now + 600000000)) On_Time].
Proof. vm_compute. reflexivity. Qed.

Lemma merged_is_longest_witness :
  exists segments,
    parse_red_line_shape (env := Cpython.env)
      (Sample.shapes [Sample.shape_points; Sample.shape_polyline])
    = Ok segments /\
    List.length segments = 2%nat.
Proof.
  destruct (merged_is_longest (env := Cpython.env)
              (Sample.shapes [Sample.shape_points; Sample.shape_polyline])
              (Some ([-12020000 # 100000; -12095000 # 100000; -12645300 # 100000],
                     [3850000 # 100000; 4070000 # 100000; 4325200 # 100000])))
    as (segments & Hseg & _).
  - vm_compute. reflexivity.
  - exists segments. split; [exact Hseg|].
    vm_compute in Hseg. inversion Hseg. reflexivity.
Defined.

(** ** Vehicle positions *)

Section VehiclePositions.

Context {env : PyEnv}.

(** X2. A vehicle record is dropped, without raising, when its latitude
    or longitude is missing or is rejected by [float] with TypeError or
    ValueError; a record with both coordinates is kept, with a null
    bearing, when only its bearing is missing or is so rejected. *)
Theorem vehicle_needs_both_coordinates item a lat lon :
  vget item "attributes" JNull = Ok a ->
  coordinate (por a (JDict [])) "latitude" = Ok lat ->
  coordinate (por a (JDict [])) "longitude" = Ok lon ->
  (is_none lat || is_none lon = true -> vehicle_body item = Ok None) /\
  (is_none lat || is_none lon = false ->
   py_float lat = Raise TypeError \/ py_float lat = Raise ValueError \/
   (returns (py_float lat) /\
    (py_float lon = Raise TypeError \/ py_float lon = Raise ValueError)) ->
   vehicle_body item = Ok None) /\
  (is_none lat || is_none lon = false ->
   forall lat_f lon_f b,
     py_float lat = Ok lat_f -> py_float lon = Ok lon_f ->
     vget (por a (JDict [])) "bearing" JNull = Ok b ->
     is_none b = true \/ py_float b = Raise TypeError
     \/ py_float b = Raise ValueError ->
     exists id, vget item "id" (JStr EmptyString) = Ok id /\
                vehicle_body item = Ok (Some (mk_vehicle lat_f lon_f None id))).
Proof.
  intros Ha Hlat Hlon. unfold vehicle_body. rewrite Ha. simpl bind.
  rewrite Hlat. simpl bind. rewrite Hlon. simpl bind.
  split; [|split].
  - intros ->. reflexivity.
  - intros -> H.
    destruct H as [-> | [-> | [[lat_f ->] [-> | ->]]]]; reflexivity.
  - intros -> lat_f lon_f b -> -> Hb Hbear. simpl bind. cbv iota beta.
    rewrite Hb. simpl bind.
    assert (Hitem : exists d, item = JDict d).
    { destruct item; try discriminate Ha. eauto. }
    destruct Hitem as [d ->]. simpl vget. simpl bind.
    exists (dget d "id" (JStr EmptyString)). split; [reflexivity|].
    destruct (is_none b) eqn:Enone.
    + reflexivity.
    + destruct Hbear as [Hbear | [-> | ->]];
        [discriminate Hbear | reflexivity | reflexivity].
Qed.

End VehiclePositions.

(** Of three vehicles without a bearing, the two whose coordinates are
    floats or numeric strings are kept and the one whose latitude is not
    a number is dropped. *)
Lemma vehicles_sample :
  parse_vehicles_for_map (env := Cpython.env)
    (Sample.payload
       [Sample.vehicle "R-1" (JFloat (4239 # 100)) (JFloat (-7112 # 100))
                       Sample.no_ref;
        Sample.vehicle "R-9" (JStr "north") (JStr "-71.1") Sample.no_ref;
        Sample.vehicle "R-2" (JStr "42.36") (JStr "-71.1") Sample.no_ref]
       [])
  = Ok [mk_vehicle (4239 # 100) (-7112 # 100) None (JStr "R-1");
        mk_vehicle (1059 # 25) (-711 # 10) None (JStr "R-2")].
Proof. vm_compute. reflexivity. Qed.

Lemma vehicle_needs_both_coordinates_witness :
  vehicle_body (env := Cpython.env)
    (Sample.vehicle "R-9" (JStr "north") (JStr "-71.1") Sample.no_ref)
  = Ok None.
Proof.
  destruct (vehicle_needs_both_coordinates (env := Cpython.env)
              (Sample.vehicle "R-9" (JStr "north") (JStr "-71.1") Sample.no_ref)
              (JDict [("latitude"%string, JStr "north");
                      ("longitude"%string, JStr "-71.1")])
              (JStr "north") (JStr "-71.1")) as (_ & Hdrop & _).
  - reflexivity.
  - reflexivity.
  - reflexivity.
  - apply Hdrop; [reflexivity|]. right. left. reflexivity.
Defined.

(** * More of the module *)

(** ** The included lookup *)

Section AssocFacts.

Context {K V : Type}.
Variable eqb : K -> K -> bool.
Hypothesis eqb_sym : forall a b, eqb a b = eqb b a.
Hypothesis eqb_left : forall a b c, eqb a b = true -> eqb a c = eqb b c.

Lemma pm_get_after_set (k k' : K) (v : V) (m : pymap K V) :
  pm_get eqb k (pm_set eqb k' v m)
  = if eqb k k' then Some v else pm_get eqb k m.
Proof.
  induction m as [|[k0 v0] m IH]; simpl.
  - reflexivity.
  - destruct (eqb k' k0) eqn:E; simpl.
    + destruct (eqb k k') eqn:Ek.
      * now rewrite (eqb_left k k' k0 Ek), E.
      * destruct (eqb k k0) eqn:Ek0; [|reflexivity].
        rewrite eqb_sym in E.
        rewrite (eqb_left k k0 k' Ek0), E in Ek. discriminate.
    + rewrite IH. destruct (eqb k k') eqn:Ek; [|reflexivity].
      now rewrite (eqb_left k k' k0 Ek), E.
Qed.

End AssocFacts.

Lemma tuple_eqb_sym a b : tuple_eqb a b = tuple_eqb b a.
Proof.
  unfold tuple_eqb. now rewrite (key_eqb_sym (fst a)), (key_eqb_sym (snd a)).
Qed.

Lemma tuple_eqb_left a b c :
  tuple_eqb a b = true -> tuple_eqb a c = tuple_eqb b c.
Proof.
  unfold tuple_eqb. intros H. apply andb_true_iff in H. destruct H as [H1 H2].
  now rewrite (key_eqb_left _ _ (fst c) H1), (key_eqb_left _ _ (snd c) H2).
Qed.

Section IncludedLookup.

Context {env : PyEnv}.

Lemma included_body_ok lookup inc lookup' :
  included_body lookup inc = Ok lookup' ->
  lookup' = pm_set tuple_eqb (resource_key inc) inc lookup.
Proof.
  unfold included_body. intros H.
  peel H as ty Hty. peel H as id Hid.
  destruct inc; try discriminate Hty. simpl in Hty, Hid.
  injection Hty as <-. injection Hid as <-.
  destruct (hashable _ && hashable _); [|discriminate H].
  injection H as <-. reflexivity.
Qed.

Lemma included_loop incs :
  forall seen lookup out,
    (forall k, pm_get tuple_eqb k lookup = last_resource k seen) ->
    for_state included_body incs lookup = Ok out ->
    forall k, pm_get tuple_eqb k out = last_resource k (seen ++ incs).
Proof.
  induction incs as [|inc incs IH]; intros seen lookup out Hinv H k.
  - simpl in H. injection H as <-. rewrite app_nil_r. apply Hinv.
  - simpl in H. peel H as lookup' Hbody.
    replace (seen ++ inc :: incs) with ((seen ++ [inc]) ++ incs)
      by (rewrite <- app_assoc; reflexivity).
    apply (IH (seen ++ [inc]) lookup' out); [|exact H].
    intros k'. rewrite (included_body_ok _ _ _ Hbody).
    rewrite (pm_get_after_set tuple_eqb tuple_eqb_sym tuple_eqb_left).
    unfold last_resource. rewrite rev_app_distr. simpl.
    destruct (tuple_eqb k' (resource_key inc)); [reflexivity | apply Hinv].
Qed.

(** X3. The Resource Resolver files each included resource under its
    (type, id): a lookup returns the last resource of the array with an
    equal key and misses exactly when the array has none; a missing,
    null or empty array gives the empty lookup. *)
Theorem included_lookup_last_wins :
  (forall v, truthy v = false -> _build_included_lookup v = Ok []) /\
  (forall incs lookup,
      _build_included_lookup (JList incs) = Ok lookup ->
      forall k, pm_get tuple_eqb k lookup = last_resource k incs) /\
  (forall incs lookup k,
      _build_included_lookup (JList incs) = Ok lookup ->
      (pm_get tuple_eqb k lookup = None <->
       forall inc, In inc incs -> tuple_eqb k (resource_key inc) = false)).
Proof.
  assert (Hlast : forall incs lookup,
             _build_included_lookup (JList incs) = Ok lookup ->
             forall k, pm_get tuple_eqb k lookup = last_resource k incs).
  { intros incs lookup H k. unfold _build_included_lookup in H.
    assert (Hiter : iter (por (JList incs) (JList [])) = Ok incs)
      by (destruct incs; reflexivity).
    rewrite Hiter in H. simpl bind in H.
    apply (included_loop incs [] [] lookup); [|exact H].
    intros k'. reflexivity. }
  split; [|split].
  - intros v Hv. unfold _build_included_lookup, por. rewrite Hv. reflexivity.
  - exact Hlast.
  - intros incs lookup k H. rewrite (Hlast incs lookup H k).
    unfold last_resource. split.
    + intros Hnone inc Hin.
      apply (find_none _ _ Hnone inc). now apply -> in_rev.
    + intros Hall. destruct (find _ (rev incs)) as [inc|] eqn:E; [|reflexivity].
      apply find_some in E. destruct E as [Hin Hk].
      apply in_rev in Hin. now rewrite (Hall inc Hin) in Hk.
Qed.

End IncludedLookup.

Lemma included_lookup_last_wins_witness :
  exists lookup,
    _build_included_lookup (JList MoreSamples.renamed_stops) = Ok lookup /\
    pm_get tuple_eqb (JStr "stop", JStr "70063") lookup
    = Some (Sample.stop "70063" "Davis Square") /\
    pm_get tuple_eqb (JStr "stop", JStr "70067") lookup = None.
Proof.
  destruct included_lookup_last_wins as (_ & Hlast & _).
  eexists. split; [vm_compute; reflexivity|]. split.
  - rewrite (Hlast MoreSamples.renamed_stops _ eq_refl). reflexivity.
  - rewrite (Hlast MoreSamples.renamed_stops _ eq_refl). reflexivity.
Defined.

(** ** References that do not resolve *)

Section Dangling.

Context {env : PyEnv}.

Lemma resolve_miss_has_no_attributes included ty id r :
  truthy id = true ->
  pm_get tuple_eqb (JStr ty, id) included = None ->
  resolve included ty id = Ok r ->
  vget r "attributes" (JDict []) = Raise AttributeError.
Proof.
  intros Ht Hmiss H. unfold resolve, included_get in H.
  rewrite Ht, Hmiss in H.
  destruct (hashable id); [|discriminate H]. injection H as <-. reflexivity.
Qed.

Lemma departure_body_dangling included item rels ty id :
  vget item "relationships" (JDict []) = Ok rels ->
  ty = "schedule"%string \/ ty = "trip"%string ->
  rel_id rels ty = Ok id -> truthy id = true ->
  pm_get tuple_eqb (JStr ty, id) included = None ->
  raises (departure_body included item).
Proof.
  intros Hrels Hty Hid Ht Hmiss. apply not_ok_raises. intros r H.
  unfold departure_body in H.
  peel H as attrs Hattrs. rewrite Hrels in H. simpl bind in H.
  peel H as direction Hdir. peel H as pred_dep Hpd. peel H as pred_arr Hpa.
  peel H as pred_dep_dt Hpdd. peel H as pred_arr_dt Hpad.
  peel H as schedule_id Hsid. peel H as trip_id Htid.
  peel H as schedule Hsched. peel H as trip Htrip.
  peel H as sched_attrs Hsa. peel H as trip_attrs Hta.
  destruct Hty as [-> | ->].
  - rewrite Hid in Hsid. injection Hsid as <-.
    rewrite (resolve_miss_has_no_attributes _ _ _ _ Ht Hmiss Hsched) in Hsa.
    discriminate Hsa.
  - rewrite Hid in Htid. injection Htid as <-.
    rewrite (resolve_miss_has_no_attributes _ _ _ _ Ht Hmiss Htrip) in Hta.
    discriminate Hta.
Qed.

Lemma arrival_body_dangling included item rels id :
  vget item "relationships" (JDict []) = Ok rels ->
  rel_id rels "schedule" = Ok id -> truthy id = true ->
  pm_get tuple_eqb (JStr "schedule", id) included = None ->
  raises (arrival_body included item).
Proof.
  intros Hrels Hid Ht Hmiss. apply not_ok_raises. intros r H.
  unfold arrival_body in H.
  peel H as attrs Hattrs. rewrite Hrels in H. simpl bind in H.
  peel H as direction Hdir. peel H as pred_arr Hpa. peel H as pred_dep Hpd.
  peel H as pred_arr_dt Hpad. peel H as pred_dep_dt Hpdd.
  peel H as schedule_id Hsid. peel H as trip_id Htid.
  peel H as vehicle Hvid.
  peel H as schedule Hsched. peel H as sched_attrs Hsa.
  rewrite Hid in Hsid. injection Hsid as <-.
  rewrite (resolve_miss_has_no_attributes _ _ _ _ Ht Hmiss Hsched) in Hsa.
  discriminate Hsa.
Qed.

(** X4. A prediction whose schedule relationship names an id that the
    included array does not hold makes both [parse_departures] and
    [_parse_arrivals_raw] raise, whatever its direction: the lookup
    returns None and the code asks it for its attributes.  A trip
    relationship that does not resolve does the same to
    [parse_departures]. *)
Theorem dangling_reference_raises resp lookup items item rels ty id :
  truthy (dget resp "error" JNull) = false ->
  _build_included_lookup (dget resp "included" (JList [])) = Ok lookup ->
  iter (dget resp "data" (JList [])) = Ok items ->
  In item items ->
  vget item "relationships" (JDict []) = Ok rels ->
  rel_id rels ty = Ok id -> truthy id = true ->
  pm_get tuple_eqb (JStr ty, id) lookup = None ->
  (ty = "schedule"%string ->
   raises (parse_departures resp) /\ raises (_parse_arrivals_raw resp)) /\
  (ty = "trip"%string -> raises (parse_departures resp)).
Proof.
  intros Herr Hinc Hdata Hin Hrels Hid Ht Hmiss.
  assert (Hdep : ty = "schedule"%string \/ ty = "trip"%string ->
                 raises (parse_departures resp)).
  { intros Hty. unfold parse_departures. rewrite Herr, Hinc, Hdata. simpl bind.
    apply bind_raises_l. apply (for_rows_raises _ items item Hin).
    now apply (departure_body_dangling lookup item rels ty id). }
  split.
  - intros Hty. split; [apply Hdep; now left|]. subst ty.
    unfold _parse_arrivals_raw. rewrite Herr, Hinc, Hdata. simpl bind.
    apply bind_raises_l. apply (for_rows_raises _ items item Hin).
    now apply (arrival_body_dangling lookup item rels id).
  - intros Hty. apply Hdep. now right.
Qed.

End Dangling.

Lemma dangling_reference_raises_witness :
  raises (parse_departures (env := Cpython.env) MoreSamples.departures_dangling)
  /\ raises (_parse_arrivals_raw (env := Cpython.env)
                                  MoreSamples.departures_dangling).
Proof.
  destruct (dangling_reference_raises (env := Cpython.env)
              MoreSamples.departures_dangling
              (map (fun inc => (resource_key inc, inc)) Sample.dep_included)
              [Sample.dep_ashmont_0707; MoreSamples.dep_dangling_schedule]
              MoreSamples.dep_dangling_schedule
              (JDict [("vehicle"%string, Sample.ref "vehicle" "R-5");
                      ("schedule"%string, Sample.ref "schedule" "sZ");
                      ("trip"%string, Sample.ref "trip" "tA");
                      ("stop"%string, Sample.no_ref)])
              "schedule" (JStr "sZ")) as [H _].
  - reflexivity.
  - reflexivity.
  - reflexivity.
  - right. left. reflexivity.
  - reflexivity.
  - reflexivity.
  - reflexivity.
  - reflexivity.
  - apply H. reflexivity.
Defined.

(** ** Rows of the departures and arrivals frames *)

Section RowFacts.

Context {env : PyEnv}.

Lemma not_both_directions d :
  key_eqb d (JInt 0) = true -> key_eqb d (JInt 1) = true -> False.
Proof.
  intros H0 H1. rewrite key_eqb_sym in H0.
  pose proof (key_eqb_trans _ _ _ H0 H1) as H. discriminate H.
Qed.

(** What a turn of the departures loop decides. *)
Lemma departure_body_row included item r :
  departure_body included item = Ok (Some r) ->
  (exists attrs d, vget item "attributes" (JDict []) = Ok attrs /\
                   vget attrs "direction_id" JNull = Ok d /\
                   key_eqb (coerce_direction d) (JInt 0) = true) /\
  departure_Status r
  = _derive_status (Scheduled_Departure_Time r)
                   (Actual_Estimated_Departure_Time r) 2.
Proof.
  intros H. unfold departure_body in H.
  peel H as attrs Hattrs. peel H as rels Hrels. peel H as d Hd.
  repeat inv_bind H.
  match type of H with (if ?c then _ else _) = _ => destruct c eqn:E end;
    inversion H; subst r; simpl. clear H.
  apply andb_true_iff in E. destruct E as [E _].
  split; [|reflexivity]. exists attrs, d. repeat split; assumption.
Qed.

Lemma arrival_body_row included item r :
  arrival_body included item = Ok (Some r) ->
  (exists attrs d, vget item "attributes" (JDict []) = Ok attrs /\
                   vget attrs "direction_id" JNull = Ok d /\
                   key_eqb (coerce_direction d) (JInt 1) = true) /\
  arrival_Status r
  = _derive_status (Scheduled_Arrival_Time r)
                   (Actual_Estimated_Arrival_Time r) 2.
Proof.
  intros H. unfold arrival_body in H.
  peel H as attrs Hattrs. peel H as rels Hrels. peel H as d Hd.
  repeat inv_bind H.
  match type of H with (if ?c then _ else _) = _ => destruct c eqn:E end;
    inversion H; subst r; simpl. clear H.
  apply andb_true_iff in E. destruct E as [E _].
  split; [|reflexivity]. exists attrs, d. repeat split; assumption.
Qed.

(** X5. A prediction never yields both a departure row and an arrival
    row: the departures loop keeps it only when its direction_id equals
    0 and the arrivals loop only when it equals 1, after a string of
    digits has been read as a number. *)
Theorem prediction_one_direction included item d a :
  departure_body included item = Ok d ->
  arrival_body included item = Ok a ->
  (d = None \/ a = None) /\
  (forall attrs direction_id,
      vget item "attributes" (JDict []) = Ok attrs ->
      vget attrs "direction_id" JNull = Ok direction_id ->
      (is_some d = true ->
       key_eqb (coerce_direction direction_id) (JInt 0) = true) /\
      (is_some a = true ->
       key_eqb (coerce_direction direction_id) (JInt 1) = true)).
Proof.
  intros Hd Ha. split.
  - destruct d as [rd|]; [|now left]. destruct a as [ra|]; [|now right].
    exfalso.
    destruct (departure_body_row _ _ _ Hd) as [(attrs & dir & H1 & H2 & H0) _].
    destruct (arrival_body_row _ _ _ Ha) as [(attrs' & dir' & H1' & H2' & H0') _].
    rewrite H1 in H1'. injection H1' as <-.
    rewrite H2 in H2'. injection H2' as <-.
    exact (not_both_directions _ H0 H0').
  - intros attrs dir Hattrs Hdir. split.
    + destruct d as [rd|]; [|discriminate]. intros _.
      destruct (departure_body_row _ _ _ Hd) as [(attrs' & dir' & H1 & H2 & H0) _].
      rewrite Hattrs in H1. injection H1 as <-.
      rewrite Hdir in H2. injection H2 as <-. exact H0.
    + destruct a as [ra|]; [|discriminate]. intros _.
      destruct (arrival_body_row _ _ _ Ha) as [(attrs' & dir' & H1 & H2 & H0) _].
      rewrite Hattrs in H1. injection H1 as <-.
      rewrite Hdir in H2. injection H2 as <-. exact H0.
Qed.

Lemma in_sort_values {A : Type} (by_ : A -> option Z) (df : list A) r :
  In r (sort_values by_ df) -> In r df.
Proof.
  unfold sort_values. intros H. apply in_app_or in H. destruct H as [H | H].
  - destruct (in_take_rows _ _ _ H) as (i & _ & Hi).
    apply nth_error_In in Hi. now apply filter_In in Hi.
  - now apply filter_In in H.
Qed.

Lemma emitted_rows resp rows r :
  emitted_departures resp = Ok rows -> In r rows ->
  exists included item, departure_body included item = Ok (Some r).
Proof.
  unfold emitted_departures. intros H Hin.
  destruct (truthy (dget resp "error" JNull)).
  - injection H as <-. destruct Hin.
  - peel H as included Hinc. peel H as data Hdata.
    destruct (for_rows_ok _ _ _ H) as (rs & Hall & ->). clear H Hdata.
    induction Hall as [|item o items rs Hitem _ IH]; simpl in Hin.
    + destruct Hin.
    + apply in_app_or in Hin. destruct Hin as [Hin | Hin]; [|now apply IH].
      destruct o as [r'|]; [|destruct Hin].
      destruct Hin as [<- | []]. now exists included, item.
Qed.

(** X6. Every row of the departures frame has a scheduled or an
    estimated departure time, and its Status is the Status Deriver's
    verdict on those two at the 2-minute threshold; in particular a
    departure known only from its schedule is reported Cancelled.  The
    raw arrivals rows carry the verdict on their own two times. *)
Theorem row_status_is_derived resp :
  (forall out, parse_departures resp = Ok out ->
     Forall (fun r =>
               is_some (best_time r) = true /\
               out_Status r
               = _derive_status (out_Scheduled_Departure_Time r)
                                (out_Actual_Estimated_Departure_Time r) 2 /\
               (out_Actual_Estimated_Departure_Time r = None ->
                out_Status r = Cancelled)) out) /\
  (forall raw, _parse_arrivals_raw resp = Ok raw ->
     Forall (fun r =>
               arrival_Status r
               = _derive_status (Scheduled_Arrival_Time r)
                                (Actual_Estimated_Arrival_Time r) 2) raw).
Proof.
  split.
  - intros out H. rewrite parse_departures_eq in H.
    peel H as rows Hrows. injection H as <-.
    apply Forall_forall. intros o Ho. unfold drop_sort_time in Ho.
    apply in_map_iff in Ho. destruct Ho as (r & <- & Hr).
    apply in_sort_values in Hr.
    destruct (emitted_rows resp rows r Hrows Hr) as (included & item & Hbody).
    destruct (departure_body_row _ _ _ Hbody) as [_ Hst].
    pose proof (departure_body_has_time _ _ _ Hbody) as Htime.
    rewrite (departure_body_sort_time _ _ _ Hbody) in Htime.
    unfold best_time. simpl. split; [exact Htime|]. split; [exact Hst|].
    intros Hnone. rewrite Hst, Hnone. reflexivity.
  - intros raw H. unfold _parse_arrivals_raw in H.
    destruct (truthy (dget resp "error" JNull)).
    + injection H as <-. constructor.
    + peel H as included Hinc. peel H as data Hdata. peel H as rows Hrows.
      assert (raw = rows) by (destruct rows; inversion H; reflexivity).
      subst rows. clear H Hdata.
      destruct (for_rows_ok _ _ _ Hrows) as (rs & Hall & ->). clear Hrows.
      induction Hall as [|item o items rs Hitem _ IH]; simpl.
      * constructor.
      * destruct o as [r|]; simpl; [|exact IH].
        constructor; [|exact IH].
        now destruct (arrival_body_row _ _ _ Hitem).
Qed.

End RowFacts.

Lemma prediction_one_direction_witness :
  key_eqb (coerce_direction (JInt 0)) (JInt 0) = true.
Proof.
  destruct (prediction_one_direction (env := Cpython.env)
              (map (fun inc => (resource_key inc, inc)) Sample.dep_included)
              Sample.dep_ashmont_0703
              (Some (mk_departure (JStr "Ashmont") None
                       (Some (Cpython.wall_of 2024 1 1 13 3 0 0)) On_Time
                       (Some (Cpython.wall_of 2024 1 1 13 3 0 0))))
              None) as [_ H].
  - vm_compute. reflexivity.
  - vm_compute. reflexivity.
  - apply (H (JDict [("direction_id"%string, JInt 0);
                     ("arrival_time"%string, JNull);
                     ("departure_time"%string, JStr "2024-01-01T13:03:00Z")])
             (JInt 0)); reflexivity.
Defined.

(** An outbound train known only from its schedule is Cancelled; a
    prediction whose direction is the string 1 is an arrival. *)
Lemma mixed_directions_sample :
  parse_departures (env := Cpython.env) MoreSamples.mixed_directions
  = Ok [mk_departure_out (JStr "Ashmont") None
          (Some (Cpython.wall_of 2024 1 1 13 3 0 0)) On_Time;
        mk_departure_out (JStr "Ashmont")
          (Some (Cpython.wall_of 2024 1 1 13 4 0 0)) None Cancelled] /\
  _parse_arrivals_raw (env := Cpython.env) MoreSamples.mixed_directions
  = Ok [mk_arrival_raw JNull None (Some (Cpython.wall_of 2024 1 1 13 6 0 0))
          On_Time (Some (Cpython.wall_of 2024 1 1 13 6 0 0))].
Proof. vm_compute. split; reflexivity. Qed.

(** ** Shapes, again *)

Section ShapeFacts.

Context {env : PyEnv}.

Lemma point_loop_paired pts :
  forall acc out,
    List.length (fst acc) = List.length (snd acc) ->
    for_state point_body pts acc = Ok out ->
    List.length (fst out) = List.length (snd out).
Proof.
  induction pts as [|pt pts IH]; intros acc out Hacc H; simpl in H.
  - injection H as <-. exact Hacc.
  - peel H as acc' Hbody. apply (IH acc' out); [|exact H].
    unfold point_body in Hbody. destruct pt; try (injection Hbody as <-; exact Hacc).
    match type of Hbody with
    | (if ?c then _ else _) = _ => destruct c
    end; [|injection Hbody as <-; exact Hacc].
    peel Hbody as la Hla. peel Hbody as lo Hlo. injection Hbody as <-.
    simpl. rewrite !length_app. simpl. lia.
Qed.

Lemma decode_paired item lons lats :
  _decode_shape_to_lons_lats item = Ok (Some (lons, lats)) ->
  List.length lons = List.length lats /\ (0 < List.length lons)%nat.
Proof.
  unfold _decode_shape_to_lons_lats. intros H.
  peel H as a Ha. peel H as encoded Henc.
  assert (Hpoints :
            (p <- vget (por a (JDict [])) "points" JNull ;;
             (if negb (truthy (por p (JList []))) then Ok None
              else
                pts <- iter (por p (JList [])) ;;
                acc <- for_state point_body pts ([], []) ;;
                match fst acc, snd acc with
                | _ :: _, _ :: _ => Ok (Some (snd acc, fst acc))
                | _, _ => Ok None
                end)) = Ok (Some (lons, lats)) ->
            List.length lons = List.length lats /\ (0 < List.length lons)%nat).
  { clear H. intros H. peel H as p Hp.
    destruct (negb (truthy (por p (JList [])))); [discriminate H|].
    peel H as pts Hpts. peel H as acc Hacc.
    pose proof (point_loop_paired pts ([], []) acc eq_refl Hacc) as Hlen.
    destruct acc as [la lo]. simpl in *.
    destruct la as [|x la]; [discriminate H|].
    destruct lo as [|y lo]; [discriminate H|].
    injection H as <- <-. simpl in *. split; lia. }
  destruct encoded as [| | | |s| |]; try (apply Hpoints; exact H).
  destruct s as [|c rest]; [apply Hpoints; exact H|].
  destruct pl as [decode|]; [|apply Hpoints; exact H].
  destruct (decode (String c rest)) as [[|pt coords]|]; try discriminate H.
  injection H as <- <-. simpl. rewrite !length_map. split; lia.
Qed.

(** X7. Every segment [parse_red_line_shape] returns has as many
    longitudes as latitudes and at least one of each.  When the polyline
    package is there and a shape carries a non-empty polyline string,
    nothing else of the shape is read: two such shapes with the same
    polyline decode alike, whatever points they list. *)
Theorem decoded_segments_are_paired :
  (forall resp segments,
      parse_red_line_shape resp = Ok segments ->
      Forall (fun s => List.length (fst s) = List.length (snd s) /\
                       (0 < List.length (fst s))%nat) segments) /\
  (forall decode item item' a a' s,
      pl = Some decode -> s <> EmptyString ->
      vget item "attributes" JNull = Ok a ->
      vget item' "attributes" JNull = Ok a' ->
      vget (por a (JDict [])) "polyline" JNull = Ok (JStr s) ->
      vget (por a' (JDict [])) "polyline" JNull = Ok (JStr s) ->
      _decode_shape_to_lons_lats item = _decode_shape_to_lons_lats item' /\
      returns (_decode_shape_to_lons_lats item)).
Proof.
  split.
  - intros resp segments H. unfold parse_red_line_shape in H.
    destruct (truthy (dget resp "error" JNull)).
    + injection H as <-. constructor.
    + peel H as data Hdata.
      destruct (for_rows_ok _ _ _ H) as (rs & Hall & ->). clear H Hdata.
      induction Hall as [|item o items rs Hitem _ IH]; simpl.
      * constructor.
      * destruct o as [[lons lats]|]; simpl; [|exact IH].
        constructor; [|exact IH]. now apply (decode_paired item).
  - intros decode item item' a a' s Hpl Hs Ha Ha' Hp Hp'.
    unfold _decode_shape_to_lons_lats.
    rewrite Ha, Ha'. simpl bind. rewrite Hp, Hp'. simpl bind. rewrite Hpl.
    destruct s as [|c rest]; [contradiction|]. split; [reflexivity|].
    destruct (decode (String c rest)) as [[|pt coords]|]; eexists; reflexivity.
Qed.

Lemma merged_route_loop routes :
  forall acc out,
    for_state merged_route_body routes acc = Ok out ->
    out = acc ++ flat_map route_entry routes.
Proof.
  induction routes as [|[rid resp] routes IH]; intros acc out H.
  - simpl in H. injection H as <-. simpl. now rewrite app_nil_r.
  - change (for_state merged_route_body ((rid, resp) :: routes) acc)
      with (bind (merged_route_body acc (rid, resp))
                 (fun st => for_state merged_route_body routes st)) in H.
    peel H as acc' Hbody. apply IH in H. subst out.
    change (flat_map route_entry ((rid, resp) :: routes))
      with (route_entry (rid, resp) ++ flat_map route_entry routes).
    assert (Hacc : acc' = acc ++ route_entry (rid, resp)).
    { unfold route_entry. unfold merged_route_body in Hbody.
      simpl fst. simpl snd.
      destruct (truthy (dget resp "error" JNull)).
      - injection Hbody as <-. now rewrite app_nil_r.
      - peel Hbody as merged Hmerged. rewrite Hmerged.
        destruct merged as [m|]; injection Hbody as <-;
          [reflexivity | now rewrite app_nil_r]. }
    rewrite Hacc. now rewrite <- app_assoc.
Qed.

(** X8. When [parse_merged_shapes_by_route] returns, its mapping lists,
    in the order of its argument, exactly the routes whose response is
    not error-flagged and has a decodable shape, each with that route's
    merged geometry; every other route is left out. *)
Theorem merged_by_route_entries routes out :
  parse_merged_shapes_by_route routes = Ok out ->
  out = flat_map route_entry routes /\
  (forall rid merged,
      In (rid, merged) out ->
      exists resp, In (rid, resp) routes /\
                   truthy (dget resp "error" JNull) = false /\
                   parse_route_shapes_merged resp = Ok (Some merged)).
Proof.
  unfold parse_merged_shapes_by_route. intros H.
  pose proof (merged_route_loop routes [] out H) as Hout. simpl in Hout.
  split; [exact Hout|]. subst out. clear H.
  intros rid merged Hin. apply in_flat_map in Hin.
  destruct Hin as ([rid' resp] & Hroute & Hentry).
  unfold route_entry in Hentry. simpl in Hentry.
  destruct (truthy (dget resp "error" JNull)) eqn:Eerr; [destruct Hentry|].
  destruct (parse_route_shapes_merged resp) as [[m|]|e] eqn:Em;
    try destruct Hentry.
  - injection H as <- <-. exists resp. repeat split; assumption.
  - destruct H.
Qed.

End ShapeFacts.

Lemma decoded_segments_are_paired_witness :
  _decode_shape_to_lons_lats (env := Cpython.env) MoreSamples.shape_both
  = _decode_shape_to_lons_lats (env := Cpython.env) Sample.shape_truncated.
Proof.
  destruct (decoded_segments_are_paired (env := Cpython.env)) as [_ H].
  apply (H Cpython.decode MoreSamples.shape_both Sample.shape_truncated
           (JDict [("polyline"%string, JStr "_p~iF~ps|U_ulLnnqC_mqNvxq`");
                   ("points"%string,
                    JList [Sample.point (JFloat (4239 # 100))
                                        (JFloat (-7112 # 100))])])
           (JDict [("polyline"%string, JStr "_p~iF~ps|U_ulLnnqC_mqNvxq`")])
           "_p~iF~ps|U_ulLnnqC_mqNvxq`"%string); reflexivity || discriminate.
Defined.

(** A polyline that does not decode leaves the shape without a segment
    even when its points would have made one. *)
Lemma polyline_failure_hides_points :
  _decode_shape_to_lons_lats (env := Cpython.env) MoreSamples.shape_both
  = Ok None /\
  _decode_shape_to_lons_lats (env := Cpython.env_bare) MoreSamples.shape_both
  = Ok (Some ([-7112 # 100], [4239 # 100])).
Proof. vm_compute. split; reflexivity. Qed.

Lemma merged_by_route_entries_witness :
  exists red green,
    flat_map (route_entry (env := Cpython.env)) MoreSamples.routes
    = [("Red"%string, red); ("Green-B"%string, green)].
Proof.
  destruct (merged_by_route_entries (env := Cpython.env) MoreSamples.routes
              [("Red"%string,
                ([-12020000 # 100000; -12095000 # 100000; -12645300 # 100000],
                 [3850000 # 100000; 4070000 # 100000; 4325200 # 100000]));
               ("Green-B"%string,
                ([-7112 # 100; -711 # 10], [4239 # 100; 1059 # 25]))])
    as [Hout _].
  - vm_compute. reflexivity.
  - do 2 eexists. symmetry. exact Hout.
Defined.

(** ** The vehicle-to-stop map *)

Section VehicleStops.

Context {env : PyEnv}.

(** A stop id that is null, or that the included array does not hold,
    gives the sentinel and no error. *)
Lemma stop_name_unknown included stop_id :
  truthy stop_id = false \/
  (hashable stop_id = true /\
   pm_get tuple_eqb (JStr "stop", stop_id) included = None) ->
  stop_name_of included stop_id = Ok (JStr "Unknown").
Proof.
  unfold stop_name_of, included_get. intros [Hfalsy | [Hhash Hmiss]].
  - now rewrite Hfalsy.
  - rewrite Hhash, Hmiss. now destruct (truthy stop_id).
Qed.

Lemma vehicle_stop_body_ok included out item out' :
  vehicle_stop_body included out item = Ok out' ->
  exists vid stop_id name,
    vget item "id" JNull = Ok vid /\ hashable vid = true /\
    vehicle_stop_id item = Ok stop_id /\
    stop_name_of included stop_id = Ok name /\
    out' = pm_set key_eqb vid name out.
Proof.
  unfold vehicle_stop_body, vehicle_stop_id. intros H.
  peel H as vid Hvid. peel H as r Hr. peel H as s Hs. peel H as stop_ref Href.
  peel H as name Hname.
  destruct (hashable vid) eqn:Ehash; [|discriminate H]. injection H as <-.
  rewrite Hr. simpl bind. rewrite Hs. simpl bind. rewrite Href. simpl bind.
  exists vid. eexists. exists name. repeat split; try eassumption; reflexivity.
Qed.

Lemma vehicle_stop_loop included items :
  forall seen m out,
    (forall item, In item seen ->
       exists vid name, vget item "id" JNull = Ok vid /\
                        pm_get key_eqb vid m = Some name) ->
    (forall vid name, pm_get key_eqb vid m = Some name ->
       exists item vid' stop_id,
         In item seen /\ vget item "id" JNull = Ok vid' /\
         key_eqb vid vid' = true /\
         vehicle_stop_id item = Ok stop_id /\
         stop_name_of included stop_id = Ok name) ->
    for_state (vehicle_stop_body included) items m = Ok out ->
    (forall item, In item (seen ++ items) ->
       exists vid name, vget item "id" JNull = Ok vid /\
                        pm_get key_eqb vid out = Some name) /\
    (forall vid name, pm_get key_eqb vid out = Some name ->
       exists item vid' stop_id,
         In item (seen ++ items) /\ vget item "id" JNull = Ok vid' /\
         key_eqb vid vid' = true /\
         vehicle_stop_id item = Ok stop_id /\
         stop_name_of included stop_id = Ok name).
Proof.
  induction items as [|x items IH]; intros seen m out I1 I2 H.
  - simpl in H. injection H as <-. rewrite app_nil_r. now split.
  - simpl in H. peel H as m' Hbody.
    replace (seen ++ x :: items) with ((seen ++ [x]) ++ items)
      by (rewrite <- app_assoc; reflexivity).
    destruct (vehicle_stop_body_ok _ _ _ _ Hbody)
      as (v & sid & nm & Hv & Hhash & Hsid & Hnm & ->).
    apply (IH (seen ++ [x]) (pm_set key_eqb v nm m) out); [| |exact H];
      clear IH H.
    + intros item Hin. apply in_app_or in Hin.
      destruct Hin as [Hin | [<- | []]].
      * destruct (I1 item Hin) as (vid & name & Hvid & Hget).
        exists vid.
        rewrite (pm_get_after_set key_eqb key_eqb_sym key_eqb_left).
        destruct (key_eqb vid v); eauto.
      * exists v, nm. split; [exact Hv|].
        rewrite (pm_get_after_set key_eqb key_eqb_sym key_eqb_left).
        now rewrite (key_eqb_refl v Hhash).
    + intros vid name Hget.
      rewrite (pm_get_after_set key_eqb key_eqb_sym key_eqb_left) in Hget.
      destruct (key_eqb vid v) eqn:Ek.
      * injection Hget as <-. exists x, v, sid.
        split; [apply in_or_app; right; now left|]. repeat split; assumption.
      * destruct (I2 vid name Hget) as (item & vid' & sid' & Hin & Hrest).
        exists item, vid', sid'. split; [apply in_or_app; now left | exact Hrest].
Qed.

(** X9. When [_vehicle_to_stop_map] returns, every vehicle of the
    payload has an entry, and every entry is the stop name computed for
    a vehicle of the payload with that id; the name is the sentinel
    Unknown, not an error, when the vehicle points at no stop or at a
    stop the included array does not hold. *)
Theorem vehicle_to_stop_covers resp included items m :
  truthy (dget resp "error" JNull) = false ->
  _build_included_lookup (dget resp "included" (JList [])) = Ok included ->
  iter (dget resp "data" (JList [])) = Ok items ->
  _vehicle_to_stop_map resp = Ok m ->
  (forall item, In item items ->
     exists vid name, vget item "id" JNull = Ok vid /\
                      pm_get key_eqb vid m = Some name) /\
  (forall vid name, pm_get key_eqb vid m = Some name ->
     exists item vid' stop_id,
       In item items /\ vget item "id" JNull = Ok vid' /\
       key_eqb vid vid' = true /\
       vehicle_stop_id item = Ok stop_id /\
       stop_name_of included stop_id = Ok name /\
       (truthy stop_id = false \/
        pm_get tuple_eqb (JStr "stop", stop_id) included = None ->
        name = JStr "Unknown")).
Proof.
  intros Herr Hinc Hdata H. unfold _vehicle_to_stop_map in H.
  rewrite Herr, Hinc, Hdata in H. simpl bind in H.
  destruct (vehicle_stop_loop included items [] [] m) as [H1 H2];
    [intros item [] | intros vid name Hget; discriminate Hget | exact H |].
  split; [exact H1|].
  intros vid name Hget.
  destruct (H2 vid name Hget) as (item & vid' & sid & Hin & Hid & Hk & Hsid & Hnm).
  exists item, vid', sid. repeat split; try assumption.
  intros Hmiss.
  assert (Hu : stop_name_of included sid = Ok (JStr "Unknown")).
  { destruct Hmiss as [Hf | Hm]; [apply stop_name_unknown; now left|].
    unfold stop_name_of, included_get in *. rewrite Hm in *.
    destruct (truthy sid); [|reflexivity].
    destruct (hashable sid); [reflexivity | discriminate Hnm]. }
  rewrite Hu in Hnm. now injection Hnm as <-.
Qed.

End VehicleStops.

Lemma vehicle_to_stop_covers_witness :
  exists vid name,
    vget (Sample.vehicle "R-3" (JInt 42) (JInt (-71)) Sample.no_ref)
         "id" JNull = Ok vid /\
    pm_get key_eqb vid
           [(JStr "R-1", JStr "Davis"); (JStr "R-2", JStr "Porter");
            (JStr "R-3", JStr "Unknown")] = Some name.
Proof.
  destruct (vehicle_to_stop_covers Sample.vehicles
              (map (fun inc => (resource_key inc, inc))
                   [Sample.stop "70063" "Davis"; Sample.stop "70065" "Porter"])
              [Sample.vehicle "R-1" (JFloat (4239 # 100)) (JFloat (-7112 # 100))
                              (Sample.ref "stop" "70063");
               Sample.vehicle "R-2" (JStr "42.36") (JStr "-71.1")
                              (Sample.ref "stop" "70065");
               Sample.vehicle "R-3" (JInt 42) (JInt (-71)) Sample.no_ref]
              [(JStr "R-1", JStr "Davis"); (JStr "R-2", JStr "Porter");
               (JStr "R-3", JStr "Unknown")]) as [H _].
  - reflexivity.
  - reflexivity.
  - reflexivity.
  - reflexivity.
  - apply H. right. right. left. reflexivity.
Defined.

(** ** Rows of the alerts frame *)

Section AlertRows.

Context {env : PyEnv}.

Lemma substring_length_le n s : (String.length (substring 0 n s) <= n)%nat.
Proof.
  revert s. induction n as [|n IH]; intros s.
  - destruct s; simpl; lia.
  - destruct s as [|c s]; simpl; [lia|]. specialize (IH s). lia.
Qed.

Lemma alert_body_shape now item row :
  alert_body now item = Ok (Some row) ->
  (Status row = Active \/ Status row = Inactive) /\
  (forall s, Description row = JStr s -> (String.length s <= 200)%nat) /\
  (forall attrs ap,
      vget item "attributes" (JDict []) = Ok attrs ->
      vget attrs "active_period" JNull = Ok ap ->
      truthy ap = false ->
      Start_Time row = None /\ End_Time row = None /\ Status row = Inactive).
Proof.
  intros H. unfold alert_body in H.
  peel H as attrs Hattrs. peel H as sev Hsev. peel H as label Hlabel.
  peel H as d1 Hd1. peel H as d2 Hd2. peel H as d3 Hd3.
  peel H as ap Hap. peel H as times Htimes. peel H as descr Hdescr.
  injection H as <-. simpl. split; [|split].
  - destruct (alert_active now (fst times) (snd times)); [now left | now right].
  - intros s Hs. subst descr.
    destruct (truthy (por (por (por d1 d2) d3) (JStr EmptyString))).
    + destruct (por (por (por d1 d2) d3) (JStr EmptyString));
        try discriminate Hdescr; injection Hdescr as <-.
      apply substring_length_le.
    + injection Hdescr as <-. simpl. lia.
  - intros attrs' ap' Hattrs' Hap' Hfalsy.
    rewrite Hattrs in Hattrs'. injection Hattrs' as <-.
    rewrite Hap in Hap'. injection Hap' as <-.
    unfold por in Htimes. rewrite Hfalsy in Htimes. simpl in Htimes.
    injection Htimes as <-. simpl. repeat split; reflexivity.
Qed.

(** X10. [parse_alerts] returns one row per alert, in input order: the
    row at each position is the row the loop body makes of the alert at
    that position.  A Description that is text has at most 200
    characters; Status is Active or Inactive; and an alert without
    active periods is Inactive with null Start and End. *)
Theorem alerts_one_row_each now resp items rows :
  truthy (dget resp "error" JNull) = false ->
  iter (dget resp "data" (JList [])) = Ok items ->
  parse_alerts now resp = Ok rows ->
  List.length rows = List.length items /\
  Forall2
    (fun item row =>
       alert_body now item = Ok (Some row) /\
       (Status row = Active \/ Status row = Inactive) /\
       (forall s, Description row = JStr s -> (String.length s <= 200)%nat) /\
       (forall attrs ap,
           vget item "attributes" (JDict []) = Ok attrs ->
           vget attrs "active_period" JNull = Ok ap ->
           truthy ap = false ->
           Start_Time row = None /\ End_Time row = None /\
           Status row = Inactive))
    items rows.
Proof.
  intros Herr Hdata H.
  pose proof (parse_alerts_rows now resp items rows Herr Hdata H) as Hrows.
  split.
  - symmetry. exact (Forall2_length Hrows).
  - clear H Hdata. induction Hrows as [|item row items rows Hrow _ IH].
    + constructor.
    + constructor; [|exact IH].
      split; [exact Hrow | exact (alert_body_shape now item row Hrow)].
Qed.

End AlertRows.

Lemma alerts_one_row_each_witness :
  List.length
    [mk_alert "7" (JStr (substring 0 200 MoreSamples.long_text)) None None Inactive;
     mk_alert "Information" (JStr "Elevator closed")
              (Some (Cpython.wall_of 2023 12 31 5 0 0 0)) None Active]
  = 2%nat.
Proof.
  destruct (alerts_one_row_each (env := Cpython.env) Sample.now
              (Sample.alerts [MoreSamples.alert_long; Sample.alert_open_ended])
              [MoreSamples.alert_long; Sample.alert_open_ended]
              [mk_alert "7" (JStr (substring 0 200 MoreSamples.long_text))
                        None None Inactive;
               mk_alert "Information" (JStr "Elevator closed")
                        (Some (Cpython.wall_of 2023 12 31 5 0 0 0)) None Active])
    as [Hlen _].
  - reflexivity.
  - reflexivity.
  - vm_compute. reflexivity.
  - exact Hlen.
Defined.

(** ** The enriched vehicle list *)

Section EnrichedFacts.

Context {env : PyEnv} {hover : PyHover}.

Lemma trip_labels_direction included item d s :
  trip_labels included item = Ok (d, s) ->
  s = DASH \/ s = Southbound \/ s = Northbound.
Proof.
  intros H. unfold trip_labels in H.
  peel H as r Hr. peel H as t Ht. peel H as trip_ref Href.
  destruct (truthy _); [|inversion H; now left].
  peel H as trip Htrip.
  destruct (truthy trip); [|inversion H; now left].
  peel H as a Ha. peel H as h Hh. peel H as did Hdid.
  inversion H.
  destruct (is_none did); [now left|].
  destruct (py_eq did (JInt 0)); [right; now left | right; now right].
Qed.

(** What the body makes of one basic entry. *)
Lemma enriched_body_ok resp included ns v o :
  enriched_body resp included ns v = Ok (Some o) ->
  base o = v /\
  (direction o = DASH \/ direction o = Southbound \/ direction o = Northbound) /\
  match pm_get key_eqb (position_vehicle_id v) ns with
  | None =>
      next_stop_name o = JStr DASH /\ next_stop_time_expected o = DASH /\
      hover_minutes_behind o = None
  | Some e =>
      next_stop_name o = por (stop_name e) (JStr DASH) /\
      expected_clock (expected_time e) = Ok (next_stop_time_expected o) /\
      hover_minutes_behind o = option_map round1 (minutes_behind e)
  end.
Proof.
  intros H. unfold enriched_body in H.
  peel H as data Hdata. peel H as item Hitem. peel H as labels Hlabels.
  destruct (hashable (position_vehicle_id v)); [|discriminate H].
  peel H as clock Hclock. injection H as <-. simpl.
  split; [reflexivity|]. split.
  - destruct labels as [d s]. simpl.
    destruct item as [item|]; [|inversion Hlabels; now left].
    destruct (truthy item); [|inversion Hlabels; now left].
    exact (trip_labels_direction included item d s Hlabels).
  - destruct (pm_get key_eqb (position_vehicle_id v) ns) as [e|].
    + repeat split; [exact Hclock].
    + inversion Hclock. repeat split.
Qed.

Lemma enriched_body_some resp included ns v r :
  enriched_body resp included ns v = Ok r -> exists o, r = Some o.
Proof.
  intros H. unfold enriched_body in H.
  peel H as data Hdata. peel H as item Hitem. peel H as labels Hlabels.
  destruct (hashable (position_vehicle_id v)); [|discriminate H].
  peel H as clock Hclock. inversion H. eauto.
Qed.

(** A list that comes back was built entry by entry from the basic list,
    against one next-stop mapping. *)
Lemma enriched_rows now resp preds out :
  parse_vehicles_for_map_enriched now resp preds = Ok out ->
  exists base_list,
    parse_vehicles_for_map resp = Ok base_list /\
    ((base_list = [] /\ out = []) \/
     exists ns included,
       _next_stop_by_vehicle now (match preds with Some p => p | None => [] end)
       = Ok ns /\
       Forall2 (fun v o => enriched_body resp included ns v = Ok (Some o))
               base_list out).
Proof.
  intros H. unfold parse_vehicles_for_map_enriched in H.
  peel H as base_list Hbase. exists base_list. split; [exact Hbase|].
  destruct base_list as [|v rest].
  - left. inversion H. split; reflexivity.
  - right. peel H as ns Hns. peel H as included Hinc.
    exists ns, included. split; [exact Hns|].
    apply for_rows_all_some; [|exact H].
    intros x r. apply enriched_body_some.
Qed.

(** X11. The enriched list extends the basic one: its entries carry the
    entries of [parse_vehicles_for_map], each once and in order, with
    position, bearing and id unchanged; and the direction shown is
    Southbound, Northbound or the placeholder. *)
Theorem enriched_extends_base now resp preds out :
  parse_vehicles_for_map_enriched now resp preds = Ok out ->
  parse_vehicles_for_map resp = Ok (map base out) /\
  Forall (fun o => direction o = DASH \/ direction o = Southbound \/
                   direction o = Northbound) out.
Proof.
  intros H.
  destruct (enriched_rows now resp preds out H)
    as (base_list & Hbase & [[-> ->] | (ns & included & _ & Hall)]).
  - split; [exact Hbase | constructor].
  - rewrite Hbase. clear H Hbase.
    induction Hall as [|v o vs os Hvo _ [IH1 IH2]].
    + split; [reflexivity | constructor].
    + destruct (enriched_body_ok resp included ns v o Hvo) as (Hb & Hd & _).
      split.
      * simpl. rewrite Hb. injection IH1 as ->. reflexivity.
      * constructor; assumption.
Qed.

Lemma next_stop_none_or_error now preds :
  preds = None \/
  (exists p, preds = Some p /\ truthy (dget p "error" JNull) = true) ->
  _next_stop_by_vehicle now (match preds with Some p => p | None => [] end)
  = Ok [].
Proof.
  intros [-> | (p & -> & Herr)].
  - reflexivity.
  - unfold _next_stop_by_vehicle. now rewrite Herr.
Qed.

(** X12. Without predictions, whether the argument is [None] or an
    error payload, every entry shows the placeholder for the next stop
    and its time, and no delay. *)
Theorem enriched_without_predictions now resp preds out :
  preds = None \/
  (exists p, preds = Some p /\ truthy (dget p "error" JNull) = true) ->
  parse_vehicles_for_map_enriched now resp preds = Ok out ->
  Forall (fun o => next_stop_name o = JStr DASH /\
                   next_stop_time_expected o = DASH /\
                   hover_minutes_behind o = None) out.
Proof.
  intros Hpreds H.
  destruct (enriched_rows now resp preds out H)
    as (base_list & _ & [[_ ->] | (ns & included & Hns & Hall)]).
  - constructor.
  - rewrite (next_stop_none_or_error now preds Hpreds) in Hns.
    injection Hns as <-. clear H.
    induction Hall as [|v o vs os Hvo _ IH]; constructor; [|exact IH].
    destruct (enriched_body_ok resp included [] v o Hvo) as (_ & _ & Hns).
    exact Hns.
Qed.

(** X13. With predictions, an entry shows the earliest future prediction
    of its vehicle: when the payload has none for that vehicle the next
    stop and its time are the placeholder; when it has one, the time
    shown is the clock reading of a future prediction for that vehicle
    that is no later than any other. *)
Theorem enriched_shows_earliest now resp p items out o :
  truthy (dget p "error" JNull) = false ->
  iter (dget p "data" (JList [])) = Ok items ->
  parse_vehicles_for_map_enriched now resp (Some p) = Ok out ->
  In o out ->
  ((forall item vid t,
       In item items -> future_prediction now item vid t ->
       key_eqb (position_vehicle_id (base o)) vid = false) ->
   next_stop_name o = JStr DASH /\ next_stop_time_expected o = DASH /\
   hover_minutes_behind o = None) /\
  ((exists item vid t,
       In item items /\ future_prediction now item vid t /\
       key_eqb (position_vehicle_id (base o)) vid = true) ->
   exists item' vid' t',
     In item' items /\ future_prediction now item' vid' t' /\
     key_eqb (position_vehicle_id (base o)) vid' = true /\
     expected_clock t' = Ok (next_stop_time_expected o) /\
     forall item vid t,
       In item items -> future_prediction now item vid t ->
       key_eqb (position_vehicle_id (base o)) vid = true -> t' <= t).
Proof.
  intros Herr Hdata H Hin.
  destruct (enriched_rows now resp (Some p) out H)
    as (base_list & _ & [[_ ->] | (ns & included & Hns & Hall)]);
    [destruct Hin|].
  assert (Hbody : exists v, enriched_body resp included ns v = Ok (Some o)).
  { clear H. induction Hall as [|v o' vs os Hvo _ IH]; [destruct Hin|].
    destruct Hin as [<- | Hin]; [eauto | exact (IH Hin)]. }
  destruct Hbody as (v & Hbody).
  destruct (enriched_body_ok resp included ns v o Hbody) as (Hb & _ & Hshown).
  rewrite Hb. clear H Hall Hbody Hin Hb.
  unfold _next_stop_by_vehicle in Hns. rewrite Herr in Hns.
  peel Hns as inc Hinc. rewrite Hdata in Hns. simpl bind in Hns.
  destruct (next_stop_loop inc now items [] [] ns) as [Hcover Hfrom];
    [intros item vid t [] | intros vid e Hget; discriminate Hget | exact Hns |].
  simpl app in Hcover, Hfrom. split.
  - intros Hnone.
    destruct (pm_get key_eqb (position_vehicle_id v) ns) as [e|] eqn:Hget;
      [|exact Hshown].
    destruct (Hfrom _ e Hget) as (item & vid & Hitem & Hfp & Hkey).
    rewrite (Hnone item vid _ Hitem Hfp) in Hkey. discriminate Hkey.
  - intros (item0 & vid0 & t0 & Hitem0 & Hfp0 & Hkey0).
    destruct (Hcover item0 vid0 t0 Hitem0 Hfp0) as (e & Hget0 & _).
    rewrite <- (pm_get_eqb _ _ ns Hkey0) in Hget0.
    rewrite Hget0 in Hshown. destruct Hshown as (_ & Hclock & _).
    destruct (Hfrom _ e Hget0) as (item' & vid' & Hitem' & Hfp' & Hkey').
    exists item', vid', (expected_time e).
    repeat split; try assumption.
    intros item vid t Hitem Hfp Hkey.
    destruct (Hcover item vid t Hitem Hfp) as (e2 & Hget2 & Hle).
    rewrite <- (pm_get_eqb _ _ ns Hkey) in Hget2.
    rewrite Hget0 in Hget2. injection Hget2 as <-. exact Hle.
Qed.

(** X14. The enriched list looks each vehicle up by its id, so it
    raises where the basic list returned: a vehicle with coordinates
    whose id is a list or a dict is in the basic list and makes the
    enriched one fail. *)
Theorem enriched_unhashable_id_raises now resp preds base_list v :
  parse_vehicles_for_map resp = Ok base_list ->
  In v base_list ->
  hashable (position_vehicle_id v) = false ->
  raises (parse_vehicles_for_map_enriched now resp preds).
Proof.
  intros Hbase Hin Hhash. unfold parse_vehicles_for_map_enriched.
  rewrite Hbase. simpl bind.
  destruct base_list as [|v0 rest]; [destruct Hin|].
  apply bind_raises_r. intros ns _.
  apply bind_raises_r. intros included _.
  apply (for_rows_raises _ _ v Hin).
  unfold enriched_body.
  apply bind_raises_r. intros data _.
  apply bind_raises_r. intros item _.
  apply bind_raises_r. intros labels _.
  rewrite Hhash. exists TypeError. reflexivity.
Qed.

End EnrichedFacts.

Lemma enriched_sample :
  parse_vehicles_for_map_enriched (env := Cpython.env)
    (hover := CpythonHover.hover) Sample.now HoverSamples.trains
    (Some Sample.all_stops)
  = Ok HoverSamples.enriched_trains.
Proof. vm_compute. reflexivity. Qed.

Lemma enriched_extends_base_witness :
  parse_vehicles_for_map (env := Cpython.env) HoverSamples.trains
  = Ok (map base HoverSamples.enriched_trains).
Proof.
  destruct (enriched_extends_base (env := Cpython.env)
              (hover := CpythonHover.hover) Sample.now HoverSamples.trains
              (Some Sample.all_stops) HoverSamples.enriched_trains)
    as [Hbase _].
  - vm_compute. reflexivity.
  - exact Hbase.
Defined.

Lemma enriched_without_predictions_witness :
  Forall (fun o => next_stop_name o = JStr DASH /\
                   next_stop_time_expected o = DASH /\
                   hover_minutes_behind o = None)
         HoverSamples.plain_trains.
Proof.
  apply (enriched_without_predictions (env := Cpython.env)
           (hover := CpythonHover.hover) Sample.now HoverSamples.trains None).
  - left. reflexivity.
  - vm_compute. reflexivity.
Defined.

Lemma enriched_shows_earliest_witness :
  exists t',
    expected_clock (env := Cpython.env) (hover := CpythonHover.hover) t'
    = Ok "08:05"%string /\
    t' <= Sample.now + 720000000.
Proof.
  destruct (enriched_shows_earliest (env := Cpython.env)
              (hover := CpythonHover.hover) Sample.now HoverSamples.trains
              Sample.all_stops _ HoverSamples.enriched_trains
              (mk_enriched (HoverSamples.at_4239_7112 "R-1") (JStr "Ashmont")
                           Southbound (JStr "Porter") "08:05" (Some (3 # 2)))
              eq_refl eq_refl)
    as [_ Hsome].
  - vm_compute. reflexivity.
  - left. reflexivity.
  - assert (Hfp : future_prediction (env := Cpython.env) Sample.now
                    (Sample.prediction "n12" 1 (JStr "2024-01-01T13:12:00Z")
                       JNull (Sample.ref "vehicle" "R-1") Sample.no_ref
                       Sample.no_ref (Sample.ref "stop" "70063"))
                    (JStr "R-1") (Sample.now + 720000000)).
    { do 4 eexists.
      split; [reflexivity|]. split; [reflexivity|]. split; [reflexivity|].
      split; [reflexivity|]. split; [reflexivity|]. split; [reflexivity|].
      split; [vm_compute; reflexivity | vm_compute; discriminate]. }
    destruct Hsome as (item' & vid' & t' & _ & _ & _ & Hclock & Hmin).
    + eexists _, (JStr "R-1"), (Sample.now + 720000000).
      split; [left; reflexivity|]. split; [exact Hfp | reflexivity].
    + exists t'. split; [exact Hclock|].
      apply (Hmin _ (JStr "R-1") _ (or_introl eq_refl) Hfp). reflexivity.
Defined.

Lemma enriched_unhashable_id_raises_witness :
  raises (parse_vehicles_for_map_enriched (env := Cpython.env)
            (hover := CpythonHover.hover) Sample.now
            HoverSamples.trains_odd_id None).
Proof.
  apply (enriched_unhashable_id_raises (env := Cpython.env)
           (hover := CpythonHover.hover) Sample.now HoverSamples.trains_odd_id
           None
           [mk_vehicle (42 # 1) (-71 # 1) None (JList [JInt 1])]
           (mk_vehicle (42 # 1) (-71 # 1) None (JList [JInt 1]))).
  - reflexivity.
  - left. reflexivity.
  - reflexivity.
Defined.

(** ** The refresh *)

Section Frames.

Context {A B C : Type} (field : app_state -> C).

Lemma keeps_pbind (m : prog A) (k : A -> prog B) :
  keeps field m -> (forall a, keeps field (k a)) -> keeps field (pbind m k).
Proof.
  intros Hm Hk st. unfold pbind. specialize (Hm st).
  destruct (m st) as [st' [a|e]]; simpl in *.
  - rewrite Hk. exact Hm.
  - exact Hm.
Qed.

Lemma keeps_call (r : result A) : keeps field (call r).
Proof. intros st. reflexivity. Qed.

Lemma keeps_read (g : app_state -> A) : keeps field (read g).
Proof. intros st. reflexivity. Qed.

End Frames.

Ltac run_prog :=
  lazy [pbind call read done api_error_set df_alerts_set df_departures_set
        df_near_term_set df_future_set vehicles_map_set shapes_by_route_set
        last_api_call_time_set skip_next_timer_refresh_set fst snd
        api_error df_alerts df_departures df_near_term df_future vehicles_map
        shapes_by_route last_api_call_time skip_next_timer_refresh].

Ltac run_prog_in H :=
  lazy [pbind call read done api_error_set df_alerts_set df_departures_set
        df_near_term_set df_future_set vehicles_map_set shapes_by_route_set
        last_api_call_time_set skip_next_timer_refresh_set fst snd
        api_error df_alerts df_departures df_near_term df_future vehicles_map
        shapes_by_route last_api_call_time skip_next_timer_refresh] in H.

Section Refresh.

Context {env : PyEnv} {hover : PyHover}.

(** X15. When one of the four responses a refresh inspects is an error
    with a message, the refresh shows the message of the first such
    response in the banner, returns, and leaves every table, the map,
    the shapes and the time stamp as they were. *)
Theorem refresh_reports_first_error f c st before r after :
  inspected f = before ++ r :: after ->
  Forall (fun x => failed x = false) before ->
  failed r = true ->
  truthy (dget r "message" API_error) = true ->
  snd (_do_refresh f c st) = Ok tt /\
  api_error (fst (_do_refresh f c st)) = dget r "message" API_error /\
  same_data st (fst (_do_refresh f c st)).
Proof.
  unfold inspected, failed. intros Hsplit Hbefore Hr Hmsg.
  assert (Herr :
    (if truthy (dget (alerts_resp f) "error" JNull)
     then dget (alerts_resp f) "message" API_error
     else if truthy (dget (predictions_resp f) "error" JNull)
     then dget (predictions_resp f) "message" API_error
     else if truthy (dget (vehicles_resp f) "error" JNull)
     then dget (vehicles_resp f) "message" API_error
     else if truthy (dget (shapes_resp f) "error" JNull)
     then dget (shapes_resp f) "message" API_error
     else JNull) = dget r "message" API_error).
  { destruct before as [|b1 [|b2 [|b3 [|b4 rest]]]]; simpl in Hsplit.
    - injection Hsplit as <- _. now rewrite Hr.
    - inversion Hbefore as [|? ? H1 _]; subst.
      injection Hsplit as <- <- _. now rewrite H1, Hr.
    - inversion Hbefore as [|? ? H1 Hb']; subst.
      inversion Hb' as [|? ? H2 _]; subst.
      injection Hsplit as <- <- <- _. now rewrite H1, H2, Hr.
    - inversion Hbefore as [|? ? H1 Hb']; subst.
      inversion Hb' as [|? ? H2 Hb'']; subst.
      inversion Hb'' as [|? ? H3 _]; subst.
      injection Hsplit as <- <- <- <- _. now rewrite H1, H2, H3, Hr.
    - injection Hsplit as _ _ _ _ Habs. destruct rest; discriminate Habs. }
  unfold _do_refresh. rewrite Herr, Hmsg.
  split; [reflexivity|]. split; [reflexivity|].
  repeat split.
Qed.

Lemma refresh_tail_keeps_banner f c :
  keeps api_error
    (alerts <~ call (parse_alerts (at_alerts c) (alerts_resp f)) ;;
     df_alerts_set alerts ;;;
     departures <~ call (parse_departures (predictions_resp f)) ;;
     df_departures_set departures ;;;
     near_term <~ call (parse_near_term_arrivals (at_near_term c)
                          (predictions_resp f) (vehicles_resp f)) ;;
     df_near_term_set near_term ;;;
     future <~ call (parse_future_arrivals (at_future c)
                       (predictions_resp f) (vehicles_resp f)) ;;
     df_future_set future ;;;
     vehicles <~ call (parse_vehicles_for_map (vehicles_resp f)) ;;
     vehicles_map_set (map Plain vehicles) ;;;
     red_shapes <~ call (parse_red_line_shape (shapes_resp f)) ;;
     current <~ read shapes_by_route ;;
     let current :=
       match red_shapes with
       | [] => current
       | _ => pm_set String.eqb "Red"%string red_shapes current
       end in
     shapes_by_route_set current ;;;
     last_api_call_time_set (Some (at_stamp c)) ;;;
     let predictions_all :=
       if truthy (dget (predictions_all_resp f) "error" JNull) then None
       else Some (predictions_all_resp f) in
     enriched <~ call (parse_vehicles_for_map_enriched (at_next_stop c)
                         (vehicles_resp f) predictions_all) ;;
     vehicles_map_set (map Hover enriched)).
Proof.
  repeat first
    [ apply keeps_pbind; [|intros ?]
    | apply keeps_call
    | apply keeps_read
    | (intros ?; reflexivity) ].
Qed.

(** X16. A refresh either shows an error, returns and leaves the data
    as it was, or it clears the banner: whatever happens afterwards, an
    exception included, is not shown; and an error whose message is
    empty is not shown either. *)
Theorem refresh_banner f c st :
  (truthy (api_error (fst (_do_refresh f c st))) = true /\
   snd (_do_refresh f c st) = Ok tt /\
   same_data st (fst (_do_refresh f c st))) \/
  api_error (fst (_do_refresh f c st)) = JNull.
Proof.
  unfold _do_refresh.
  match goal with
  | |- context [if truthy ?err then api_error_set ?err else _] =>
      destruct (truthy err) eqn:Eerr
  end.
  - left. split; [exact Eerr|]. split; [reflexivity|]. repeat split.
  - right.
    match goal with
    | |- api_error (fst (pbind (api_error_set JNull) ?k st)) = JNull =>
        change (pbind (api_error_set JNull) k st)
          with (k tt (fst (api_error_set JNull st)))
    end.
    rewrite refresh_tail_keeps_banner. reflexivity.
Qed.

Lemma str_pm_get_after_set {V : Type} (k k' : string) (v : V)
      (m : pymap string V) :
  pm_get String.eqb k (pm_set String.eqb k' v m)
  = if String.eqb k k' then Some v else pm_get String.eqb k m.
Proof.
  apply pm_get_after_set.
  - apply String.eqb_sym.
  - intros a b c' H. apply String.eqb_eq in H. now subst.
Qed.

(** X17. A refresh that completes without showing an error has put in
    every table what its parser makes of the responses, in the map the
    enriched list, and the time of the clock in the time stamp.  Of the
    cached shapes it replaces those of the Red Line, and only when the
    response holds a shape that decodes: other layers, and the Red Line
    after a response without shapes, stay as they were. *)
Theorem refresh_success f c st st' :
  _do_refresh f c st = (st', Ok tt) ->
  api_error st' = JNull ->
  parse_alerts (at_alerts c) (alerts_resp f) = Ok (df_alerts st') /\
  parse_departures (predictions_resp f) = Ok (df_departures st') /\
  parse_near_term_arrivals (at_near_term c) (predictions_resp f)
                           (vehicles_resp f) = Ok (df_near_term st') /\
  parse_future_arrivals (at_future c) (predictions_resp f)
                        (vehicles_resp f) = Ok (df_future st') /\
  (exists enriched,
      parse_vehicles_for_map_enriched
        (at_next_stop c) (vehicles_resp f)
        (if failed (predictions_all_resp f) then None
         else Some (predictions_all_resp f)) = Ok enriched /\
      vehicles_map st' = map Hover enriched) /\
  (exists red_shapes,
      parse_red_line_shape (shapes_resp f) = Ok red_shapes /\
      forall name,
        pm_get String.eqb name (shapes_by_route st')
        = match red_shapes with
          | [] => pm_get String.eqb name (shapes_by_route st)
          | _ => if String.eqb name "Red" then Some red_shapes
                 else pm_get String.eqb name (shapes_by_route st)
          end) /\
  last_api_call_time st' = Some (at_stamp c) /\
  skip_next_timer_refresh st' = skip_next_timer_refresh st.
Proof.
  intros H Hbanner. unfold _do_refresh, failed in *.
  match type of H with
  | context [if truthy ?err then api_error_set ?err else _] =>
      destruct (truthy err) eqn:Eerr
  end.
  { run_prog_in H. injection H as <-. simpl in Hbanner.
    rewrite Hbanner in Eerr. discriminate Eerr. }
  clear Eerr Hbanner.
  destruct (parse_alerts _ _) as [alerts|e1];
    [|run_prog_in H; discriminate H].
  destruct (parse_departures _) as [departures|e2];
    [|run_prog_in H; discriminate H].
  destruct (parse_near_term_arrivals _ _ _) as [near_term|e3];
    [|run_prog_in H; discriminate H].
  destruct (parse_future_arrivals _ _ _) as [future|e4];
    [|run_prog_in H; discriminate H].
  destruct (parse_vehicles_for_map _) as [vehicles|e5];
    [|run_prog_in H; discriminate H].
  destruct (parse_red_line_shape _) as [red_shapes|e6];
    [|run_prog_in H; discriminate H].
  destruct (parse_vehicles_for_map_enriched _ _ _) as [enriched|e7];
    [|run_prog_in H; discriminate H].
  run_prog_in H. injection H as <-. simpl.
  repeat (split; [reflexivity|]).
  split; [exists enriched; split; reflexivity|].
  split; [|split; reflexivity].
  exists red_shapes. split; [reflexivity|].
  intros name. destruct red_shapes as [|s0 rest]; [reflexivity|].
  apply str_pm_get_after_set.
Qed.

(** X18. A refresh that raises has not reached the time stamp, and has
    left the cached shapes alone, unless it is the enrichment that
    failed: then the time stamp is set and the map shows the basic
    positions. *)
Theorem refresh_failure f c st e :
  snd (_do_refresh f c st) = Raise e ->
  (last_api_call_time (fst (_do_refresh f c st)) = last_api_call_time st /\
   shapes_by_route (fst (_do_refresh f c st)) = shapes_by_route st) \/
  (last_api_call_time (fst (_do_refresh f c st)) = Some (at_stamp c) /\
   parse_vehicles_for_map_enriched
     (at_next_stop c) (vehicles_resp f)
     (if failed (predictions_all_resp f) then None
      else Some (predictions_all_resp f)) = Raise e /\
   exists vehicles,
     parse_vehicles_for_map (vehicles_resp f) = Ok vehicles /\
     vehicles_map (fst (_do_refresh f c st)) = map Plain vehicles).
Proof.
  unfold _do_refresh, failed.
  match goal with
  | |- context [if truthy ?err then api_error_set ?err else _] =>
      destruct (truthy err)
  end.
  { intros H. discriminate H. }
  destruct (parse_alerts _ _) as [alerts|e1];
    [|run_prog; intros _; left; now split].
  destruct (parse_departures _) as [departures|e2];
    [|run_prog; intros _; left; now split].
  destruct (parse_near_term_arrivals _ _ _) as [near_term|e3];
    [|run_prog; intros _; left; now split].
  destruct (parse_future_arrivals _ _ _) as [future|e4];
    [|run_prog; intros _; left; now split].
  destruct (parse_vehicles_for_map _) as [vehicles|e5];
    [|run_prog; intros _; left; now split].
  destruct (parse_red_line_shape _) as [red_shapes|e6];
    [|run_prog; intros _; left; now split].
  destruct (parse_vehicles_for_map_enriched _ _ _) as [enriched|e7]; run_prog.
  - intros H. discriminate H.
  - intros H. injection H as ->. right.
    split; [reflexivity|]. split; [reflexivity|].
    exists vehicles. split; reflexivity.
Qed.

End Refresh.

(** ** Map layers *)

Section MapLayers.

Context {env : PyEnv}.

(** One turn of the loop over the layers leaves the cache alone or
    files a non-empty list of geometries under the layer's name. *)
Lemma layer_body_ok fetch n cache name out :
  layer_body fetch (n, cache) name = Ok out ->
  snd out = cache \/
  exists geoms, geoms <> [] /\ snd out = pm_set String.eqb name geoms cache.
Proof.
  unfold layer_body. destruct (pm_get String.eqb name MAP_ROUTE_IDS) as [ids|];
    [|discriminate].
  intros H. peel H as r Hr. injection H as <-. simpl.
  destruct (snd r) as [|g rest]; [now left|].
  right. exists (g :: rest). split; [discriminate | reflexivity].
Qed.

Lemma layer_loop fetch (orig : pymap string (list segment)) all_names :
  (forall name, In name all_names -> pm_get String.eqb name orig = None) ->
  forall names acc out,
    incl names all_names ->
    (forall name geoms, pm_get String.eqb name orig = Some geoms ->
                        pm_get String.eqb name (snd acc) = Some geoms) ->
    (forall name geoms, pm_get String.eqb name (snd acc) = Some geoms ->
                        pm_get String.eqb name orig = Some geoms \/
                        (In name all_names /\ geoms <> [])) ->
    for_state (layer_body fetch) names acc = Ok out ->
    (forall name geoms, pm_get String.eqb name orig = Some geoms ->
                        pm_get String.eqb name (snd out) = Some geoms) /\
    (forall name geoms, pm_get String.eqb name (snd out) = Some geoms ->
                        pm_get String.eqb name orig = Some geoms \/
                        (In name all_names /\ geoms <> [])).
Proof.
  intros Hnew. induction names as [|x names IH]; intros acc out Hincl I1 I2 H.
  - simpl in H. injection H as <-. split; assumption.
  - simpl in H. peel H as acc' Hbody.
    assert (Hx : In x all_names) by (apply Hincl; now left).
    apply (IH acc' out); [| | |exact H]; clear IH H.
    + intros y Hy. apply Hincl. now right.
    + intros name geoms Horig. destruct acc as [n cache].
      destruct (layer_body_ok fetch n cache x acc' Hbody)
        as [-> | (g & _ & ->)]; [now apply I1|].
      rewrite str_pm_get_after_set.
      destruct (String.eqb name x) eqn:E; [|now apply I1].
      apply String.eqb_eq in E. subst name.
      rewrite (Hnew x Hx) in Horig. discriminate Horig.
    + intros name geoms Hget. destruct acc as [n cache].
      destruct (layer_body_ok fetch n cache x acc' Hbody)
        as [Heq | (g & Hg & Heq)]; rewrite Heq in Hget; [now apply I2|].
      rewrite str_pm_get_after_set in Hget.
      destruct (String.eqb name x) eqn:E; [|now apply I2].
      apply String.eqb_eq in E. subst name. injection Hget as <-.
      right. split; assumption.
Qed.

(** X19. Fetching the extra map layers is all or nothing, and it only
    adds: when a shape fails to decode the state is as it was; otherwise
    nothing but the cache of shapes changes, every layer cached before is
    cached still with the same geometries, and a new entry is a
    non-empty list of geometries under a selected name that
    [MAP_ROUTE_IDS] knows. *)
Theorem extra_layers_only_add fetch map_routes st st' r :
  _fetch_extra_map_layers fetch map_routes st = (st', r) ->
  (forall e, r = Raise e -> st' = st) /\
  (r = Ok tt ->
   st' = fst (shapes_by_route_set (shapes_by_route st') st) /\
   (forall name geoms,
       pm_get String.eqb name (shapes_by_route st) = Some geoms ->
       pm_get String.eqb name (shapes_by_route st') = Some geoms) /\
   (forall name geoms,
       pm_get String.eqb name (shapes_by_route st') = Some geoms ->
       pm_get String.eqb name (shapes_by_route st) = Some geoms \/
       (exists selected,
           map_routes = Some selected /\ In name selected /\
           is_some (pm_get String.eqb name MAP_ROUTE_IDS) = true /\
           geoms <> []))).
Proof.
  unfold _fetch_extra_map_layers.
  cbv [pbind call read done shapes_by_route_set].
  set (selected := match map_routes with Some l => l | None => [] end).
  set (to_fetch := filter _ selected).
  assert (Hsel : forall name, In name to_fetch ->
            pm_get String.eqb name (shapes_by_route st) = None /\
            In name selected /\
            is_some (pm_get String.eqb name MAP_ROUTE_IDS) = true).
  { intros name Hin. apply filter_In in Hin. destruct Hin as [Hin Hc].
    apply andb_true_iff in Hc. destruct Hc as [Hc1 Hc2].
    repeat split; [|exact Hin|exact Hc2].
    destruct (pm_get String.eqb name (shapes_by_route st));
      [discriminate Hc1 | reflexivity]. }
  assert (Hstay : st = fst (shapes_by_route_set (shapes_by_route st) st))
    by (destruct st; reflexivity).
  destruct to_fetch as [|x rest] eqn:Eto.
  - intros H. injection H as <- <-. split; [intros e He; discriminate He|].
    intros _. split; [exact Hstay|]. split; [auto|]. intros name geoms Hget.
    now left.
  - rewrite <- Eto in *. clear Eto x rest.
    destruct (for_state (layer_body fetch) to_fetch (O, shapes_by_route st))
      as [out|e0] eqn:Eloop.
    + intros H. injection H as <- <-. split; [intros e He; discriminate He|].
      intros _. simpl. split; [reflexivity|].
      destruct (layer_loop fetch (shapes_by_route st) to_fetch
                  (fun name Hin => proj1 (Hsel name Hin))
                  to_fetch (O, shapes_by_route st) out)
        as [Hkeep Hnew]; [apply incl_refl | auto | now left | exact Eloop |].
      split; [exact Hkeep|].
      intros name geoms Hget.
      destruct (Hnew name geoms Hget) as [Hold | [Hin Hne]]; [now left|].
      right. destruct (Hsel name Hin) as (_ & Hin' & Hknown).
      exists selected. split; [|now repeat split].
      subst selected. destruct map_routes as [l|]; [reflexivity|].
      destruct Hin'.
    + intros H. injection H as <- <-. split; [intros e He; reflexivity|].
      intros Habs. discriminate Habs.
Qed.

End MapLayers.

Lemma refresh_reports_first_error_witness :
  api_error (fst (_do_refresh (env := Cpython.env)
                    (hover := CpythonHover.hover) AppSamples.limited
                    AppSamples.tick initial_state))
  = JStr "API request failed: status 429".
Proof.
  destruct (refresh_reports_first_error (env := Cpython.env)
              (hover := CpythonHover.hover) AppSamples.limited
              AppSamples.tick initial_state
              [Sample.alerts [Sample.alert_open_ended]]
              AppSamples.rate_limited
              [Sample.vehicles; AppSamples.rate_limited])
    as (_ & Hbanner & _).
  - reflexivity.
  - constructor; [reflexivity | constructor].
  - reflexivity.
  - reflexivity.
  - exact Hbanner.
Defined.

Lemma refresh_success_witness :
  parse_alerts (env := Cpython.env) (at_alerts AppSamples.tick)
               (alerts_resp AppSamples.good)
  = Ok (df_alerts (fst (_do_refresh (env := Cpython.env)
                          (hover := CpythonHover.hover) AppSamples.good
                          AppSamples.tick AppSamples.red_cached))).
Proof.
  destruct (refresh_success (env := Cpython.env)
              (hover := CpythonHover.hover) AppSamples.good AppSamples.tick
              AppSamples.red_cached
              (fst (_do_refresh (env := Cpython.env)
                      (hover := CpythonHover.hover) AppSamples.good
                      AppSamples.tick AppSamples.red_cached)))
    as (Halerts & _).
  - vm_compute. reflexivity.
  - vm_compute. reflexivity.
  - exact Halerts.
Defined.

Lemma refresh_failure_witness :
  last_api_call_time
    (fst (_do_refresh (env := Cpython.env) (hover := CpythonHover.hover)
            AppSamples.malformed_enrichment AppSamples.tick initial_state))
  = Some (at_stamp AppSamples.tick).
Proof.
  destruct (refresh_failure (env := Cpython.env)
              (hover := CpythonHover.hover) AppSamples.malformed_enrichment
              AppSamples.tick initial_state ValueError)
    as [[Hstale _] | [Hstamp _]].
  - vm_compute. reflexivity.
  - vm_compute in Hstale. discriminate Hstale.
  - exact Hstamp.
Defined.

Lemma extra_layers_only_add_witness :
  pm_get String.eqb "Red"%string
    (shapes_by_route
       (fst (_fetch_extra_map_layers (env := Cpython.env) AppSamples.blue_only
               (Some ["Red"; "Blue"; "Purple"; "Orange"]%string)
               AppSamples.red_cached)))
  = Some [([-7112 # 100], [4239 # 100])].
Proof.
  destruct (extra_layers_only_add (env := Cpython.env) AppSamples.blue_only
              (Some ["Red"; "Blue"; "Purple"; "Orange"]%string)
              AppSamples.red_cached
              (fst (_fetch_extra_map_layers (env := Cpython.env)
                      AppSamples.blue_only
                      (Some ["Red"; "Blue"; "Purple"; "Orange"]%string)
                      AppSamples.red_cached))
              (Ok tt))
    as (_ & Hok).
  - vm_compute. reflexivity.
  - destruct (Hok eq_refl) as (_ & Hkeep & _).
    apply Hkeep. reflexivity.
Defined.

(** The layers after that run: the Red Line as cached, the Blue Line
    fetched, nothing for the unknown name or the failed fetch. *)
Lemma extra_layers_sample :
  map fst
    (shapes_by_route
       (fst (_fetch_extra_map_layers (env := Cpython.env) AppSamples.blue_only
               (Some ["Red"; "Blue"; "Purple"; "Orange"]%string)
               AppSamples.red_cached)))
  = ["Red"; "Blue"]%string.
Proof. vm_compute. reflexivity. Qed.

(** A malformed timestamp among the predictions at all stops: the
    refresh raises, the banner stays clear and the map keeps the basic
    positions. *)
Lemma malformed_enrichment_sample :
  snd (_do_refresh (env := Cpython.env) (hover := CpythonHover.hover)
         AppSamples.malformed_enrichment AppSamples.tick initial_state)
  = Raise ValueError /\
  api_error
    (fst (_do_refresh (env := Cpython.env) (hover := CpythonHover.hover)
            AppSamples.malformed_enrichment AppSamples.tick initial_state))
  = JNull /\
  List.length
    (vehicles_map
       (fst (_do_refresh (env := Cpython.env) (hover := CpythonHover.hover)
               AppSamples.malformed_enrichment AppSamples.tick initial_state)))
  = 3%nat.
Proof. vm_compute. repeat split. Qed.
